(** * The ASUS low-memory killer: drivers/staging/android/lowmemorykiller.c

    A shallow embedding of the victim-selection engine ([lowmem_scan]), of the
    adaptive clamp ([adjust_minadj]) and of the pressure listener
    ([lmk_vmpressure_notifier]), followed by the properties the design
    document states about them.

    C integers are [Z] with the conversions of an LP64 target written out.
    The file-scope statics of the driver are gathered in [lmk_state], the
    module parameters in [params], and everything one call reads from the
    rest of the kernel (page counters, the clock, the process list, the
    allocator) in [invocation]. *)

From Stdlib Require Import ZArith List String Bool Lia Sorted.
From Stdlib Require Import Permutation.
Import ListNotations.
Open Scope Z_scope.

(** ** Machine integers *)

Definition wrap_signed (bits z : Z) : Z :=
  (z + 2 ^ (bits - 1)) mod 2 ^ bits - 2 ^ (bits - 1).

Definition to_short : Z -> Z := wrap_signed 16.
Definition to_int : Z -> Z := wrap_signed 32.
Definition to_long : Z -> Z := wrap_signed 64.
Definition to_ulong (z : Z) : Z := z mod 2 ^ 64.

Definition int_range (z : Z) : Prop := - 2 ^ 31 <= z < 2 ^ 31.

(** ** What the driver takes from kernel headers

    None of these headers belongs to the driver, so their contents are
    parameters: the tick rate, the page size, the largest oom score, and the
    two jiffies comparisons of linux/jiffies.h.  The only fact used about
    them is that the "kill nothing" sentinel fits the [short] that holds it. *)

Class kernel : Type := {
  HZ : Z;
  PAGE_SIZE : Z;
  OOM_SCORE_ADJ_MAX : Z;
  time_after : Z -> Z -> bool;
  time_before_eq : Z -> Z -> bool;
  sentinel_is_short : - 2 ^ 15 <= OOM_SCORE_ADJ_MAX + 1 < 2 ^ 15
}.

(** ** Module parameters *)

Record params : Type := {
  lowmem_adj : list Z;           (* static short lowmem_adj[6] *)
  lowmem_adj_size : Z;
  lowmem_minfree : list Z;       (* static int lowmem_minfree[6] *)
  lowmem_minfree_size : Z;
  enable_adaptive_lmk : Z;
  vmpressure_file_min : Z
}.

(** [ARRAY_SIZE(lowmem_adj)] *)
Definition ARRAY_SIZE_lowmem_adj : Z := 6.

(** [a[i]] for an index inside the array *)
Definition array_get (a : list Z) (i : Z) : Z := nth (Z.to_nat i) a 0.

(** [a[i]] for any index; [None] is a read outside the array *)
Definition array_read (a : list Z) (i : Z) : option Z :=
  if i <? 0 then None else nth_error a (Z.to_nat i).

Definition adj_max_shift : Z := 353.

Definition DTaskMax : Z := 4.
Definition ASUS_MEMORY_DEBUG_MAXCOUNT : Z := 256.
Definition MINFREE_TO_PRINT_LOG : Z := 300.

Definition VMPRESSURE_NO_ADJUST : Z := 0.
Definition VMPRESSURE_ADJUST_ENCROACH : Z := 1.
Definition VMPRESSURE_ADJUST_NORMAL : Z := 2.

(** ** The statics of the driver *)

Record throttle_state : Type := {
  lowmem_killNothing_timeout : Z;
  lowmem_justkilled_timeout : Z;
  killNothing : Z;
  killNothing_adj : Z;
  justkilled_adj : Z
}.

Record diag_state : Type := {
  trigger_dumpsys_meminfo : bool;
  trigger_dumpsys_meminfo_time : Z;
  trigger_dump_mem : bool;
  print_log_flag : bool;
  dumppid : Z;
  dumppid_tasksize : Z;
  time_out : Z;
  print_log_time_out : Z;
  dumpmem_time_out : Z
}.

Record counters : Type := {
  lowmem_scan_count : Z;
  lowmem_escape1_count : Z;
  lowmem_escape2_count : Z;
  lowmem_escape3_count : Z;
  lowmem_kill_count : Z
}.

Record lmk_state : Type := {
  throttle : throttle_state;
  shift_adj : Z;                 (* atomic_t shift_adj *)
  diag : diag_state;
  stats : counters
}.

Definition initial_state : lmk_state :=
  {| throttle := {| lowmem_killNothing_timeout := 0;
                    lowmem_justkilled_timeout := 0;
                    killNothing := 0;
                    killNothing_adj := 2000;
                    justkilled_adj := 2000 |};
     shift_adj := 0;
     diag := {| trigger_dumpsys_meminfo := false;
                trigger_dumpsys_meminfo_time := 0;
                trigger_dump_mem := false;
                print_log_flag := false;
                dumppid := 0;
                dumppid_tasksize := 0;
                time_out := 0;
                print_log_time_out := 0;
                dumpmem_time_out := 0 |};
     stats := {| lowmem_scan_count := 0;
                 lowmem_escape1_count := 0;
                 lowmem_escape2_count := 0;
                 lowmem_escape3_count := 0;
                 lowmem_kill_count := 0 |} |}.

Definition default_params : params :=
  {| lowmem_adj := [0; 1; 6; 12; 0; 0];
     lowmem_adj_size := 4;
     lowmem_minfree := [3 * 512; 2 * 1024; 4 * 1024; 16 * 1024; 0; 0];
     lowmem_minfree_size := 4;
     enable_adaptive_lmk := 0;
     vmpressure_file_min := 0 |}.

(** Assignments to single statics. *)

Definition with_throttle (t : throttle_state) (s : lmk_state) : lmk_state :=
  {| throttle := t; shift_adj := shift_adj s; diag := diag s; stats := stats s |}.
Definition with_shift_adj (v : Z) (s : lmk_state) : lmk_state :=
  {| throttle := throttle s; shift_adj := v; diag := diag s; stats := stats s |}.
Definition with_diag (d : diag_state) (s : lmk_state) : lmk_state :=
  {| throttle := throttle s; shift_adj := shift_adj s; diag := d; stats := stats s |}.
Definition with_stats (c : counters) (s : lmk_state) : lmk_state :=
  {| throttle := throttle s; shift_adj := shift_adj s; diag := diag s; stats := c |}.

Definition set_trigger_dumpsys_meminfo (v : bool) (d : diag_state) : diag_state :=
  {| trigger_dumpsys_meminfo := v;
     trigger_dumpsys_meminfo_time := trigger_dumpsys_meminfo_time d;
     trigger_dump_mem := trigger_dump_mem d; print_log_flag := print_log_flag d;
     dumppid := dumppid d; dumppid_tasksize := dumppid_tasksize d;
     time_out := time_out d; print_log_time_out := print_log_time_out d;
     dumpmem_time_out := dumpmem_time_out d |}.
Definition set_trigger_dumpsys_meminfo_time (v : Z) (d : diag_state) : diag_state :=
  {| trigger_dumpsys_meminfo := trigger_dumpsys_meminfo d;
     trigger_dumpsys_meminfo_time := v;
     trigger_dump_mem := trigger_dump_mem d; print_log_flag := print_log_flag d;
     dumppid := dumppid d; dumppid_tasksize := dumppid_tasksize d;
     time_out := time_out d; print_log_time_out := print_log_time_out d;
     dumpmem_time_out := dumpmem_time_out d |}.
Definition set_trigger_dump_mem (v : bool) (d : diag_state) : diag_state :=
  {| trigger_dumpsys_meminfo := trigger_dumpsys_meminfo d;
     trigger_dumpsys_meminfo_time := trigger_dumpsys_meminfo_time d;
     trigger_dump_mem := v; print_log_flag := print_log_flag d;
     dumppid := dumppid d; dumppid_tasksize := dumppid_tasksize d;
     time_out := time_out d; print_log_time_out := print_log_time_out d;
     dumpmem_time_out := dumpmem_time_out d |}.
Definition set_print_log_flag (v : bool) (d : diag_state) : diag_state :=
  {| trigger_dumpsys_meminfo := trigger_dumpsys_meminfo d;
     trigger_dumpsys_meminfo_time := trigger_dumpsys_meminfo_time d;
     trigger_dump_mem := trigger_dump_mem d; print_log_flag := v;
     dumppid := dumppid d; dumppid_tasksize := dumppid_tasksize d;
     time_out := time_out d; print_log_time_out := print_log_time_out d;
     dumpmem_time_out := dumpmem_time_out d |}.
Definition set_dumppid (v : Z) (d : diag_state) : diag_state :=
  {| trigger_dumpsys_meminfo := trigger_dumpsys_meminfo d;
     trigger_dumpsys_meminfo_time := trigger_dumpsys_meminfo_time d;
     trigger_dump_mem := trigger_dump_mem d; print_log_flag := print_log_flag d;
     dumppid := v; dumppid_tasksize := dumppid_tasksize d;
     time_out := time_out d; print_log_time_out := print_log_time_out d;
     dumpmem_time_out := dumpmem_time_out d |}.
Definition set_dumppid_tasksize (v : Z) (d : diag_state) : diag_state :=
  {| trigger_dumpsys_meminfo := trigger_dumpsys_meminfo d;
     trigger_dumpsys_meminfo_time := trigger_dumpsys_meminfo_time d;
     trigger_dump_mem := trigger_dump_mem d; print_log_flag := print_log_flag d;
     dumppid := dumppid d; dumppid_tasksize := v;
     time_out := time_out d; print_log_time_out := print_log_time_out d;
     dumpmem_time_out := dumpmem_time_out d |}.
Definition set_time_out (v : Z) (d : diag_state) : diag_state :=
  {| trigger_dumpsys_meminfo := trigger_dumpsys_meminfo d;
     trigger_dumpsys_meminfo_time := trigger_dumpsys_meminfo_time d;
     trigger_dump_mem := trigger_dump_mem d; print_log_flag := print_log_flag d;
     dumppid := dumppid d; dumppid_tasksize := dumppid_tasksize d;
     time_out := v; print_log_time_out := print_log_time_out d;
     dumpmem_time_out := dumpmem_time_out d |}.
Definition set_print_log_time_out (v : Z) (d : diag_state) : diag_state :=
  {| trigger_dumpsys_meminfo := trigger_dumpsys_meminfo d;
     trigger_dumpsys_meminfo_time := trigger_dumpsys_meminfo_time d;
     trigger_dump_mem := trigger_dump_mem d; print_log_flag := print_log_flag d;
     dumppid := dumppid d; dumppid_tasksize := dumppid_tasksize d;
     time_out := time_out d; print_log_time_out := v;
     dumpmem_time_out := dumpmem_time_out d |}.
Definition set_dumpmem_time_out (v : Z) (d : diag_state) : diag_state :=
  {| trigger_dumpsys_meminfo := trigger_dumpsys_meminfo d;
     trigger_dumpsys_meminfo_time := trigger_dumpsys_meminfo_time d;
     trigger_dump_mem := trigger_dump_mem d; print_log_flag := print_log_flag d;
     dumppid := dumppid d; dumppid_tasksize := dumppid_tasksize d;
     time_out := time_out d; print_log_time_out := print_log_time_out d;
     dumpmem_time_out := v |}.

Definition incr_scan_count (c : counters) : counters :=
  {| lowmem_scan_count := to_ulong (lowmem_scan_count c + 1);
     lowmem_escape1_count := lowmem_escape1_count c;
     lowmem_escape2_count := lowmem_escape2_count c;
     lowmem_escape3_count := lowmem_escape3_count c;
     lowmem_kill_count := lowmem_kill_count c |}.
Definition incr_escape1_count (c : counters) : counters :=
  {| lowmem_scan_count := lowmem_scan_count c;
     lowmem_escape1_count := to_ulong (lowmem_escape1_count c + 1);
     lowmem_escape2_count := lowmem_escape2_count c;
     lowmem_escape3_count := lowmem_escape3_count c;
     lowmem_kill_count := lowmem_kill_count c |}.
Definition incr_escape2_count (c : counters) : counters :=
  {| lowmem_scan_count := lowmem_scan_count c;
     lowmem_escape1_count := lowmem_escape1_count c;
     lowmem_escape2_count := to_ulong (lowmem_escape2_count c + 1);
     lowmem_escape3_count := lowmem_escape3_count c;
     lowmem_kill_count := lowmem_kill_count c |}.
Definition incr_escape3_count (c : counters) : counters :=
  {| lowmem_scan_count := lowmem_scan_count c;
     lowmem_escape1_count := lowmem_escape1_count c;
     lowmem_escape2_count := lowmem_escape2_count c;
     lowmem_escape3_count := to_ulong (lowmem_escape3_count c + 1);
     lowmem_kill_count := lowmem_kill_count c |}.
Definition incr_kill_count (c : counters) : counters :=
  {| lowmem_scan_count := lowmem_scan_count c;
     lowmem_escape1_count := lowmem_escape1_count c;
     lowmem_escape2_count := lowmem_escape2_count c;
     lowmem_escape3_count := lowmem_escape3_count c;
     lowmem_kill_count := to_ulong (lowmem_kill_count c + 1) |}.

(** ** The adaptive clamp

    [adjust_minadj] takes the score through a pointer and reads and clears
    the atomic [shift_adj]; it returns here the C return value, the score
    left behind the pointer and the new value of [shift_adj]. *)

Definition adjust_minadj `{kernel} (P : params) (shift : Z) (min_score_adj : Z)
  : Z * Z * Z :=
  if enable_adaptive_lmk P =? 0 then (0, min_score_adj, shift)
  else if negb (shift =? 0) && (min_score_adj >? adj_max_shift) then
    ((if min_score_adj =? OOM_SCORE_ADJ_MAX + 1
      then VMPRESSURE_ADJUST_ENCROACH else VMPRESSURE_ADJUST_NORMAL),
     adj_max_shift, 0)
  else (VMPRESSURE_NO_ADJUST, min_score_adj, 0).

(** ** The pressure listener *)

Record vm_counters : Type := {
  NR_FREE_PAGES : Z;             (* global_page_state, unsigned long *)
  NR_FILE_PAGES : Z;
  NR_SHMEM : Z;
  zcache_pages : Z;
  total_swapcache_pages : Z
}.

(** The clamp of [array_size] that both the listener and the scan perform. *)
Definition clamp_array_size (P : params) : Z :=
  let array_size := ARRAY_SIZE_lowmem_adj in
  let array_size :=
    if lowmem_adj_size P <? array_size then lowmem_adj_size P else array_size in
  let array_size :=
    if lowmem_minfree_size P <? array_size then lowmem_minfree_size P
    else array_size in
  array_size.

(** Returns the notifier's return value and the new [shift_adj]; [None]
    when [lowmem_minfree[array_size - 1]] is read outside the array, which
    happens for [array_size <= 0]. *)
Definition lmk_vmpressure_notifier (P : params) (vm : vm_counters)
    (action : Z) (shift : Z) : option (Z * Z) :=
  let pressure := action in
  if enable_adaptive_lmk P =? 0 then Some (0, shift)
  else if pressure >=? 98 then
    let array_size := clamp_array_size P in
    let other_file :=
      to_int (to_ulong (NR_FILE_PAGES vm + zcache_pages vm
                        - NR_SHMEM vm - total_swapcache_pages vm)) in
    let other_free := to_int (NR_FREE_PAGES vm) in
    match array_read (lowmem_minfree P) (array_size - 1) with
    | None => None
    | Some minfree =>
        if (other_free <? minfree) && (other_file <? vmpressure_file_min P)
        then Some (0, 1) else Some (0, shift)
    end
  else if negb (shift =? 0) then Some (0, 0)
  else Some (0, shift).

(** ** Tasks

    A [task_ptr] stands for a [struct task_struct *]; [memory] gives what the
    pointer points to.  [mm] is [None] when [p->mm] is NULL and otherwise
    holds [get_mm_rss(p->mm)]; [signal] is [None] when [p->signal] is NULL and
    otherwise holds [p->signal->oom_score_adj]. *)

Definition task_ptr : Type := nat.

Record task_struct : Type := {
  pid : Z;
  comm : string;
  pf_kthread : bool;             (* flags & PF_KTHREAD *)
  tif_mm_released : bool;        (* thread flag TIF_MM_RELEASED *)
  tif_memdie : bool;             (* thread flag TIF_MEMDIE *)
  thread_group : list task_ptr;  (* for_each_thread *)
  mm : option Z;
  signal : option Z
}.

Definition memory : Type := task_ptr -> task_struct.

Definition test_task_flag (m : memory) (p : task_ptr)
    (flag : task_struct -> bool) : bool :=
  existsb (fun t => flag (m t)) (thread_group (m p)).

Definition set_tsk_thread_flag_MEMDIE (m : memory) (p : task_ptr) : memory :=
  fun q =>
    if Nat.eqb q p then
      {| pid := pid (m q); comm := comm (m q); pf_kthread := pf_kthread (m q);
         tif_mm_released := tif_mm_released (m q); tif_memdie := true;
         thread_group := thread_group (m q); mm := mm (m q);
         signal := signal (m q) |}
    else m q.

(** [strstr(haystack, needle) != NULL] *)
Fixpoint strstr (haystack needle : string) : bool :=
  String.prefix needle haystack
  || match haystack with
     | EmptyString => false
     | String _ rest => strstr rest needle
     end.

(** What one call observes and does outside the driver. *)

Inductive event : Type :=
| mutex_lock_scan_mutex
| mutex_unlock_scan_mutex
| set_TIF_MEMDIE (p : task_ptr)
| send_sig_SIGKILL (p : task_ptr)
| schedule_work_dumpmem
| show_mem_dump_tasks.

(** [tune_lmk_param] walks the zone lists of the memory manager; the scan
    only uses the two numbers it leaves in [other_free] and [other_file], so
    the zone arithmetic is an input of the call.  [jiffies] is read once per
    call.  [scan_mem] is the task memory while the process list is walked,
    [kill_mem] the same memory when the window is walked afterwards, so that
    a task may have changed in between.  [kmalloc n] tells whether the
    allocation made for the [n]-th process of the walk succeeds. *)

Record invocation : Type := {
  jiffies : Z;
  lock_interrupted : bool;       (* mutex_lock_interruptible(&scan_mutex) < 0 *)
  current_pid : Z;
  vm : vm_counters;
  tune_lmk_param : Z * Z -> Z * Z;
  for_each_process : list task_ptr;
  find_lock_task_mm : task_ptr -> option task_ptr;
  kmalloc : nat -> bool;
  scan_mem : memory;
  kill_mem : memory
}.

(** ** Threshold resolution: the [for] loop over the table

    [n] counts the iterations still allowed, [i] is the loop index; the
    result is the pair of the locals [min_score_adj] and [minfree]. *)

Fixpoint threshold_loop (P : params) (other_free other_file : Z)
    (n : nat) (i : Z) (min_score_adj minfree : Z) : Z * Z :=
  match n with
  | O => (min_score_adj, minfree)
  | S n' =>
      let minfree := array_get (lowmem_minfree P) i in
      if (other_free <? minfree) && (other_file <? minfree)
      then (array_get (lowmem_adj P) i, minfree)
      else threshold_loop P other_free other_file n' (i + 1) min_score_adj minfree
  end.

Definition kill_nothing_sentinel `{kernel} : Z := to_short (OOM_SCORE_ADJ_MAX + 1).

Definition resolve_threshold `{kernel} (P : params) (other_free other_file : Z)
  : Z * Z :=
  threshold_loop P other_free other_file (Z.to_nat (clamp_array_size P)) 0
    kill_nothing_sentinel 0.

(** [other_free] and [other_file] as the scan computes them. *)
Definition estimate (inv : invocation) : Z * Z :=
  let nr_free_pages := to_int (NR_FREE_PAGES (vm inv)) in
  let nr_file_pages := to_int (NR_FILE_PAGES (vm inv)) in
  let nr_zcache_pages := to_int (zcache_pages (vm inv)) in
  let nr_shmem := to_int (NR_SHMEM (vm inv)) in
  let nr_swapcache_pages := to_int (total_swapcache_pages (vm inv)) in
  let other_free := nr_free_pages in
  let other_file :=
    if to_int (nr_shmem + nr_swapcache_pages)
       <? to_int (nr_file_pages + nr_zcache_pages)
    then to_int (to_int (to_int (nr_file_pages + nr_zcache_pages) - nr_shmem)
                 - nr_swapcache_pages)
    else 0 in
  tune_lmk_param inv (other_free, other_file).

(** The size of the candidate window. *)
Definition choose_nTaskMax (bIsAdapterLMK : bool) (min_score_adj : Z) : Z :=
  if bIsAdapterLMK then 2
  else if min_score_adj >=? 1000 then 1
  else if min_score_adj >=? 529 then 2
  else if min_score_adj >=? 300 then 4
  else if min_score_adj >=? 117 then 5
  else 6.

(** ** Candidate scanning and ranking *)

Record scan_state : Type := {
  ListHead : list task_ptr;      (* from ListHead.next to ListHead.prev *)
  nTaskNum : Z;
  meminfo_str_index : Z;
  scan_diag : diag_state
}.

(** The body of the search loop: does it [break] at a node whose task has
    score [nTargeteAdj] and size [nTargetSize]? *)
Definition search_breaks (bIsAdapterLMK : bool)
    (oom_score_adj tasksize nTargeteAdj nTargetSize : Z) : bool :=
  if negb bIsAdapterLMK then
    if oom_score_adj >? nTargeteAdj then false
    else if oom_score_adj <? nTargeteAdj then true
    else if tasksize >? nTargetSize then false
    else if tasksize <=? nTargetSize then true
    else false
  else tasksize <=? nTargetSize.

Definition nTargeteAdj_of (m : memory) (pTask : task_ptr) : Z :=
  match signal (m pTask) with Some a => a | None => 0 end.

Definition nTargetSize_of (m : memory) (pTask : task_ptr) : Z :=
  match mm (m pTask) with Some rss => to_int rss | None => 0 end.

(** Number of nodes the search loop steps over before it breaks; the length
    of the list when it runs to the end. *)
Fixpoint search_position (m : memory) (bIsAdapterLMK : bool)
    (oom_score_adj tasksize : Z) (l : list task_ptr) : nat :=
  match l with
  | [] => O
  | pTask :: rest =>
      if search_breaks bIsAdapterLMK oom_score_adj tasksize
           (nTargeteAdj_of m pTask) (nTargetSize_of m pTask)
      then O
      else S (search_position m bIsAdapterLMK oom_score_adj tasksize rest)
  end.

(** [list_add] of a new node in front of the node at index [k]. *)
Definition insert_before (k : nat) (p : task_ptr) (l : list task_ptr)
  : list task_ptr :=
  firstn k l ++ p :: skipn k l.

(** The ranking part of one iteration, for a candidate [p] that passed all
    filters.  The result is the window and [nTaskNum]. *)
Definition rank (m : memory) (bIsAdapterLMK : bool) (nTaskMax : Z)
    (kmalloc_ok : bool) (p : task_ptr) (oom_score_adj tasksize : Z)
    (l : list task_ptr) (nTaskNum : Z) : list task_ptr * Z :=
  if nTaskNum =? 0 then
    if kmalloc_ok then (p :: l, nTaskNum + 1) else (l, nTaskNum)
  else
    let k := search_position m bIsAdapterLMK oom_score_adj tasksize l in
    let pInsertPos : option nat :=
      if Nat.eqb k (List.length l) then Some k                  (* tail *)
      else if Nat.eqb k 0 then
        if nTaskNum <? nTaskMax then Some k else None      (* head *)
      else Some k in                                       (* body *)
    let '(l, nTaskNum) :=
      match pInsertPos with
      | Some k =>
          if kmalloc_ok then (insert_before k p l, nTaskNum + 1)
          else (l, nTaskNum)
      | None => (l, nTaskNum)
      end in
    if nTaskNum >? nTaskMax then (tl l, nTaskNum - 1) else (l, nTaskNum).

Definition exempted (name : string) (min_score_adj : Z) : bool :=
  (strstr name "launcher"%string && (min_score_adj >? 200))
  || (strstr name "auncher3:commo"%string && (min_score_adj >? 200))
  || (strstr name "process.acore"%string && (min_score_adj >? 200))
  || (strstr name "process.gapps"%string && (min_score_adj >? 200))
  || (strstr name "process.media"%string && (min_score_adj >? 200)).

(** One iteration of [for_each_process].  [None] is a dereference of a NULL
    [p->signal] or [p->mm], which the loop does not guard against.  The text
    written to [meminfo_str] and to the log is left out. *)
Definition scan_step `{kernel} (inv : invocation)
    (min_score_adj selected_oom_score_adj : Z) (bIsAdapterLMK : bool)
    (nTaskMax : Z) (n : nat) (tsk : task_ptr) (s : scan_state)
  : option scan_state :=
  let m := scan_mem inv in
  if pf_kthread (m tsk) then Some s
  else if test_task_flag m tsk tif_mm_released then Some s
  else if test_task_flag m tsk tif_memdie then Some s
  else
    match find_lock_task_mm inv tsk with
    | None => Some s
    | Some p =>
        match signal (m p), mm (m p) with
        | Some oom_score_adj, Some rss =>
            let idx := meminfo_str_index s in
            let idx :=
              if selected_oom_score_adj <? MINFREE_TO_PRINT_LOG then
                (if idx >=? ASUS_MEMORY_DEBUG_MAXCOUNT
                 then ASUS_MEMORY_DEBUG_MAXCOUNT - 1 else idx) + 1
              else idx in
            let d := scan_diag s in
            let d :=
              if to_ulong (dumppid_tasksize d) <? rss
              then set_dumppid (pid (m p)) (set_dumppid_tasksize (to_int rss) d)
              else d in
            let d :=
              if (to_ulong (rss * PAGE_SIZE) / 1048576 >? 600)
                 && strstr (comm (m p)) "system_server"%string
              then set_dumppid (pid (m p)) (set_trigger_dump_mem true d)
              else d in
            let s1 := {| ListHead := ListHead s; nTaskNum := nTaskNum s;
                         meminfo_str_index := idx; scan_diag := d |} in
            if exempted (comm (m p)) min_score_adj then Some s1
            else if oom_score_adj <? min_score_adj then Some s1
            else
              let tasksize := to_int rss in
              if tasksize <=? 0 then Some s1
              else
                let '(l, num) :=
                  rank m bIsAdapterLMK nTaskMax (kmalloc inv n) p
                    oom_score_adj tasksize (ListHead s) (nTaskNum s) in
                Some {| ListHead := l; nTaskNum := num;
                        meminfo_str_index := idx; scan_diag := d |}
        | _, _ => None
        end
    end.

(** The walk over the process list; [n] numbers the processes. *)
Fixpoint scan_loop `{kernel} (inv : invocation)
    (min_score_adj selected_oom_score_adj : Z) (bIsAdapterLMK : bool)
    (nTaskMax : Z) (n : nat) (tasks : list task_ptr) (s : scan_state)
  : option scan_state :=
  match tasks with
  | [] => Some s
  | tsk :: rest =>
      match scan_step inv min_score_adj selected_oom_score_adj
              bIsAdapterLMK nTaskMax n tsk s with
      | None => None
      | Some s' =>
          scan_loop inv min_score_adj selected_oom_score_adj
            bIsAdapterLMK nTaskMax (S n) rest s'
      end
  end.

(** ** The victim terminator *)

Record kill_state : Type := {
  selected : option task_ptr;
  selected_oom_score_adj : Z;
  selected_tasksize : Z;
  rem : Z;
  globals : lmk_state;
  tasks_now : memory;
  trace : list event             (* oldest first *)
}.

(** [selected_tasksize * ((long)PAGE_SIZE / 1024) < (long)(80 * 1024)] *)
Definition below_80MB `{kernel} (selected_tasksize : Z) : bool :=
  to_long (selected_tasksize * Z.quot (to_long PAGE_SIZE) 1024)
  <? to_long (80 * 1024).

(** The statements from [killNothing = 0] to [lowmem_kill_count++]. *)
Definition kill `{kernel} (inv : invocation) (min_score_adj nTaskMax : Z)
    (pTask : task_ptr) (k : kill_state) : kill_state :=
  let g := globals k in
  let d :=
    if (selected_oom_score_adj k <? 100)
       && negb (trigger_dumpsys_meminfo (diag g))
    then set_trigger_dumpsys_meminfo true (diag g) else diag g in
  let t :=
    {| lowmem_killNothing_timeout := lowmem_killNothing_timeout (throttle g);
       lowmem_justkilled_timeout :=
         to_ulong (jiffies inv + to_int (Z.quot HZ nTaskMax));
       killNothing := 0;
       killNothing_adj := 2000;
       justkilled_adj := min_score_adj |} in
  {| selected := selected k;
     selected_oom_score_adj := selected_oom_score_adj k;
     selected_tasksize := selected_tasksize k;
     rem := to_ulong (rem k + selected_tasksize k);
     globals :=
       {| throttle := t; shift_adj := shift_adj g; diag := d;
          stats := incr_kill_count (stats g) |};
     tasks_now := set_tsk_thread_flag_MEMDIE (tasks_now k) pTask;
     trace := trace k ++ [set_TIF_MEMDIE pTask; send_sig_SIGKILL pTask] |}.

(** One iteration of the reverse walk over the window. *)
Definition terminate_step `{kernel} (inv : invocation) (min_score_adj : Z)
    (bIsAdapterLMK : bool) (nTaskMax : Z) (pTask : task_ptr) (k : kill_state)
  : kill_state :=
  let t := tasks_now k pTask in
  let k1 :=
    {| selected := Some pTask;
       selected_oom_score_adj := selected_oom_score_adj k;
       selected_tasksize := selected_tasksize k; rem := rem k;
       globals := globals k; tasks_now := tasks_now k; trace := trace k |} in
  if tif_memdie t then k1
  else
    let adj :=
      match signal t with Some a => a | None => selected_oom_score_adj k end in
    let k2 :=
      {| selected := Some pTask; selected_oom_score_adj := adj;
         selected_tasksize := selected_tasksize k; rem := rem k;
         globals := globals k; tasks_now := tasks_now k; trace := trace k |} in
    if adj <? min_score_adj then k2
    else if pid t =? current_pid inv then k2
    else
      let size :=
        match mm t with Some rss => to_int rss | None => selected_tasksize k end in
      let k3 :=
        {| selected := Some pTask; selected_oom_score_adj := adj;
           selected_tasksize := size; rem := rem k;
           globals := globals k; tasks_now := tasks_now k; trace := trace k |} in
      if bIsAdapterLMK && below_80MB size then k3
      else kill inv min_score_adj nTaskMax pTask k3.

(** [list_for_each_entry_safe_reverse]: the argument is the window read from
    [ListHead.prev] back to [ListHead.next]. *)
Fixpoint terminate_loop `{kernel} (inv : invocation) (min_score_adj : Z)
    (bIsAdapterLMK : bool) (nTaskMax : Z) (reversed : list task_ptr)
    (k : kill_state) : kill_state :=
  match reversed with
  | [] => k
  | pTask :: rest =>
      terminate_loop inv min_score_adj bIsAdapterLMK nTaskMax rest
        (terminate_step inv min_score_adj bIsAdapterLMK nTaskMax pTask k)
  end.

(** What follows the walk, down to [return rem]. *)
Definition epilogue `{kernel} (inv : invocation) (min_score_adj : Z)
    (k : kill_state) : lmk_state * list event :=
  let g := globals k in
  let d := set_print_log_flag false (diag g) in
  let '(d, tr) :=
    if time_after (jiffies inv) (dumpmem_time_out d) && trigger_dump_mem d
    then (set_trigger_dump_mem false
            (set_dumpmem_time_out
               (to_ulong (jiffies inv + to_int (HZ * 120))) d),
          trace k ++ [schedule_work_dumpmem])
    else (d, trace k) in
  let d :=
    match selected k with
    | Some _ =>
        if (selected_oom_score_adj k <? MINFREE_TO_PRINT_LOG)
           && time_after (jiffies inv) (time_out d)
        then set_time_out (to_ulong (jiffies inv + to_int (HZ * 10))) d
        else d
    | None => d
    end in
  let '(d, tr) :=
    if trigger_dumpsys_meminfo d
       && time_after (jiffies inv) (trigger_dumpsys_meminfo_time d)
    then (set_trigger_dumpsys_meminfo_time
            (to_ulong (jiffies inv + to_int (60 * HZ)))
            (set_trigger_dumpsys_meminfo false d),
          tr ++ [schedule_work_dumpmem])
    else (d, tr) in
  let tr :=
    if selected_oom_score_adj k =? 0 then tr ++ [show_mem_dump_tasks] else tr in
  let t := throttle g in
  let t :=
    if negb (killNothing t =? 0) then
      {| lowmem_killNothing_timeout := to_ulong (jiffies inv + to_int (2 * HZ));
         lowmem_justkilled_timeout := lowmem_justkilled_timeout t;
         killNothing := killNothing t;
         killNothing_adj := min_score_adj;
         justkilled_adj := justkilled_adj t |}
    else t in
  ({| throttle := t; shift_adj := shift_adj g; diag := d; stats := stats g |},
   tr).

(** ** The reclaim entry point *)

Record scan_result : Type := {
  reclaimed : Z;                 (* the return value *)
  state_after : lmk_state;
  tasks_after : memory;
  events : list event
}.

(** The locals fixed before the gates: [other_free], [other_file],
    [min_score_adj] before and after the clamp, [ret], and the value the
    clamp leaves in [shift_adj]. *)
Definition resolved_min_score_adj `{kernel} (P : params) (inv : invocation) : Z :=
  let '(other_free, other_file) := estimate inv in
  fst (resolve_threshold P other_free other_file).

Definition clamped_min_score_adj `{kernel} (P : params) (st : lmk_state)
    (inv : invocation) : Z :=
  snd (fst (adjust_minadj P (shift_adj st) (resolved_min_score_adj P inv))).

(** Past the three early exits: the walk over the processes, the walk over
    the window and the epilogue.  [st] already holds the incremented scan
    count and the [shift_adj] left by the clamp. *)
Definition scan_and_kill `{kernel} (st : lmk_state) (inv : invocation)
    (min_score_adj : Z) (bIsAdapterLMK : bool) : option scan_result :=
  (* selected_oom_score_adj = min_score_adj, passed on below *)
  let d := diag st in
  let d :=
    if time_after (jiffies inv) (print_log_time_out d)
    then set_print_log_time_out
           (to_ulong (jiffies inv + to_int (HZ * 10)))
           (set_print_log_flag true d)
    else d in
  let nTaskMax := choose_nTaskMax bIsAdapterLMK min_score_adj in
  match scan_loop inv min_score_adj min_score_adj bIsAdapterLMK
          nTaskMax 0 (for_each_process inv)
          {| ListHead := []; nTaskNum := 0; meminfo_str_index := 0;
             scan_diag := d |} with
  | None => None
  | Some s =>
      let t := throttle st in
      let st :=
        {| throttle :=
             {| lowmem_killNothing_timeout := lowmem_killNothing_timeout t;
                lowmem_justkilled_timeout := lowmem_justkilled_timeout t;
                killNothing := 1;
                killNothing_adj := killNothing_adj t;
                justkilled_adj := justkilled_adj t |};
           shift_adj := shift_adj st; diag := scan_diag s;
           stats := stats st |} in
      let k :=
        terminate_loop inv min_score_adj bIsAdapterLMK nTaskMax
          (rev (ListHead s))
          {| selected := None;
             selected_oom_score_adj := min_score_adj;
             selected_tasksize := 0; rem := 0; globals := st;
             tasks_now := kill_mem inv;
             trace := [mutex_lock_scan_mutex] |} in
      let k :=
        {| selected := selected k;
           selected_oom_score_adj := selected_oom_score_adj k;
           selected_tasksize := selected_tasksize k; rem := rem k;
           globals := globals k; tasks_now := tasks_now k;
           trace := trace k ++ [mutex_unlock_scan_mutex] |} in
      let '(st, tr) := epilogue inv min_score_adj k in
      Some {| reclaimed := rem k; state_after := st;
              tasks_after := tasks_now k; events := tr |}
  end.

Definition lowmem_scan `{kernel} (P : params) (st : lmk_state)
    (inv : invocation) : option scan_result :=
  let st := with_diag (set_dumppid 0 (set_dumppid_tasksize 0 (diag st))) st in
  if lock_interrupted inv then
    Some {| reclaimed := 0; state_after := st; tasks_after := kill_mem inv;
            events := [] |}
  else
    let st := with_stats (incr_scan_count (stats st)) st in
    let '(other_free, other_file) := estimate inv in
    let '(min_score_adj, minfree) := resolve_threshold P other_free other_file in
    let previous_min_score_adj := min_score_adj in
    let '(ret, min_score_adj, shift) :=
      adjust_minadj P (shift_adj st) min_score_adj in
    let st := with_shift_adj shift st in
    let bIsAdapterLMK := negb (previous_min_score_adj =? min_score_adj) in
    if (min_score_adj >=? justkilled_adj (throttle st))
       && time_before_eq (jiffies inv) (lowmem_justkilled_timeout (throttle st))
    then
      Some {| reclaimed := 0;
              state_after := with_stats (incr_escape1_count (stats st)) st;
              tasks_after := kill_mem inv;
              events := [mutex_lock_scan_mutex; mutex_unlock_scan_mutex] |}
    else if (min_score_adj >=? killNothing_adj (throttle st))
            && time_before_eq (jiffies inv)
                 (lowmem_killNothing_timeout (throttle st))
    then
      Some {| reclaimed := 0;
              state_after := with_stats (incr_escape2_count (stats st)) st;
              tasks_after := kill_mem inv;
              events := [mutex_lock_scan_mutex; mutex_unlock_scan_mutex] |}
    else if min_score_adj =? OOM_SCORE_ADJ_MAX + 1 then
      Some {| reclaimed := 0;
              state_after := with_stats (incr_escape3_count (stats st)) st;
              tasks_after := kill_mem inv;
              events := [mutex_lock_scan_mutex; mutex_unlock_scan_mutex] |}
    else scan_and_kill st inv min_score_adj bIsAdapterLMK.

(** ** Vocabulary of the properties *)

Section Vocabulary.
Context {K : kernel}.

Definition clamp_armed (P : params) (shift score : Z) : bool :=
  negb (enable_adaptive_lmk P =? 0) && negb (shift =? 0)
  && (score >? adj_max_shift).

(** file + zcache - shmem - swapcache *)
Definition file_backed_pages (c : vm_counters) : Z :=
  NR_FILE_PAGES c + zcache_pages c - NR_SHMEM c - total_swapcache_pages c.

(** Entry [i] of the table exceeds both estimates. *)
Definition entry_matches (P : params) (other_free other_file i : Z) : bool :=
  (other_free <? array_get (lowmem_minfree P) i)
  && (other_file <? array_get (lowmem_minfree P) i).

(** The statics when the gates are evaluated: [dumppid] and
    [dumppid_tasksize] reset, the scan counted, [shift_adj] as the clamp
    leaves it. *)
Definition state_at_gates (P : params) (st : lmk_state) (inv : invocation)
  : lmk_state :=
  with_shift_adj
    (snd (adjust_minadj P (shift_adj st) (resolved_min_score_adj P inv)))
    (with_stats (incr_scan_count (stats st))
       (with_diag (set_dumppid 0 (set_dumppid_tasksize 0 (diag st))) st)).

Definition post_kill_gate (P : params) (st : lmk_state) (inv : invocation)
  : bool :=
  (clamped_min_score_adj P st inv >=? justkilled_adj (throttle st))
  && time_before_eq (jiffies inv) (lowmem_justkilled_timeout (throttle st)).

Definition kill_nothing_gate (P : params) (st : lmk_state) (inv : invocation)
  : bool :=
  (clamped_min_score_adj P st inv >=? killNothing_adj (throttle st))
  && time_before_eq (jiffies inv) (lowmem_killNothing_timeout (throttle st)).

Definition exits_early (P : params) (st : lmk_state) (inv : invocation)
  : bool :=
  lock_interrupted inv
  || post_kill_gate P st inv
  || kill_nothing_gate P st inv
  || (clamped_min_score_adj P st inv =? OOM_SCORE_ADJ_MAX + 1).

(** The same call in front of another process list and task memory. *)
Definition with_processes (inv : invocation) (procs : list task_ptr)
    (lock_mm : task_ptr -> option task_ptr) (alloc : nat -> bool)
    (m : memory) : invocation :=
  {| jiffies := jiffies inv; lock_interrupted := lock_interrupted inv;
     current_pid := current_pid inv; vm := vm inv;
     tune_lmk_param := tune_lmk_param inv;
     for_each_process := procs; find_lock_task_mm := lock_mm;
     kmalloc := alloc; scan_mem := m; kill_mem := kill_mem inv |}.

Definition skipped (st : lmk_state) (inv : invocation) : scan_result :=
  {| reclaimed := 0; state_after := st; tasks_after := kill_mem inv;
     events := [mutex_lock_scan_mutex; mutex_unlock_scan_mutex] |}.

(** [nTaskNum] counts the nodes of the window and stays within [nTaskMax]. *)
Definition window_ok (nTaskMax : Z) (s : scan_state) : Prop :=
  Z.of_nat (List.length (ListHead s)) = nTaskNum s /\ nTaskNum s <= nTaskMax.

Definition empty_window (d : diag_state) : scan_state :=
  {| ListHead := []; nTaskNum := 0; meminfo_str_index := 0; scan_diag := d |}.

(** The two pointers the loop dereferences without a test are not NULL. *)
Definition derefs_ok (inv : invocation) (tsk : task_ptr) : Prop :=
  forall p, find_lock_task_mm inv tsk = Some p ->
            signal (scan_mem inv p) <> None /\ mm (scan_mem inv p) <> None.


(** Task [p] was marked dying or sent SIGKILL. *)
Definition killed (p : task_ptr) (tr : list event) : Prop :=
  In (set_TIF_MEMDIE p) tr \/ In (send_sig_SIGKILL p) tr.

(** The candidate passes the four tests of the walk over the window. *)
Definition accepted (inv : invocation) (min_score_adj : Z)
    (bIsAdapterLMK : bool) (pTask : task_ptr) (k : kill_state) : bool :=
  let t := tasks_now k pTask in
  let adj :=
    match signal t with Some a => a | None => selected_oom_score_adj k end in
  let size :=
    match mm t with Some rss => to_int rss | None => selected_tasksize k end in
  negb (tif_memdie t) && negb (adj <? min_score_adj)
  && negb (pid t =? current_pid inv)
  && negb (bIsAdapterLMK && below_80MB size).

(** What the walk over the window keeps true. *)
Definition kills_above (inv : invocation) (score : Z) (k : kill_state) : Prop :=
  (forall q, signal (tasks_now k q) = signal (kill_mem inv q))
  /\ (forall p adj,
         killed p (trace k) -> signal (kill_mem inv p) = Some adj ->
         score <= adj).

End Vocabulary.

(** ** A concrete kernel and a few tasks, for running the model

    [CONFIG_HZ = 100], 4 KiB pages, [OOM_SCORE_ADJ_MAX = 1000], and the two
    jiffies comparisons on the signed difference of the counters. *)

Definition msm8953 : kernel :=
  {| HZ := 100;
     PAGE_SIZE := 4096;
     OOM_SCORE_ADJ_MAX := 1000;
     time_after := fun a b => to_long (b - a) <? 0;
     time_before_eq := fun a b => to_long (b - a) >=? 0;
     sentinel_is_short := ltac:(lia) |}.

(** A single-threaded user process at address [p]. *)
Definition user_task (p : task_ptr) (id : Z) (name : string)
    (oom_score_adj rss : Z) : task_struct :=
  {| pid := id; comm := name; pf_kthread := false; tif_mm_released := false;
     tif_memdie := false; thread_group := [p]; mm := Some rss;
     signal := Some oom_score_adj |}.

Definition idle_task : task_struct :=
  {| pid := 0; comm := "swapper"; pf_kthread := true; tif_mm_released := false;
     tif_memdie := false; thread_group := [O]; mm := None; signal := Some 0 |}.

(** Memory holding the listed tasks at addresses 1, 2, ...; the idle task
    everywhere else. *)
Definition memory_of (l : list task_struct) : memory :=
  fun p => match p with O => idle_task | S n => nth n l idle_task end.

Definition first_thread_with_mm (m : memory) (p : task_ptr) : option task_ptr :=
  find (fun t => match mm (m t) with Some _ => true | None => false end)
       (thread_group (m p)).

Definition is_kill (e : event) : bool :=
  match e with
  | set_TIF_MEMDIE _ | send_sig_SIGKILL _ => true
  | _ => false
  end.

(** The default table with the adaptive feature switched on. *)
Definition adaptive_params : params :=
  {| lowmem_adj := [0; 1; 6; 12; 0; 0];
     lowmem_adj_size := 4;
     lowmem_minfree := [3 * 512; 2 * 1024; 4 * 1024; 16 * 1024; 0; 0];
     lowmem_minfree_size := 4;
     enable_adaptive_lmk := 1;
     vmpressure_file_min := 20000 |}.

(** Two background processes of score 900: 500 MB at address 1 and 50 MB at
    address 2, in 4 KiB pages. *)
Definition big_and_small : memory :=
  memory_of [user_task 1%nat 101 "bg.big" 900 128000;
             user_task 2%nat 102 "bg.small" 900 12800].

(** A call by process 55 at time [now], with [free] free pages and [file]
    file pages, no zone correction, and allocations that succeed; the tasks
    do not change between the scan and the kills. *)
Definition call (now : Z) (interrupted : bool) (free file : Z)
    (procs : list task_ptr) (m : memory) : invocation :=
  {| jiffies := now; lock_interrupted := interrupted; current_pid := 55;
     vm := {| NR_FREE_PAGES := free; NR_FILE_PAGES := file; NR_SHMEM := 0;
              zcache_pages := 0; total_swapcache_pages := 0 |};
     tune_lmk_param := fun x => x;
     for_each_process := procs;
     find_lock_task_mm := first_thread_with_mm m;
     kmalloc := fun _ => true;
     scan_mem := m; kill_mem := m |}.

(** The statics after a kill at score [adj] with deadline [deadline]. *)
Definition just_killed (adj deadline : Z) : lmk_state :=
  with_throttle
    {| lowmem_killNothing_timeout := 0;
       lowmem_justkilled_timeout := deadline;
       killNothing := 0;
       killNothing_adj := 2000;
       justkilled_adj := adj |}
    initial_state.

(** The same two with a foreground process of score 0 at address 3. *)
Definition with_foreground : memory :=
  memory_of [user_task 1%nat 101 "bg.big" 900 128000;
             user_task 2%nat 102 "bg.small" 900 12800;
             user_task 3%nat 103 "fg" 0 3000].

(** The locals of the terminator before its first iteration. *)
Definition fresh_kill_state (min_score_adj : Z) (st : lmk_state) (m : memory)
  : kill_state :=
  {| selected := None; selected_oom_score_adj := min_score_adj;
     selected_tasksize := 0; rem := 0; globals := st; tasks_now := m;
     trace := [mutex_lock_scan_mutex] |}.

(** Sample calls at tick 5000000000: memory low enough for the last table
    entry, the same with the wait for the mutex interrupted, the same with
    the foreground process present, and memory above every table entry. *)
Definition low_memory_call : invocation :=
  call 5000000000 false 3000 5000 [1; 2]%nat big_and_small.
Definition interrupted_call : invocation :=
  call 5000000000 true 3000 5000 [1; 2]%nat big_and_small.
Definition low_memory_call_fg : invocation :=
  call 5000000000 false 3000 5000 [1; 2; 3]%nat with_foreground.
Definition ample_memory_call : invocation :=
  call 5000000000 false 30000 18000 [1; 2]%nat big_and_small.

Definition scarce_counters : vm_counters :=
  {| NR_FREE_PAGES := 1000; NR_FILE_PAGES := 2000; NR_SHMEM := 100;
     zcache_pages := 50; total_swapcache_pages := 10 |}.

(** The statics inside the post-kill window of a kill at score 12, the same
    with the shift flag armed, and the statics once that window is over. *)
Definition cooling_down : lmk_state := just_killed 12 5000000016.
Definition cooling_down_armed : lmk_state := with_shift_adj 1 cooling_down.
Definition cooled_down : lmk_state := just_killed 12 4999999999.
Definition armed : lmk_state := with_shift_adj 1 initial_state.

(** The adaptive table with only two of its four adj entries in use, and
    counters with 3000 free and 5000 file-backed pages. *)
Definition short_adj_params : params :=
  {| lowmem_adj := [0; 1; 6; 12; 0; 0];
     lowmem_adj_size := 2;
     lowmem_minfree := [3 * 512; 2 * 1024; 4 * 1024; 16 * 1024; 0; 0];
     lowmem_minfree_size := 4;
     enable_adaptive_lmk := 1;
     vmpressure_file_min := 20000 |}.

Definition low_counters : vm_counters :=
  {| NR_FREE_PAGES := 3000; NR_FILE_PAGES := 5000; NR_SHMEM := 0;
     zcache_pages := 0; total_swapcache_pages := 0 |}.



(** ** Vocabulary of the further properties *)

Section FurtherVocabulary.
Context {K : kernel}.

Definition is_sigkill (e : event) : bool :=
  match e with send_sig_SIGKILL _ => true | _ => false end.

Definition is_sigkill_of (p : task_ptr) (e : event) : bool :=
  match e with send_sig_SIGKILL q => Nat.eqb q p | _ => false end.

(** Number of SIGKILLs in a trace, and of those sent to [p]. *)
Definition kills (tr : list event) : nat := List.length (filter is_sigkill tr).
Definition kills_of (p : task_ptr) (tr : list event) : nat :=
  List.length (filter (is_sigkill_of p) tr).

(** [t] with TIF_MEMDIE set. *)
Definition marked (t : task_struct) : task_struct :=
  {| pid := pid t; comm := comm t; pf_kthread := pf_kthread t;
     tif_mm_released := tif_mm_released t; tif_memdie := true;
     thread_group := thread_group t; mm := mm t; signal := signal t |}.

(** [print_log_flag] and [print_log_time_out] as set before the walk over
    the processes. *)
Definition diag_before_walk (inv : invocation) (st : lmk_state) : diag_state :=
  if time_after (jiffies inv) (print_log_time_out (diag st))
  then set_print_log_time_out (to_ulong (jiffies inv + to_int (HZ * 10)))
         (set_print_log_flag true (diag st))
  else diag st.

(** The window a call past the early exits builds. *)
Definition window_of_call (st : lmk_state) (inv : invocation) (score : Z)
    (b : bool) : option scan_state :=
  scan_loop inv score score b (choose_nTaskMax b score) 0
    (for_each_process inv) (empty_window (diag_before_walk inv st)).

(** The statics when the walk over the window starts. *)
Definition state_after_walk (st : lmk_state) (s : scan_state) : lmk_state :=
  {| throttle :=
       {| lowmem_killNothing_timeout := lowmem_killNothing_timeout (throttle st);
          lowmem_justkilled_timeout := lowmem_justkilled_timeout (throttle st);
          killNothing := 1;
          killNothing_adj := killNothing_adj (throttle st);
          justkilled_adj := justkilled_adj (throttle st) |};
     shift_adj := shift_adj st; diag := scan_diag s; stats := stats st |}.

(** The locals and statics when the walk over the window ends. *)
Definition after_kills (st : lmk_state) (inv : invocation) (score : Z)
    (b : bool) (s : scan_state) : kill_state :=
  terminate_loop inv score b (choose_nTaskMax b score) (rev (ListHead s))
    (fresh_kill_state score (state_after_walk st s) (kill_mem inv)).

(** The throttle variables a kill leaves, and those a pass without any kill
    leaves. *)
Definition throttle_after_kill (inv : invocation) (score nTaskMax : Z)
    (t : throttle_state) : throttle_state :=
  {| lowmem_killNothing_timeout := lowmem_killNothing_timeout t;
     lowmem_justkilled_timeout :=
       to_ulong (jiffies inv + to_int (Z.quot HZ nTaskMax));
     killNothing := 0;
     killNothing_adj := 2000;
     justkilled_adj := score |}.

Definition throttle_after_no_kill (inv : invocation) (score : Z)
    (t : throttle_state) : throttle_state :=
  {| lowmem_killNothing_timeout := to_ulong (jiffies inv + to_int (2 * HZ));
     lowmem_justkilled_timeout := lowmem_justkilled_timeout t;
     killNothing := 1;
     killNothing_adj := score;
     justkilled_adj := justkilled_adj t |}.

(** [p] is what [find_lock_task_mm] gave for a process of the list that
    passed every filter of the walk. *)
Definition candidate (inv : invocation) (score : Z) (p : task_ptr) : Prop :=
  exists tsk adj rss,
    In tsk (for_each_process inv)
    /\ pf_kthread (scan_mem inv tsk) = false
    /\ test_task_flag (scan_mem inv) tsk tif_mm_released = false
    /\ test_task_flag (scan_mem inv) tsk tif_memdie = false
    /\ find_lock_task_mm inv tsk = Some p
    /\ signal (scan_mem inv p) = Some adj
    /\ mm (scan_mem inv p) = Some rss
    /\ exempted (comm (scan_mem inv p)) score = false
    /\ score <= adj
    /\ 0 < to_int rss.

End FurtherVocabulary.

Section WalkInvariants.
Context {K : kernel}.

(** What the walk over the window keeps true of the task memory and of the
    tasks it killed; [done] are the window entries visited so far. *)
Definition walk_memory_inv (inv : invocation) (b : bool)
    (done : list task_ptr) (k : kill_state) : Prop :=
  (forall q, killed q (trace k) -> In (send_sig_SIGKILL q) (trace k))
  /\ (forall q, killed q (trace k) -> tasks_now k q = marked (kill_mem inv q))
  /\ (forall q, ~ killed q (trace k) -> tasks_now k q = kill_mem inv q)
  /\ (forall q,
         killed q (trace k) ->
         In q done
         /\ tif_memdie (kill_mem inv q) = false
         /\ pid (kill_mem inv q) <> current_pid inv
         /\ (b = true ->
             forall rss, mm (kill_mem inv q) = Some rss ->
                         below_80MB (to_int rss) = false)).

Definition walk_count_inv (done : list task_ptr) (k : kill_state) : Prop :=
  (forall q, (kills_of q (trace k) <= 1)%nat)
  /\ (kills (trace k) <= List.length done)%nat.

(** What the walk keeps true of the statics; [st0] are the statics when the
    walk starts. *)
Definition walk_state_inv (inv : invocation) (score nTaskMax : Z)
    (st0 : lmk_state) (k : kill_state) : Prop :=
  shift_adj (globals k) = shift_adj st0
  /\ lowmem_scan_count (stats (globals k)) = lowmem_scan_count (stats st0)
  /\ lowmem_escape1_count (stats (globals k)) = lowmem_escape1_count (stats st0)
  /\ lowmem_escape2_count (stats (globals k)) = lowmem_escape2_count (stats st0)
  /\ lowmem_escape3_count (stats (globals k)) = lowmem_escape3_count (stats st0)
  /\ (kills (trace k) = 0%nat ->
      globals k = st0 /\ rem k = 0 /\ tasks_now k = kill_mem inv)
  /\ ((0 < kills (trace k))%nat ->
      throttle (globals k)
      = throttle_after_kill inv score nTaskMax (throttle st0)
      /\ lowmem_kill_count (stats (globals k))
         = to_ulong (lowmem_kill_count (stats st0)
                     + Z.of_nat (kills (trace k)))).

End WalkInvariants.

Section CallVocabulary.
Context {K : kernel}.

(** [bIsAdapterLMK] and [nTaskMax] of a call. *)
Definition is_adaptive (P : params) (st : lmk_state) (inv : invocation) : bool :=
  negb (resolved_min_score_adj P inv =? clamped_min_score_adj P st inv).

Definition nTaskMax_of_call (P : params) (st : lmk_state) (inv : invocation)
  : Z :=
  choose_nTaskMax (is_adaptive P st inv) (clamped_min_score_adj P st inv).

End CallVocabulary.

(** Further sample calls: only the foreground process of score 0 in the
    list, and the low-memory call ten ticks later. *)
Definition foreground_only_call : invocation :=
  call 5000000000 false 3000 5000 [3]%nat with_foreground.
Definition low_memory_call_later : invocation :=
  call 5000000010 false 3000 5000 [1; 2]%nat big_and_small.

Section RankingVocabulary.

(** The score and the size the search loop reads for a node, and the order
    the loop compares them in outside adaptive mode: by score, then by
    size. *)
Definition rank_key (m : memory) (pTask : task_ptr) : Z * Z :=
  (nTargeteAdj_of m pTask, nTargetSize_of m pTask).

Definition key_le (a b : Z * Z) : Prop :=
  fst a < fst b \/ (fst a = fst b /\ snd a <= snd b).

Definition key_ge (a b : Z * Z) : Prop := key_le b a.

Definition window_keys (m : memory) (l : list task_ptr) : list (Z * Z) :=
  map (rank_key m) l.

End RankingVocabulary.

(** ** Detection of oom_adj values in the adj parameter

    Built with CONFIG_ANDROID_LOW_MEMORY_KILLER_AUTODETECT_OOM_ADJ_VALUES.
    [OOM_ADJUST_MAX] and [OOM_DISABLE] come from linux/oom.h like
    [OOM_SCORE_ADJ_MAX]. *)

Class oom_abi : Type := {
  OOM_ADJUST_MAX : Z;
  OOM_DISABLE : Z
}.

Section Autodetect.
Context {K : kernel} {A : oom_abi}.

Definition lowmem_oom_adj_to_oom_score_adj (oom_adj : Z) : Z :=
  if oom_adj =? OOM_ADJUST_MAX then to_short OOM_SCORE_ADJ_MAX
  else to_short (to_int (Z.quot (to_int (oom_adj * OOM_SCORE_ADJ_MAX))
                                (to_int (- OOM_DISABLE)))).

(** [a[i] = v] for an index inside the array *)
Fixpoint array_set (a : list Z) (i : nat) (v : Z) : list Z :=
  match a, i with
  | [], _ => []
  | _ :: rest, O => v :: rest
  | x :: rest, S i' => x :: array_set rest i' v
  end.

(** The conversion loop: [n] iterations left, [i] the loop index. *)
Fixpoint autodetect_loop (n : nat) (i : Z) (a : list Z) : list Z :=
  match n with
  | O => a
  | S n' =>
      let oom_adj := array_get a i in
      let oom_score_adj := lowmem_oom_adj_to_oom_score_adj oom_adj in
      autodetect_loop n' (i + 1) (array_set a (Z.to_nat i) oom_score_adj)
  end.

Definition with_lowmem_adj (a : list Z) (P : params) : params :=
  {| lowmem_adj := a; lowmem_adj_size := lowmem_adj_size P;
     lowmem_minfree := lowmem_minfree P;
     lowmem_minfree_size := lowmem_minfree_size P;
     enable_adaptive_lmk := enable_adaptive_lmk P;
     vmpressure_file_min := vmpressure_file_min P |}.

Definition lowmem_autodetect_oom_adj_values (P : params) : params :=
  let array_size := ARRAY_SIZE_lowmem_adj in
  let array_size :=
    if lowmem_adj_size P <? array_size then lowmem_adj_size P else array_size in
  if array_size <=? 0 then P
  else
    let oom_adj := array_get (lowmem_adj P) (array_size - 1) in
    if oom_adj >? OOM_ADJUST_MAX then P
    else
      let oom_score_adj := lowmem_oom_adj_to_oom_score_adj oom_adj in
      if oom_score_adj <=? OOM_ADJUST_MAX then P
      else
        with_lowmem_adj
          (autodetect_loop (Z.to_nat array_size) 0 (lowmem_adj P)) P.

(** [param_array_ops.set] parses the text written to the parameter; it is
    given here by its effect on the parameters and its return value. *)
Definition lowmem_adj_array_set (set : params -> Z * params) (P : params)
  : Z * params :=
  let '(ret, P') := set P in
  (ret, lowmem_autodetect_oom_adj_values P').

(** Number of entries of [lowmem_adj] the detection looks at. *)
Definition adj_in_use (P : params) : Z :=
  if lowmem_adj_size P <? ARRAY_SIZE_lowmem_adj then lowmem_adj_size P
  else ARRAY_SIZE_lowmem_adj.

(** The three tests that let the conversion run. *)
Definition converts (P : params) : bool :=
  (0 <? adj_in_use P)
  && (array_get (lowmem_adj P) (adj_in_use P - 1) <=? OOM_ADJUST_MAX)
  && (lowmem_oom_adj_to_oom_score_adj
        (array_get (lowmem_adj P) (adj_in_use P - 1)) >? OOM_ADJUST_MAX).

(** The relations between the three constants of linux/oom.h that the
    arithmetic of the conversion relies on. *)
Definition oom_abi_ok : Prop :=
  0 < OOM_ADJUST_MAX <= - OOM_DISABLE
  /\ 0 <= OOM_SCORE_ADJ_MAX
  /\ - OOM_DISABLE * OOM_SCORE_ADJ_MAX < 2 ^ 31
  /\ OOM_ADJUST_MAX < Z.quot OOM_SCORE_ADJ_MAX (- OOM_DISABLE).

End Autodetect.

(** The values of linux/oom.h. *)
Definition linux_oom : oom_abi := {| OOM_ADJUST_MAX := 15; OOM_DISABLE := -17 |}.

(** The table of the header comment, in oom_adj units. *)
Definition oom_adj_params : params :=
  {| lowmem_adj := [0; 1; 6; 12; 0; 0];
     lowmem_adj_size := 4;
     lowmem_minfree := [3 * 512; 2 * 1024; 4 * 1024; 16 * 1024; 0; 0];
     lowmem_minfree_size := 4;
     enable_adaptive_lmk := 0;
     vmpressure_file_min := 0 |}.

(** ** The estimator

    [tune_lmk_zone_param], [tune_lmk_param] and [can_use_cma_pages], for a
    build without CONFIG_HIGHMEM ([adjust_gfp_mask] is empty and [_ZONE] is
    [ZONE_NORMAL]).  The zone indices and migrate types of linux/mmzone.h
    and the two constants of linux/swap.h are parameters.  A zone is given
    by what the three functions read of it; page counts are [unsigned long]
    values and [lowmem_reserve] holds [long] values. *)

Module Zones.

Class mmzone_abi : Type := {
  ZONE_NORMAL : Z;
  ZONE_MOVABLE : Z;
  MIGRATE_CMA : Z;
  MIGRATE_RESERVE : Z;
  KSWAPD_ZONE_BALANCE_GAP_RATIO : Z;
  SWAP_CLUSTER_MAX : Z
}.

Record zone : Type := {
  zone_idx : Z;
  zone_NR_FREE_PAGES : Z;        (* zone_page_state(zone, NR_FREE_PAGES) *)
  zone_NR_FREE_CMA_PAGES : Z;
  zone_NR_FILE_PAGES : Z;
  zone_NR_SHMEM : Z;
  zone_NR_SWAPCACHE : Z;
  lowmem_reserve : Z -> Z;
  low_wmark_pages : Z;
  high_wmark_pages : Z;
  present_pages : Z;
  (* zone_watermark_ok(zone, 0, mark, classzone_idx, 0) *)
  zone_watermark_ok : Z -> Z -> bool
}.

Section Estimator.
Context {M : mmzone_abi}.

(** The body of the loop of [tune_lmk_zone_param] for one zone; a NULL
    pointer is [None]. *)
Definition tune_zone (classzone_idx use_cma_pages : Z) (z : zone)
    (other : option Z * option Z) : option Z * option Z :=
  let '(other_free, other_file) := other in
  if zone_idx z =? ZONE_MOVABLE then
    match other_free with
    | Some f =>
        if use_cma_pages =? 0
        then (Some (to_int (to_ulong (f - zone_NR_FREE_CMA_PAGES z))),
              other_file)
        else (other_free, other_file)
    | None => (other_free, other_file)
    end
  else if zone_idx z >? classzone_idx then
    (match other_free with
     | Some f => Some (to_int (to_ulong (f - zone_NR_FREE_PAGES z)))
     | None => None
     end,
     match other_file with
     | Some g =>
         Some (to_int (to_ulong
                 (g - to_ulong (to_ulong (zone_NR_FILE_PAGES z
                                          - zone_NR_SHMEM z)
                                - zone_NR_SWAPCACHE z))))
     | None => None
     end)
  else if zone_idx z <? classzone_idx then
    match other_free with
    | Some f =>
        if zone_watermark_ok z 0 classzone_idx then
          if use_cma_pages =? 0 then
            (Some (to_int (to_ulong
                     (f - Z.min (to_ulong (lowmem_reserve z classzone_idx
                                           + zone_NR_FREE_CMA_PAGES z))
                                (zone_NR_FREE_PAGES z)))),
             other_file)
          else
            (Some (to_int (to_long (f - lowmem_reserve z classzone_idx))),
             other_file)
        else (Some (to_int (to_ulong (f - zone_NR_FREE_PAGES z))), other_file)
    | None => (other_free, other_file)
    end
  else (other_free, other_file).

(** [for_each_zone_zonelist(zone, zoneref, zonelist, MAX_NR_ZONES)] *)
Fixpoint tune_lmk_zone_param (zonelist : list zone)
    (classzone_idx : Z) (other : option Z * option Z) (use_cma_pages : Z)
  : option Z * option Z :=
  match zonelist with
  | [] => other
  | z :: rest =>
      tune_lmk_zone_param rest classzone_idx
        (tune_zone classzone_idx use_cma_pages z other) use_cma_pages
  end.

(** The search of the fallback list in [can_use_cma_pages]; [None] is a read
    past the end of the list. *)
Fixpoint cma_in_fallbacks (mtype_fallbacks : list Z) : option Z :=
  match mtype_fallbacks with
  | [] => None
  | fallbacktype :: rest =>
      if fallbacktype =? MIGRATE_CMA then Some 1
      else if fallbacktype =? MIGRATE_RESERVE then Some 0
      else cma_in_fallbacks rest
  end.

(** [mtype] is [gfpflags_to_migratetype(gfp_mask)] and [mtype_fallbacks]
    what [get_migratetype_fallbacks(mtype)] points to. *)
Definition can_use_cma_pages (mtype : Z) (mtype_fallbacks : list Z)
  : option Z :=
  if mtype =? MIGRATE_CMA then Some 1 else cma_in_fallbacks mtype_fallbacks.

(** What [tune_lmk_param] gets from the gfp mask of the shrink control and
    from the scheduler. *)
Record shrink_control : Type := {
  zonelist : list zone;          (* node_zonelist(0, gfp_mask) *)
  preferred_zone : zone;         (* first_zones_zonelist(...) *)
  use_cma_pages : Z;             (* can_use_cma_pages(gfp_mask) *)
  current_is_kswapd : bool
}.

Definition tune_lmk_param (lmk_fast_run : Z) (sc : shrink_control)
    (other : Z * Z) : Z * Z :=
  let '(other_free, other_file) := other in
  let pz := preferred_zone sc in
  let classzone_idx := zone_idx pz in
  let balance_gap :=
    Z.min (low_wmark_pages pz)
          (to_ulong (present_pages pz + KSWAPD_ZONE_BALANCE_GAP_RATIO - 1)
           / KSWAPD_ZONE_BALANCE_GAP_RATIO) in
  if current_is_kswapd sc
     && zone_watermark_ok pz
          (to_ulong (high_wmark_pages pz + SWAP_CLUSTER_MAX + balance_gap)) 0
  then
    let '(tuned_free, tuned_file) :=
      if negb (lmk_fast_run =? 0)
      then tune_lmk_zone_param (zonelist sc) classzone_idx
             (Some other_free, Some other_file) (use_cma_pages sc)
      else tune_lmk_zone_param (zonelist sc) classzone_idx
             (Some other_free, None) (use_cma_pages sc) in
    let other_free := match tuned_free with Some f => f | None => other_free end in
    let other_file := match tuned_file with Some g => g | None => other_file end in
    let other_free :=
      if zone_watermark_ok pz 0 ZONE_NORMAL then
        if use_cma_pages sc =? 0 then
          to_int (to_ulong
                    (other_free
                     - Z.min (to_ulong (lowmem_reserve pz ZONE_NORMAL
                                        + zone_NR_FREE_CMA_PAGES pz))
                             (zone_NR_FREE_PAGES pz)))
        else to_int (to_long (other_free - lowmem_reserve pz ZONE_NORMAL))
      else to_int (to_ulong (other_free - zone_NR_FREE_PAGES pz)) in
    (other_free, other_file)
  else
    let '(tuned_free, tuned_file) :=
      tune_lmk_zone_param (zonelist sc) classzone_idx
        (Some other_free, Some other_file) (use_cma_pages sc) in
    let other_free := match tuned_free with Some f => f | None => other_free end in
    let other_file := match tuned_file with Some g => g | None => other_file end in
    let other_free :=
      if use_cma_pages sc =? 0
      then to_int (to_ulong (other_free - zone_NR_FREE_CMA_PAGES pz))
      else other_free in
    (other_free, other_file).

(** What one zone takes off [other_free] and off [other_file], and what
    [tune_lmk_param] takes off [other_free] for the preferred zone after
    the walk. *)
Definition free_share (classzone_idx use_cma_pages : Z) (z : zone) : Z :=
  if zone_idx z =? ZONE_MOVABLE then
    if use_cma_pages =? 0 then zone_NR_FREE_CMA_PAGES z else 0
  else if zone_idx z >? classzone_idx then zone_NR_FREE_PAGES z
  else if zone_idx z <? classzone_idx then
    if zone_watermark_ok z 0 classzone_idx then
      if use_cma_pages =? 0
      then Z.min (to_ulong (lowmem_reserve z classzone_idx
                            + zone_NR_FREE_CMA_PAGES z))
                 (zone_NR_FREE_PAGES z)
      else lowmem_reserve z classzone_idx
    else zone_NR_FREE_PAGES z
  else 0.

Definition file_share (classzone_idx : Z) (z : zone) : Z :=
  if zone_idx z =? ZONE_MOVABLE then 0
  else if zone_idx z >? classzone_idx
  then to_ulong (to_ulong (zone_NR_FILE_PAGES z - zone_NR_SHMEM z)
                 - zone_NR_SWAPCACHE z)
  else 0.

Definition preferred_share (sc : shrink_control) : Z :=
  let pz := preferred_zone sc in
  let balance_gap :=
    Z.min (low_wmark_pages pz)
          (to_ulong (present_pages pz + KSWAPD_ZONE_BALANCE_GAP_RATIO - 1)
           / KSWAPD_ZONE_BALANCE_GAP_RATIO) in
  if current_is_kswapd sc
     && zone_watermark_ok pz
          (to_ulong (high_wmark_pages pz + SWAP_CLUSTER_MAX + balance_gap)) 0
  then
    if zone_watermark_ok pz 0 ZONE_NORMAL then
      if use_cma_pages sc =? 0
      then Z.min (to_ulong (lowmem_reserve pz ZONE_NORMAL
                            + zone_NR_FREE_CMA_PAGES pz))
                 (zone_NR_FREE_PAGES pz)
      else lowmem_reserve pz ZONE_NORMAL
    else zone_NR_FREE_PAGES pz
  else if use_cma_pages sc =? 0 then zone_NR_FREE_CMA_PAGES pz else 0.

(** [tune_lmk_param] takes the path that passes NULL for [other_file]. *)
Definition file_left_alone (lmk_fast_run : Z) (sc : shrink_control) : bool :=
  let pz := preferred_zone sc in
  let balance_gap :=
    Z.min (low_wmark_pages pz)
          (to_ulong (present_pages pz + KSWAPD_ZONE_BALANCE_GAP_RATIO - 1)
           / KSWAPD_ZONE_BALANCE_GAP_RATIO) in
  current_is_kswapd sc
  && zone_watermark_ok pz
       (to_ulong (high_wmark_pages pz + SWAP_CLUSTER_MAX + balance_gap)) 0
  && (lmk_fast_run =? 0).

Definition sum_shares (share : zone -> Z) (zl : list zone) : Z :=
  fold_right (fun z acc => share z + acc) 0 zl.

(** Page counts and reserves of a zone are not negative and fit 31 bits, and
    the file pages of the zone include its shmem and swap-cache pages. *)
Definition zone_sane (z : zone) : Prop :=
  0 <= zone_NR_FREE_PAGES z < 2 ^ 31
  /\ 0 <= zone_NR_FREE_CMA_PAGES z < 2 ^ 31
  /\ 0 <= zone_NR_SWAPCACHE z
  /\ 0 <= zone_NR_SHMEM z
  /\ zone_NR_SHMEM z + zone_NR_SWAPCACHE z <= zone_NR_FILE_PAGES z < 2 ^ 31
  /\ forall i, 0 <= lowmem_reserve z i < 2 ^ 31.

End Estimator.

End Zones.

(** ** The load tracker

    [LoadTrackerExec] is the handler of [LoadTrackerTimer].  Its two statics
    are a record; the conversions between jiffies and milliseconds and the
    [abs] macro come from kernel headers.  What it prints is returned as a
    report, and the expiry it passes to [mod_timer] as [expires]. *)

Class timer_abi : Type := {
  jiffies_to_msecs : Z -> Z;
  msecs_to_jiffies : Z -> Z;
  abs : Z -> Z
}.

Record tracker_state : Type := {
  last_track_time : Z;           (* static unsigned long, initially 0 *)
  escaped_msec : Z               (* static unsigned *)
}.

Record tracker_report : Type := {
  Elapsed : Z;
  Scan : Z;
  Kill : Z;
  escape1 : Z;
  escape2 : Z;
  escape3 : Z
}.

Record tracker_result : Type := {
  tracker_after : tracker_state;
  driver_after : lmk_state;
  printed : option tracker_report;
  expires : Z
}.

Definition LOAD_TRACKING_PERIOD : Z := 5000.

Definition LoadTrackerExec {T : timer_abi} (jiffies : Z)
    (t : tracker_state) (st : lmk_state) : tracker_result :=
  let expires := to_ulong (jiffies + msecs_to_jiffies LOAD_TRACKING_PERIOD) in
  if last_track_time t =? 0 then
    {| tracker_after := {| last_track_time := jiffies;
                           escaped_msec := escaped_msec t |};
       driver_after := st;
       printed := None;
       expires := expires |}
  else
    let escaped_msec :=
      jiffies_to_msecs
        (to_ulong (abs (to_ulong (jiffies - last_track_time t)))) in
    {| tracker_after := {| last_track_time := jiffies;
                           escaped_msec := escaped_msec |};
       driver_after :=
         with_stats {| lowmem_scan_count := 0;
                       lowmem_escape1_count := 0;
                       lowmem_escape2_count := 0;
                       lowmem_escape3_count := 0;
                       lowmem_kill_count := 0 |} st;
       printed := Some {| Elapsed := escaped_msec;
                          Scan := lowmem_scan_count (stats st);
                          Kill := lowmem_kill_count (stats st);
                          escape1 := lowmem_escape1_count (stats st);
                          escape2 := lowmem_escape2_count (stats st);
                          escape3 := lowmem_escape3_count (stats st) |};
       expires := expires |}.

(** Calls of [lowmem_scan] and firings of the timer, one after the other on
    the statics they share. *)
Inductive activity : Type :=
| shrink (P : params) (inv : invocation)
| tick (jiffies : Z).

Record history : Type := {
  driver_now : lmk_state;
  tracker_now : tracker_state;
  signalled : list event;        (* the events of the calls, in order *)
  reports : list tracker_report  (* what the tracker printed, in order *)
}.

Fixpoint run {K : kernel} {T : timer_abi} (acts : list activity)
    (st : lmk_state) (t : tracker_state) : option history :=
  match acts with
  | [] => Some {| driver_now := st; tracker_now := t;
                  signalled := []; reports := [] |}
  | shrink P inv :: rest =>
      match lowmem_scan P st inv with
      | Some r =>
          match run rest (state_after r) t with
          | Some h =>
              Some {| driver_now := driver_now h;
                      tracker_now := tracker_now h;
                      signalled := events r ++ signalled h;
                      reports := reports h |}
          | None => None
          end
      | None => None
      end
  | tick jiffies :: rest =>
      let x := LoadTrackerExec jiffies t st in
      match run rest (driver_after x) (tracker_after x) with
      | Some h =>
          Some {| driver_now := driver_now h;
                  tracker_now := tracker_now h;
                  signalled := signalled h;
                  reports := match printed x with
                             | Some rep => rep :: reports h
                             | None => reports h
                             end |}
      | None => None
      end
  end.

(** The calls of a sequence that got the scan mutex. *)
Fixpoint held (acts : list activity) : nat :=
  match acts with
  | [] => O
  | shrink _ inv :: rest =>
      if lock_interrupted inv then held rest else S (held rest)
  | tick _ :: rest => held rest
  end.

Definition total (field : tracker_report -> Z) (reps : list tracker_report)
  : Z :=
  fold_right (fun rep acc => field rep + acc) 0 reps.

Definition is_shrink (a : activity) : bool :=
  match a with shrink _ _ => true | tick _ => false end.

(** ** Sample zones and timer

    The zone indices and migrate types of a build with ZONE_DMA and
    CONFIG_CMA, and a node with a DMA zone, a normal zone and a movable zone
    holding CMA pages.  A zone passes the watermark test when its free pages
    exceed the mark plus the reserve for the class zone. *)

Definition linux_mmzone : Zones.mmzone_abi :=
  {| Zones.ZONE_NORMAL := 1;
     Zones.ZONE_MOVABLE := 2;
     Zones.MIGRATE_CMA := 4;
     Zones.MIGRATE_RESERVE := 3;
     Zones.KSWAPD_ZONE_BALANCE_GAP_RATIO := 100;
     Zones.SWAP_CLUSTER_MAX := 32 |}.

Definition sample_zone (idx free cma file shmem swapcache reserve : Z)
  : Zones.zone :=
  {| Zones.zone_idx := idx;
     Zones.zone_NR_FREE_PAGES := free;
     Zones.zone_NR_FREE_CMA_PAGES := cma;
     Zones.zone_NR_FILE_PAGES := file;
     Zones.zone_NR_SHMEM := shmem;
     Zones.zone_NR_SWAPCACHE := swapcache;
     Zones.lowmem_reserve := fun _ => reserve;
     Zones.low_wmark_pages := 300;
     Zones.high_wmark_pages := 400;
     Zones.present_pages := 100000;
     Zones.zone_watermark_ok := fun mark _ => mark + reserve <? free |}.

Definition dma_zone : Zones.zone := sample_zone 0 900 100 4000 200 50 256.
Definition normal_zone : Zones.zone := sample_zone 1 2000 0 9000 300 100 0.
Definition movable_zone : Zones.zone := sample_zone 2 700 700 1000 0 0 0.

(** An allocation from the normal zone by a task other than kswapd that may
    not use CMA pages, and the same by kswapd. *)
Definition normal_alloc : Zones.shrink_control :=
  {| Zones.zonelist := [movable_zone; normal_zone; dma_zone];
     Zones.preferred_zone := normal_zone;
     Zones.use_cma_pages := 0;
     Zones.current_is_kswapd := false |}.
Definition kswapd_alloc : Zones.shrink_control :=
  {| Zones.zonelist := [movable_zone; normal_zone; dma_zone];
     Zones.preferred_zone := normal_zone;
     Zones.use_cma_pages := 0;
     Zones.current_is_kswapd := true |}.

(** The fallback list of MIGRATE_MOVABLE with CONFIG_CMA. *)
Definition movable_fallbacks : list Z := [4; 1; 0; 3].

(** The conversions for HZ = 100. *)
Definition hz100_timer : timer_abi :=
  {| jiffies_to_msecs := fun j => (10 * j) mod 2 ^ 32;
     msecs_to_jiffies := fun m => (m + 9) / 10;
     abs := fun x => Z.abs (to_long x) |}.

(** A timer period with two calls in it, one of them interrupted. *)
Definition tracked_calls : list activity :=
  [shrink default_params low_memory_call;
   shrink default_params interrupted_call].
Definition tracked_period : list activity :=
  tick 4999999500 :: tracked_calls ++ [tick 5000000000].
Definition tracker_started : tracker_state :=
  {| last_track_time := 4999999000; escaped_msec := 0 |}.

(** * Properties *)

(** ** Machine integers *)

Lemma to_int_small (z : Z) : int_range z -> to_int z = z.
Proof.
  unfold int_range, to_int, wrap_signed; intros Hz.
  rewrite Z.mod_small; lia.
Qed.

Lemma to_short_small (z : Z) : - 2 ^ 15 <= z < 2 ^ 15 -> to_short z = z.
Proof.
  unfold to_short, wrap_signed; intros Hz.
  rewrite Z.mod_small; lia.
Qed.

Lemma to_int_to_ulong (z : Z) : to_int (to_ulong z) = to_int z.
Proof.
  unfold to_int, to_ulong, wrap_signed.
  f_equal.
  rewrite <- (Zplus_mod_idemp_l (z mod 2 ^ 64)).
  rewrite Z.mod_mod_divide by (exists (2 ^ 32); reflexivity).
  now rewrite Zplus_mod_idemp_l.
Qed.

Lemma to_ulong_small (z : Z) : 0 <= z < 2 ^ 64 -> to_ulong z = z.
Proof. intros Hz; unfold to_ulong; now apply Z.mod_small. Qed.

(** ** The adaptive clamp *)

Section Clamp.
Context {K : kernel}.

Lemma adjust_minadj_score (P : params) (shift score : Z) :
  snd (fst (adjust_minadj P shift score))
  = if clamp_armed P shift score then adj_max_shift else score.
Proof.
  unfold adjust_minadj, clamp_armed.
  destruct (enable_adaptive_lmk P =? 0); [reflexivity|].
  destruct (shift =? 0); [reflexivity|].
  cbn [negb andb].
  destruct (score >? adj_max_shift); reflexivity.
Qed.

Lemma adjust_minadj_shift (P : params) (shift score : Z) :
  snd (adjust_minadj P shift score)
  = if enable_adaptive_lmk P =? 0 then shift else 0.
Proof.
  unfold adjust_minadj.
  destruct (enable_adaptive_lmk P =? 0); [reflexivity|].
  destruct (negb (shift =? 0) && (score >? adj_max_shift)); reflexivity.
Qed.

(** C5: the clamp never raises the score; it rewrites the score exactly when
    the adaptive feature is on, the shift flag is armed and the score is
    above the cap 353, and then the score becomes 353. *)
Theorem adjust_minadj_only_lowers (P : params) (shift score : Z) :
  let score' := snd (fst (adjust_minadj P shift score)) in
  adj_max_shift = 353
  /\ score' <= score
  /\ score' = (if negb (enable_adaptive_lmk P =? 0) && negb (shift =? 0)
                  && (score >? 353)
               then 353 else score).
Proof.
  cbv zeta. rewrite adjust_minadj_score. unfold clamp_armed, adj_max_shift.
  repeat split.
  - destruct (negb (enable_adaptive_lmk P =? 0) && negb (shift =? 0)); cbn [andb].
    + destruct (Z.gtb_spec score 353); lia.
    + lia.
Qed.

End Clamp.

(** ** The pressure listener *)

Section Pressure.

Lemma clamp_array_size_le (P : params) :
  clamp_array_size P <= ARRAY_SIZE_lowmem_adj.
Proof.
  unfold clamp_array_size, ARRAY_SIZE_lowmem_adj.
  destruct (Z.ltb_spec (lowmem_adj_size P) 6);
    repeat match goal with
           | |- context [?a <? ?b] => destruct (Z.ltb_spec a b)
           end; lia.
Qed.

(** The clamp leaves the smallest of 6 and the two sizes. *)
Lemma clamp_array_size_min (P : params) :
  clamp_array_size P
  = Z.min 6 (Z.min (lowmem_adj_size P) (lowmem_minfree_size P)).
Proof.
  unfold clamp_array_size, ARRAY_SIZE_lowmem_adj.
  destruct (Z.ltb_spec (lowmem_adj_size P) 6);
    repeat match goal with
           | |- context [?a <? ?b] => destruct (Z.ltb_spec a b)
           end; lia.
Qed.

Lemma array_read_inside (a : list Z) (i : Z) :
  0 <= i -> (Z.to_nat i < List.length a)%nat ->
  array_read a i = Some (array_get a i).
Proof.
  intros Hi Hlen. unfold array_read, array_get.
  destruct (Z.ltb_spec i 0); [lia|].
  apply nth_error_nth'. exact Hlen.
Qed.

(** C8: the notifier returns 0 whenever it returns.  With the adaptive
    feature on and [n = min(6, lowmem_adj_size, lowmem_minfree_size)]
    entries in use, an event of level 98 or more sets the shift flag exactly
    when the free pages, as an int, are below [lowmem_minfree[n - 1]] and
    file + zcache - shmem - swapcache, as an int, is below
    [vmpressure_file_min], and leaves the flag otherwise; for counts that
    fit an int the comparison is on the counts themselves; with [n <= 0]
    the entry is read outside the array.  An event below 98 clears an armed
    flag and changes nothing otherwise, and with the feature off nothing
    changes. *)
Theorem vmpressure_event_arms_or_clears
    (P : params) (c : vm_counters) (level shift : Z) :
  let n := Z.min 6 (Z.min (lowmem_adj_size P) (lowmem_minfree_size P)) in
  let r := lmk_vmpressure_notifier P c level shift in
  (forall ret s, r = Some (ret, s) -> ret = 0)
  /\ (enable_adaptive_lmk P = 0 -> r = Some (0, shift))
  /\ (enable_adaptive_lmk P <> 0 -> 98 <= level ->
      List.length (lowmem_minfree P) = 6%nat -> 0 < n ->
      r = Some (0, if (to_int (NR_FREE_PAGES c)
                       <? array_get (lowmem_minfree P) (n - 1))
                      && (to_int (file_backed_pages c)
                          <? vmpressure_file_min P)
                   then 1 else shift))
  /\ (enable_adaptive_lmk P <> 0 -> 98 <= level ->
      List.length (lowmem_minfree P) = 6%nat -> 0 < n ->
      int_range (NR_FREE_PAGES c) -> int_range (file_backed_pages c) ->
      r = Some (0, if (NR_FREE_PAGES c
                       <? array_get (lowmem_minfree P) (n - 1))
                      && (file_backed_pages c <? vmpressure_file_min P)
                   then 1 else shift))
  /\ (enable_adaptive_lmk P <> 0 -> 98 <= level -> n <= 0 -> r = None)
  /\ (enable_adaptive_lmk P <> 0 -> level < 98 ->
      r = Some (0, if negb (shift =? 0) then 0 else shift)).
Proof.
  intros n r.
  assert (Hn : clamp_array_size P = n) by apply clamp_array_size_min.
  assert (Hfull : enable_adaptive_lmk P <> 0 -> 98 <= level ->
                  List.length (lowmem_minfree P) = 6%nat -> 0 < n ->
                  r = Some (0, if (to_int (NR_FREE_PAGES c)
                                   <? array_get (lowmem_minfree P) (n - 1))
                                  && (to_int (file_backed_pages c)
                                      <? vmpressure_file_min P)
                               then 1 else shift)).
  { intros Hon Hlevel Hlen Hpos. subst r. unfold lmk_vmpressure_notifier.
    apply Z.eqb_neq in Hon. rewrite Hon.
    destruct (Z.geb_spec level 98) as [_|Hlt]; [|lia].
    rewrite Hn, to_int_to_ulong. fold (file_backed_pages c).
    rewrite array_read_inside by (subst n; lia).
    destruct ((to_int (NR_FREE_PAGES c)
               <? array_get (lowmem_minfree P) (n - 1))
              && (to_int (file_backed_pages c) <? vmpressure_file_min P));
      reflexivity. }
  split; [|split; [|split; [|split; [|split]]]].
  - intros ret s. subst r. unfold lmk_vmpressure_notifier.
    repeat match goal with
           | |- context [if ?b then _ else _] => destruct b
           | |- context [match ?o with Some _ => _ | None => _ end] =>
               destruct o
           end; intros H; inversion H; reflexivity.
  - intros Hoff. subst r. unfold lmk_vmpressure_notifier.
    rewrite Hoff. reflexivity.
  - exact Hfull.
  - intros Hon Hlevel Hlen Hpos Hfree Hfile.
    rewrite (Hfull Hon Hlevel Hlen Hpos), !to_int_small by assumption.
    reflexivity.
  - intros Hon Hlevel Hempty. subst r. unfold lmk_vmpressure_notifier.
    apply Z.eqb_neq in Hon. rewrite Hon.
    destruct (Z.geb_spec level 98) as [_|Hlt]; [|lia].
    rewrite Hn. unfold array_read.
    destruct (Z.ltb_spec (n - 1) 0); [reflexivity|lia].
  - intros Hon Hlevel. subst r. unfold lmk_vmpressure_notifier.
    apply Z.eqb_neq in Hon. rewrite Hon.
    destruct (Z.geb_spec level 98) as [Hge|_]; [lia|].
    destruct (negb (shift =? 0)); reflexivity.
Qed.

End Pressure.

(** ** Threshold resolution *)

Section Resolution.
Context {K : kernel}.

Lemma kill_nothing_sentinel_eq : kill_nothing_sentinel = OOM_SCORE_ADJ_MAX + 1.
Proof. apply to_short_small, sentinel_is_short. Qed.

Lemma threshold_loop_hit (P : params) (other_free other_file : Z) :
  forall (n : nat) (i0 score minfree i : Z),
    i0 <= i < i0 + Z.of_nat n ->
    entry_matches P other_free other_file i = true ->
    (forall j, i0 <= j < i -> entry_matches P other_free other_file j = false) ->
    fst (threshold_loop P other_free other_file n i0 score minfree)
    = array_get (lowmem_adj P) i.
Proof.
  induction n as [|n IH]; intros i0 score minfree i Hi Hhit Hmiss; [lia|].
  cbn [threshold_loop].
  fold (entry_matches P other_free other_file i0).
  destruct (Z.eq_dec i i0) as [->|Hne].
  - rewrite Hhit. reflexivity.
  - rewrite (Hmiss i0) by lia.
    apply IH; [lia|assumption|].
    intros j Hj; apply Hmiss; lia.
Qed.

Lemma threshold_loop_miss (P : params) (other_free other_file : Z) :
  forall (n : nat) (i0 score minfree : Z),
    (forall j, i0 <= j < i0 + Z.of_nat n ->
               entry_matches P other_free other_file j = false) ->
    fst (threshold_loop P other_free other_file n i0 score minfree) = score.
Proof.
  induction n as [|n IH]; intros i0 score minfree Hmiss; [reflexivity|].
  cbn [threshold_loop].
  fold (entry_matches P other_free other_file i0).
  rewrite (Hmiss i0) by lia.
  apply IH. intros j Hj; apply Hmiss; lia.
Qed.

(** The locals of [lowmem_scan] at the first gate. *)
Lemma lowmem_scan_locked (P : params) (st : lmk_state) (inv : invocation) :
  lock_interrupted inv = false ->
  let st0 := with_diag (set_dumppid 0 (set_dumppid_tasksize 0 (diag st))) st in
  let st1 := with_stats (incr_scan_count (stats st0)) st0 in
  let score := clamped_min_score_adj P st inv in
  let st2 :=
    with_shift_adj
      (snd (adjust_minadj P (shift_adj st) (resolved_min_score_adj P inv))) st1 in
  let skipped (c : counters) :=
    Some {| reclaimed := 0; state_after := with_stats c st2;
            tasks_after := kill_mem inv;
            events := [mutex_lock_scan_mutex; mutex_unlock_scan_mutex] |} in
  lowmem_scan P st inv
  = if (score >=? justkilled_adj (throttle st))
       && time_before_eq (jiffies inv) (lowmem_justkilled_timeout (throttle st))
    then skipped (incr_escape1_count (stats st2))
    else if (score >=? killNothing_adj (throttle st))
            && time_before_eq (jiffies inv)
                 (lowmem_killNothing_timeout (throttle st))
    then skipped (incr_escape2_count (stats st2))
    else if score =? OOM_SCORE_ADJ_MAX + 1
    then skipped (incr_escape3_count (stats st2))
    else scan_and_kill st2 inv score
           (negb (resolved_min_score_adj P inv =? score)).
Proof.
  intros Hlock. cbv zeta.
  unfold lowmem_scan, clamped_min_score_adj, resolved_min_score_adj.
  rewrite Hlock.
  destruct (estimate inv) as [other_free other_file].
  destruct (resolve_threshold P other_free other_file) as [score minfree].
  cbn [fst snd with_diag with_stats with_shift_adj shift_adj throttle].
  destruct (adjust_minadj P (shift_adj st) score) as [[ret score'] shift].
  reflexivity.
Qed.

Lemma lowmem_scan_interrupted (P : params) (st : lmk_state) (inv : invocation) :
  lock_interrupted inv = true ->
  lowmem_scan P st inv
  = Some {| reclaimed := 0;
            state_after :=
              with_diag (set_dumppid 0 (set_dumppid_tasksize 0 (diag st))) st;
            tasks_after := kill_mem inv; events := [] |}.
Proof. intros Hlock. unfold lowmem_scan. rewrite Hlock. reflexivity. Qed.

(** C1: with [n = min(6, lowmem_adj_size, lowmem_minfree_size)], which is
    the smaller of the two sizes when neither exceeds the 6 entries of the
    arrays, the score before the clamp is [lowmem_adj[i]] for the first
    index [i] below [n] whose minfree entry exceeds both estimates, and the
    sentinel [OOM_SCORE_ADJ_MAX + 1] when no index below [n] has one; a call
    whose score is still the sentinel after the clamp, as is the case when
    no entry matches its estimates and the clamp is not armed, returns 0,
    signals no task and leaves the task memory as it was. *)
Theorem threshold_resolution_first_match
    (P : params) (other_free other_file : Z) :
  let n := Z.min 6 (Z.min (lowmem_adj_size P) (lowmem_minfree_size P)) in
  let matches i :=
    other_free < array_get (lowmem_minfree P) i
    /\ other_file < array_get (lowmem_minfree P) i in
  (forall i,
      0 <= i < n ->
      matches i ->
      (forall j, 0 <= j < i -> ~ matches j) ->
      fst (resolve_threshold P other_free other_file)
      = array_get (lowmem_adj P) i)
  /\ ((forall j, 0 <= j < n -> ~ matches j) ->
      fst (resolve_threshold P other_free other_file) = OOM_SCORE_ADJ_MAX + 1)
  /\ (lowmem_adj_size P <= 6 -> lowmem_minfree_size P <= 6 ->
      n = Z.min (lowmem_adj_size P) (lowmem_minfree_size P))
  /\ (forall st inv,
         clamped_min_score_adj P st inv = OOM_SCORE_ADJ_MAX + 1 ->
         exists r,
           lowmem_scan P st inv = Some r
           /\ reclaimed r = 0
           /\ existsb is_kill (events r) = false
           /\ tasks_after r = kill_mem inv)
  /\ (forall st inv,
         estimate inv = (other_free, other_file) ->
         (forall j, 0 <= j < n -> ~ matches j) ->
         clamp_armed P (shift_adj st) (OOM_SCORE_ADJ_MAX + 1) = false ->
         exists r,
           lowmem_scan P st inv = Some r
           /\ reclaimed r = 0
           /\ existsb is_kill (events r) = false
           /\ tasks_after r = kill_mem inv).
Proof.
  intros n matches.
  assert (Hn : clamp_array_size P = n) by apply clamp_array_size_min.
  assert (Hno : forall j, ~ matches j ->
                          entry_matches P other_free other_file j = false).
  { intros j Hj. unfold entry_matches.
    destruct (Z.ltb_spec other_free (array_get (lowmem_minfree P) j));
      [|reflexivity].
    destruct (Z.ltb_spec other_file (array_get (lowmem_minfree P) j));
      [|reflexivity].
    exfalso. apply Hj. split; assumption. }
  assert (Hmiss : (forall j, 0 <= j < n -> ~ matches j) ->
                  fst (resolve_threshold P other_free other_file)
                  = OOM_SCORE_ADJ_MAX + 1).
  { intros Hm. unfold resolve_threshold.
    rewrite threshold_loop_miss; [apply kill_nothing_sentinel_eq|].
    intros j Hj. apply Hno, Hm. lia. }
  assert (Hcall : forall st inv,
             clamped_min_score_adj P st inv = OOM_SCORE_ADJ_MAX + 1 ->
             exists r,
               lowmem_scan P st inv = Some r
               /\ reclaimed r = 0
               /\ existsb is_kill (events r) = false
               /\ tasks_after r = kill_mem inv).
  { intros st inv Hscore.
    destruct (lock_interrupted inv) eqn:Hlock.
    + rewrite lowmem_scan_interrupted by assumption.
      eexists; split; [reflexivity|]. cbn. auto.
    + rewrite lowmem_scan_locked by assumption. cbv zeta.
      rewrite Hscore, Z.eqb_refl.
      repeat match goal with
             | |- context [if ?b then _ else _] => destruct b
             end;
        (eexists; split; [reflexivity|]; cbn; auto). }
  split; [|split; [|split; [|split]]].
  - intros i Hi [Hfree Hfile] Hbefore. unfold resolve_threshold.
    apply threshold_loop_hit; [lia| |].
    + unfold entry_matches.
      apply andb_true_intro; split; apply Z.ltb_lt; assumption.
    + intros j Hj. apply Hno, Hbefore. lia.
  - exact Hmiss.
  - intros Ha Hm. subst n. lia.
  - exact Hcall.
  - intros st inv Hest Hm Hclamp. apply Hcall.
    unfold clamped_min_score_adj, resolved_min_score_adj.
    rewrite Hest, (Hmiss Hm), adjust_minadj_score, Hclamp. reflexivity.
Qed.

End Resolution.

(** ** The early exits *)

Section EarlyExits.
Context {K : kernel}.

Lemma lowmem_scan_gates (P : params) (st : lmk_state) (inv : invocation) :
  lock_interrupted inv = false ->
  let g := state_at_gates P st inv in
  lowmem_scan P st inv
  = if post_kill_gate P st inv
    then Some (skipped (with_stats (incr_escape1_count (stats g)) g) inv)
    else if kill_nothing_gate P st inv
    then Some (skipped (with_stats (incr_escape2_count (stats g)) g) inv)
    else if clamped_min_score_adj P st inv =? OOM_SCORE_ADJ_MAX + 1
    then Some (skipped (with_stats (incr_escape3_count (stats g)) g) inv)
    else scan_and_kill g inv (clamped_min_score_adj P st inv)
           (negb (resolved_min_score_adj P inv
                  =? clamped_min_score_adj P st inv)).
Proof.
  intros Hlock. exact (lowmem_scan_locked P st inv Hlock).
Qed.

(** C3: a call that holds the scan mutex, whose score after the clamp is at
    least [justkilled_adj] and for which [time_before_eq(jiffies,
    lowmem_justkilled_timeout)] holds is skipped: it returns 0 after taking
    and releasing the mutex, signals no task, counts one escape of the first
    kind, and its outcome is the same whatever the process list and the task
    memory are; when the comparison fails the call goes on to the
    kill-nothing gate, the sentinel test and the scan. *)
Theorem post_kill_cooldown_gate (P : params) (st : lmk_state) (inv : invocation) :
  lock_interrupted inv = false ->
  justkilled_adj (throttle st) <= clamped_min_score_adj P st inv ->
  let g := state_at_gates P st inv in
  (time_before_eq (jiffies inv) (lowmem_justkilled_timeout (throttle st)) = true ->
   lowmem_scan P st inv
   = Some {| reclaimed := 0;
             state_after := with_stats (incr_escape1_count (stats g)) g;
             tasks_after := kill_mem inv;
             events := [mutex_lock_scan_mutex; mutex_unlock_scan_mutex] |}
   /\ forall procs lock_mm alloc m,
        lowmem_scan P st (with_processes inv procs lock_mm alloc m)
        = lowmem_scan P st inv)
  /\ (time_before_eq (jiffies inv) (lowmem_justkilled_timeout (throttle st)) = false ->
      lowmem_scan P st inv
      = if kill_nothing_gate P st inv
        then Some (skipped (with_stats (incr_escape2_count (stats g)) g) inv)
        else if clamped_min_score_adj P st inv =? OOM_SCORE_ADJ_MAX + 1
        then Some (skipped (with_stats (incr_escape3_count (stats g)) g) inv)
        else scan_and_kill g inv (clamped_min_score_adj P st inv)
               (negb (resolved_min_score_adj P inv
                      =? clamped_min_score_adj P st inv))).
Proof.
  intros Hlock Hscore g.
  assert (Hge : (clamped_min_score_adj P st inv
                 >=? justkilled_adj (throttle st)) = true)
    by (apply Z.geb_le; lia).
  split; intros Htime.
  - assert (Hskip : forall inv',
               lock_interrupted inv' = false ->
               jiffies inv' = jiffies inv ->
               estimate inv' = estimate inv ->
               kill_mem inv' = kill_mem inv ->
               lowmem_scan P st inv'
               = Some {| reclaimed := 0;
                         state_after :=
                           with_stats (incr_escape1_count (stats g)) g;
                         tasks_after := kill_mem inv;
                         events := [mutex_lock_scan_mutex;
                                    mutex_unlock_scan_mutex] |}).
    { intros inv' Hlock' Hj He Hk.
      rewrite (lowmem_scan_gates P st inv' Hlock').
      unfold post_kill_gate, state_at_gates, clamped_min_score_adj,
        resolved_min_score_adj, skipped in *.
      rewrite He, Hj, Hk. cbv zeta. rewrite Hge, Htime. reflexivity. }
    split.
    + apply Hskip; [exact Hlock|reflexivity|reflexivity|reflexivity].
    + intros procs lock_mm alloc m.
      rewrite (Hskip inv Hlock eq_refl eq_refl eq_refl).
      apply Hskip; [exact Hlock|reflexivity|reflexivity|reflexivity].
  - rewrite (lowmem_scan_gates P st inv Hlock). fold g.
    unfold post_kill_gate. rewrite Htime, andb_false_r. reflexivity.
Qed.

(** C9: when the wait for the scan mutex is interrupted the call returns 0
    at once: no task is read or signalled, and no counter changes, neither
    the scan count nor any of the three escape counts. *)
Theorem interrupted_lock_aborts (P : params) (st : lmk_state) (inv : invocation) :
  lock_interrupted inv = true ->
  exists r,
    lowmem_scan P st inv = Some r
    /\ reclaimed r = 0
    /\ events r = []
    /\ tasks_after r = kill_mem inv
    /\ stats (state_after r) = stats st
    /\ throttle (state_after r) = throttle st
    /\ shift_adj (state_after r) = shift_adj st.
Proof.
  intros Hlock. rewrite lowmem_scan_interrupted by assumption.
  eexists; split; [reflexivity|]. cbn. repeat split.
Qed.

(** C10: every early exit (interrupted lock, post-kill gate, kill-nothing
    gate, sentinel) returns 0 and leaves the five throttle variables as they
    were; besides the counters, such a call resets [dumppid] and
    [dumppid_tasksize], and once it holds the mutex with the adaptive
    feature on it leaves [shift_adj] cleared. *)
Theorem early_exit_keeps_throttle (P : params) (st : lmk_state) (inv : invocation) :
  exits_early P st inv = true ->
  exists r,
    lowmem_scan P st inv = Some r
    /\ reclaimed r = 0
    /\ throttle (state_after r) = throttle st
    /\ diag (state_after r) = set_dumppid 0 (set_dumppid_tasksize 0 (diag st))
    /\ shift_adj (state_after r)
       = (if lock_interrupted inv || (enable_adaptive_lmk P =? 0)
          then shift_adj st else 0)
    /\ tasks_after r = kill_mem inv
    /\ existsb is_kill (events r) = false.
Proof.
  unfold exits_early. intros Hexit.
  destruct (lock_interrupted inv) eqn:Hlock.
  - rewrite lowmem_scan_interrupted by assumption.
    eexists; split; [reflexivity|]. cbn. repeat split.
  - rewrite (lowmem_scan_gates P st inv Hlock). cbv zeta.
    cbn [orb] in Hexit.
    assert (Hshift :
      shift_adj (state_at_gates P st inv)
      = if enable_adaptive_lmk P =? 0 then shift_adj st else 0).
    { unfold state_at_gates. cbn [with_shift_adj shift_adj].
      apply adjust_minadj_shift. }
    destruct (post_kill_gate P st inv);
      [|destruct (kill_nothing_gate P st inv);
        [|destruct (clamped_min_score_adj P st inv =? OOM_SCORE_ADJ_MAX + 1);
          [|discriminate Hexit]]];
      (eexists; split; [reflexivity|];
       cbn [skipped reclaimed state_after tasks_after events with_stats
              throttle diag shift_adj existsb is_kill orb];
       rewrite Hshift; repeat split).
Qed.

End EarlyExits.

(** ** The candidate window *)

Section Window.
Context {K : kernel}.

Lemma choose_nTaskMax_pos (b : bool) (score : Z) : 1 <= choose_nTaskMax b score.
Proof.
  unfold choose_nTaskMax.
  repeat match goal with
         | |- context [if ?c then _ else _] => destruct c
         end; lia.
Qed.

Lemma search_position_le (m : memory) (b : bool) (adj size : Z) (l : list task_ptr) :
  (search_position m b adj size l <= List.length l)%nat.
Proof.
  induction l as [|q l IH]; cbn [search_position List.length]; [lia|].
  destruct (search_breaks b adj size (nTargeteAdj_of m q) (nTargetSize_of m q)); lia.
Qed.

Lemma insert_before_length (k : nat) (p : task_ptr) (l : list task_ptr) :
  List.length (insert_before k p l) = S (List.length l).
Proof.
  unfold insert_before.
  rewrite length_app. cbn [List.length].
  rewrite <- (firstn_skipn k l) at 3. rewrite length_app. lia.
Qed.

Lemma tl_length (l : list task_ptr) :
  List.length (tl l) = (List.length l - 1)%nat.
Proof. destruct l; cbn; lia. Qed.

Lemma rank_bounded (m : memory) (b : bool) (nTaskMax : Z) (ok : bool)
    (p : task_ptr) (adj size : Z) (l : list task_ptr) (num : Z) :
  1 <= nTaskMax ->
  Z.of_nat (List.length l) = num -> num <= nTaskMax ->
  Z.of_nat (List.length (fst (rank m b nTaskMax ok p adj size l num)))
  = snd (rank m b nTaskMax ok p adj size l num)
  /\ snd (rank m b nTaskMax ok p adj size l num) <= nTaskMax.
Proof.
  intros Hmax Hlen Hnum. unfold rank.
  destruct (Z.eqb_spec num 0) as [Hz|Hnz].
  - destruct ok; cbn [fst snd List.length]; lia.
  - set (k := search_position m b adj size l).
    destruct (if Nat.eqb k (List.length l) then Some k
              else if Nat.eqb k 0
                   then if num <? nTaskMax then Some k else None
                   else Some k) as [k'|]; [destruct ok|].
    + destruct (Z.gtb_spec (num + 1) nTaskMax);
        cbn [fst snd]; rewrite ?tl_length, insert_before_length; lia.
    + destruct (Z.gtb_spec num nTaskMax); cbn [fst snd]; lia.
    + destruct (Z.gtb_spec num nTaskMax); cbn [fst snd]; lia.
Qed.

Lemma scan_step_window (inv : invocation) (score sel : Z) (b : bool)
    (nTaskMax : Z) (n : nat) (tsk : task_ptr) (s s' : scan_state) :
  scan_step inv score sel b nTaskMax n tsk s = Some s' ->
  (ListHead s' = ListHead s /\ nTaskNum s' = nTaskNum s)
  \/ exists p adj rss,
       find_lock_task_mm inv tsk = Some p
       /\ signal (scan_mem inv p) = Some adj
       /\ mm (scan_mem inv p) = Some rss
       /\ score <= adj /\ 0 < to_int rss
       /\ (ListHead s', nTaskNum s')
          = rank (scan_mem inv) b nTaskMax (kmalloc inv n) p adj (to_int rss)
              (ListHead s) (nTaskNum s).
Proof.
  unfold scan_step. intros Hstep.
  destruct (pf_kthread (scan_mem inv tsk)); [inversion Hstep; auto|].
  destruct (test_task_flag (scan_mem inv) tsk tif_mm_released);
    [inversion Hstep; auto|].
  destruct (test_task_flag (scan_mem inv) tsk tif_memdie);
    [inversion Hstep; auto|].
  destruct (find_lock_task_mm inv tsk) as [p|]; [|inversion Hstep; auto].
  destruct (signal (scan_mem inv p)) as [adj|] eqn:Hsig; [|discriminate].
  destruct (mm (scan_mem inv p)) as [rss|] eqn:Hmm; [|discriminate].
  destruct (exempted (comm (scan_mem inv p)) score);
    [inversion Hstep; cbn; auto|].
  destruct (Z.ltb_spec adj score); [inversion Hstep; cbn; auto|].
  destruct (Z.leb_spec (to_int rss) 0); [inversion Hstep; cbn; auto|].
  destruct (rank (scan_mem inv) b nTaskMax (kmalloc inv n) p adj (to_int rss)
              (ListHead s) (nTaskNum s)) as [l num] eqn:Hrank.
  inversion Hstep; subst s'; cbn [ListHead nTaskNum].
  right. exists p, adj, rss. repeat split; auto; lia.
Qed.

Lemma scan_step_bounded (inv : invocation) (score sel : Z) (b : bool)
    (nTaskMax : Z) (n : nat) (tsk : task_ptr) (s s' : scan_state) :
  1 <= nTaskMax ->
  window_ok nTaskMax s ->
  scan_step inv score sel b nTaskMax n tsk s = Some s' ->
  window_ok nTaskMax s'.
Proof.
  intros Hmax [Hlen Hnum] Hstep.
  destruct (scan_step_window _ _ _ _ _ _ _ _ _ Hstep)
    as [[Hl Hn]|(p & adj & rss & _ & _ & _ & _ & _ & Hrank)].
  - unfold window_ok. rewrite Hl, Hn. auto.
  - pose proof (rank_bounded (scan_mem inv) b nTaskMax (kmalloc inv n) p adj
                  (to_int rss) _ _ Hmax Hlen Hnum) as Hb.
    rewrite <- Hrank in Hb. exact Hb.
Qed.

Lemma scan_step_total (inv : invocation) (score sel : Z) (b : bool)
    (nTaskMax : Z) (n : nat) (tsk : task_ptr) (s : scan_state) :
  derefs_ok inv tsk ->
  exists s', scan_step inv score sel b nTaskMax n tsk s = Some s'.
Proof.
  unfold derefs_ok, scan_step. intros Hok.
  destruct (pf_kthread (scan_mem inv tsk)); [eauto|].
  destruct (test_task_flag (scan_mem inv) tsk tif_mm_released); [eauto|].
  destruct (test_task_flag (scan_mem inv) tsk tif_memdie); [eauto|].
  destruct (find_lock_task_mm inv tsk) as [p|]; [|eauto].
  destruct (Hok p eq_refl) as [Hsig Hmm].
  destruct (signal (scan_mem inv p)) as [adj|]; [|congruence].
  destruct (mm (scan_mem inv p)) as [rss|]; [|congruence].
  destruct (exempted (comm (scan_mem inv p)) score); [eauto|].
  destruct (adj <? score); [eauto|].
  destruct (to_int rss <=? 0); [eauto|].
  destruct (rank (scan_mem inv) b nTaskMax (kmalloc inv n) p adj (to_int rss)
              (ListHead s) (nTaskNum s)); eauto.
Qed.

Lemma scan_loop_total (inv : invocation) (score sel : Z) (b : bool)
    (nTaskMax : Z) (tasks : list task_ptr) :
  Forall (derefs_ok inv) tasks ->
  forall n s, exists s', scan_loop inv score sel b nTaskMax n tasks s = Some s'.
Proof.
  induction 1 as [|tsk tasks Hok _ IH]; intros n s; cbn [scan_loop]; [eauto|].
  destruct (scan_step_total inv score sel b nTaskMax n tsk s Hok) as [s1 ->].
  apply IH.
Qed.

Lemma scan_loop_bounded (inv : invocation) (score sel : Z) (b : bool)
    (nTaskMax : Z) (tasks : list task_ptr) :
  1 <= nTaskMax ->
  forall n s s',
    window_ok nTaskMax s ->
    scan_loop inv score sel b nTaskMax n tasks s = Some s' ->
    window_ok nTaskMax s'.
Proof.
  intros Hmax. induction tasks as [|tsk tasks IH]; intros n s s' Hs Hloop;
    cbn [scan_loop] in Hloop.
  - inversion Hloop; subst; assumption.
  - destruct (scan_step inv score sel b nTaskMax n tsk s) as [s1|] eqn:Hstep;
      [|discriminate].
    eapply IH; [|exact Hloop].
    eapply scan_step_bounded; eassumption.
Qed.

(** C6: with the window size the call chooses, every iteration of the walk
    over the processes keeps [nTaskNum], which is the number of nodes of the
    window, at most [nTaskMax], insertion into a full window with removal of
    the first node included; so the bound holds after any number of
    processes, and the walk does run to the end unless it dereferences a
    NULL [signal] or [mm]. *)
Theorem window_never_exceeds_nTaskMax
    (inv : invocation) (score sel : Z) (b : bool) :
  let nTaskMax := choose_nTaskMax b score in
  (forall n tsk s s',
      window_ok nTaskMax s ->
      scan_step inv score sel b nTaskMax n tsk s = Some s' ->
      window_ok nTaskMax s')
  /\ (forall tasks d s',
         scan_loop inv score sel b nTaskMax 0 tasks (empty_window d) = Some s' ->
         Z.of_nat (List.length (ListHead s')) = nTaskNum s'
         /\ nTaskNum s' <= nTaskMax)
  /\ (forall tasks d,
         Forall (derefs_ok inv) tasks ->
         exists s',
           scan_loop inv score sel b nTaskMax 0 tasks (empty_window d) = Some s'
           /\ Z.of_nat (List.length (ListHead s')) <= nTaskMax).
Proof.
  intros nTaskMax.
  assert (Hmax : 1 <= nTaskMax) by apply choose_nTaskMax_pos.
  assert (Hempty : forall d, window_ok nTaskMax (empty_window d)).
  { intros d. unfold window_ok, empty_window. cbn. lia. }
  split; [|split].
  - intros n tsk s s'. apply scan_step_bounded, Hmax.
  - intros tasks d s' Hloop.
    exact (scan_loop_bounded inv score sel b nTaskMax tasks Hmax 0 _ _
             (Hempty d) Hloop).
  - intros tasks d Hok.
    destruct (scan_loop_total inv score sel b nTaskMax tasks Hok 0
                (empty_window d)) as [s' Hloop].
    exists s'. split; [exact Hloop|].
    destruct (scan_loop_bounded inv score sel b nTaskMax tasks Hmax 0 _ _
                (Hempty d) Hloop) as [Hlen Hnum].
    lia.
Qed.

End Window.

(** ** Ranking in adaptive mode *)

Section AdaptiveRanking.
Context {K : kernel}.



Lemma insert_before_cons (k : nat) (p q : task_ptr) (l : list task_ptr) :
  insert_before (S k) p (q :: l) = q :: insert_before k p l.
Proof. reflexivity. Qed.









End AdaptiveRanking.

(** ** The terminator *)

Section Terminator.
Context {K : kernel}.

Lemma killed_app (p : task_ptr) (l1 l2 : list event) :
  killed p (l1 ++ l2) <-> killed p l1 \/ killed p l2.
Proof. unfold killed. rewrite !in_app_iff. tauto. Qed.

Lemma scan_step_discards (inv : invocation) (score sel : Z) (b : bool)
    (nTaskMax : Z) (n : nat) (tsk p : task_ptr) (s : scan_state) (adj rss : Z) :
  find_lock_task_mm inv tsk = Some p ->
  signal (scan_mem inv p) = Some adj ->
  mm (scan_mem inv p) = Some rss ->
  adj < score ->
  exists s',
    scan_step inv score sel b nTaskMax n tsk s = Some s'
    /\ ListHead s' = ListHead s /\ nTaskNum s' = nTaskNum s.
Proof.
  intros Hp Hsig Hmm Hlow. unfold scan_step.
  destruct (pf_kthread (scan_mem inv tsk)); [eauto|].
  destruct (test_task_flag (scan_mem inv) tsk tif_mm_released); [eauto|].
  destruct (test_task_flag (scan_mem inv) tsk tif_memdie); [eauto|].
  rewrite Hp, Hsig, Hmm.
  destruct (exempted (comm (scan_mem inv p)) score);
    [eexists; split; [reflexivity|]; cbn; auto|].
  replace (adj <? score) with true by (symmetry; apply Z.ltb_lt; lia).
  eexists; split; [reflexivity|]; cbn; auto.
Qed.

Lemma terminate_step_stale (inv : invocation) (score : Z) (b : bool)
    (nTaskMax : Z) (p : task_ptr) (k : kill_state) (adj : Z) :
  signal (tasks_now k p) = Some adj ->
  adj < score ->
  let k' := terminate_step inv score b nTaskMax p k in
  trace k' = trace k /\ rem k' = rem k
  /\ tasks_now k' = tasks_now k /\ globals k' = globals k.
Proof.
  intros Hsig Hlow. unfold terminate_step. rewrite Hsig.
  replace (adj <? score) with true by (symmetry; apply Z.ltb_lt; lia).
  destruct (tif_memdie (tasks_now k p)); cbn; auto.
Qed.

Lemma signal_set_memdie (m : memory) (p q : task_ptr) :
  signal (set_tsk_thread_flag_MEMDIE m p q) = signal (m q).
Proof.
  unfold set_tsk_thread_flag_MEMDIE. destruct (Nat.eqb q p); reflexivity.
Qed.

Lemma terminate_step_kills_above (inv : invocation) (score : Z) (b : bool)
    (nTaskMax : Z) (p : task_ptr) (k : kill_state) :
  kills_above inv score k ->
  kills_above inv score (terminate_step inv score b nTaskMax p k).
Proof.
  intros [Hsig Hkill]. unfold terminate_step.
  destruct (tif_memdie (tasks_now k p)); [split; assumption|].
  set (adj := match signal (tasks_now k p) with
              | Some a => a
              | None => selected_oom_score_adj k
              end).
  destruct (Z.ltb_spec adj score) as [Hlt|Hge]; [split; assumption|].
  destruct (pid (tasks_now k p) =? current_pid inv); [split; assumption|].
  match goal with
  | |- context [if ?c then _ else _] => destruct c
  end; [split; assumption|].
  unfold kill. split; cbn [tasks_now trace].
  - intros q. rewrite signal_set_memdie. apply Hsig.
  - intros p' adj' Hk Hs. apply killed_app in Hk. destruct Hk as [Hk|Hk].
    + eapply Hkill; eassumption.
    + assert (p' = p) as ->.
      { destruct Hk as [Hk|Hk]; cbn in Hk;
          repeat destruct Hk as [Hk|Hk]; congruence || contradiction. }
      subst adj. rewrite Hsig, Hs in Hge. exact Hge.
Qed.

Lemma terminate_loop_kills_above (inv : invocation) (score : Z) (b : bool)
    (nTaskMax : Z) (l : list task_ptr) :
  forall k,
    kills_above inv score k ->
    kills_above inv score (terminate_loop inv score b nTaskMax l k).
Proof.
  induction l as [|p l IH]; intros k Hk; cbn [terminate_loop]; [exact Hk|].
  apply IH, terminate_step_kills_above, Hk.
Qed.

Lemma epilogue_adds_no_kill (inv : invocation) (score : Z) (k : kill_state)
    (p : task_ptr) :
  killed p (snd (epilogue inv score k)) -> killed p (trace k).
Proof.
  unfold epilogue.
  repeat match goal with
         | |- context [if ?c then _ else _] => destruct c
         end;
    cbn [snd]; rewrite ?killed_app; unfold killed; cbn [In];
    intuition discriminate.
Qed.

Lemma scan_and_kill_kills_above (st : lmk_state) (inv : invocation)
    (score : Z) (b : bool) (r : scan_result) (p : task_ptr) (adj : Z) :
  scan_and_kill st inv score b = Some r ->
  killed p (events r) ->
  signal (kill_mem inv p) = Some adj ->
  score <= adj.
Proof.
  unfold scan_and_kill. intros Hrun Hk Hsig.
  match type of Hrun with
  | match ?loop with _ => _ end = _ => destruct loop as [s|]; [|discriminate]
  end.
  match type of Hrun with
  | context [terminate_loop ?i ?sc ?bb ?nm ?l ?k0] =>
      pose proof (terminate_loop_kills_above i sc bb nm l k0) as Hinv;
      set (kf := terminate_loop i sc bb nm l k0) in *
  end.
  match type of Hrun with
  | context [epilogue inv score ?k1] =>
      pose proof (epilogue_adds_no_kill inv score k1 p) as Hepi;
      destruct (epilogue inv score k1) as [st' tr]
  end.
  inversion Hrun; subst r; cbn [events] in Hk. cbn [snd trace] in Hepi.
  specialize (Hepi Hk). apply killed_app in Hepi.
  destruct Hepi as [Hepi|Hepi];
    [|unfold killed in Hepi; cbn in Hepi; intuition discriminate].
  destruct Hinv as [_ Hinv].
  - split; cbn [tasks_now trace]; [reflexivity|].
    intros p' adj' Hk' _. unfold killed in Hk'; cbn in Hk'.
    intuition discriminate.
  - eapply Hinv; eassumption.
Qed.

Lemma scan_and_kill_total (st : lmk_state) (inv : invocation) (score : Z)
    (b : bool) :
  Forall (derefs_ok inv) (for_each_process inv) ->
  exists r, scan_and_kill st inv score b = Some r.
Proof.
  intros Hok. unfold scan_and_kill.
  match goal with
  | |- context [scan_loop ?i ?sc ?sl ?bb ?nm ?n ?l ?s0] =>
      destruct (scan_loop_total i sc sl bb nm l Hok n s0) as [s ->]
  end.
  match goal with
  | |- context [epilogue inv score ?k1] => destruct (epilogue inv score k1)
  end.
  eexists; reflexivity.
Qed.

Lemma lowmem_scan_total (P : params) (st : lmk_state) (inv : invocation) :
  Forall (derefs_ok inv) (for_each_process inv) ->
  exists r, lowmem_scan P st inv = Some r.
Proof.
  intros Hok. destruct (lock_interrupted inv) eqn:Hlock.
  - rewrite lowmem_scan_interrupted by assumption. eauto.
  - rewrite (lowmem_scan_gates P st inv Hlock). cbv zeta.
    repeat match goal with
           | |- context [if ?c then _ else _] => destruct c
           end; eauto using scan_and_kill_total.
Qed.

(** C2: a process whose score is below [min_score_adj] never enters the
    window; a window entry whose score is below [min_score_adj] when the
    terminator reads it is passed over without being marked, signalled or
    counted; and a call, which returns unless it dereferences a NULL
    [signal] or [mm], marks or signals no task whose score at that time is
    below the score the call resolved. *)
Theorem never_kills_below_min_score (P : params) (st : lmk_state)
    (inv : invocation) :
  (forall score sel b nTaskMax n tsk p s adj rss,
      find_lock_task_mm inv tsk = Some p ->
      signal (scan_mem inv p) = Some adj ->
      mm (scan_mem inv p) = Some rss ->
      adj < score ->
      exists s',
        scan_step inv score sel b nTaskMax n tsk s = Some s'
        /\ ListHead s' = ListHead s /\ nTaskNum s' = nTaskNum s)
  /\ (forall score b nTaskMax p k adj,
         signal (tasks_now k p) = Some adj ->
         adj < score ->
         let k' := terminate_step inv score b nTaskMax p k in
         trace k' = trace k /\ rem k' = rem k
         /\ tasks_now k' = tasks_now k /\ globals k' = globals k)
  /\ (Forall (derefs_ok inv) (for_each_process inv) ->
      exists r, lowmem_scan P st inv = Some r)
  /\ (forall r p adj,
         lowmem_scan P st inv = Some r ->
         killed p (events r) ->
         signal (kill_mem inv p) = Some adj ->
         clamped_min_score_adj P st inv <= adj).
Proof.
  split; [|split; [|split]].
  - intros; eapply scan_step_discards; eassumption.
  - intros; eapply terminate_step_stale; eassumption.
  - apply lowmem_scan_total.
  - intros r p adj Hrun Hk Hsig.
    destruct (lock_interrupted inv) eqn:Hlock.
    + rewrite lowmem_scan_interrupted in Hrun by assumption.
      inversion Hrun; subst r. unfold killed in Hk; cbn in Hk.
      intuition discriminate.
    + rewrite (lowmem_scan_gates P st inv Hlock) in Hrun. cbv zeta in Hrun.
      destruct (post_kill_gate P st inv);
        [|destruct (kill_nothing_gate P st inv);
          [|destruct (clamped_min_score_adj P st inv =? OOM_SCORE_ADJ_MAX + 1)]];
        try (inversion Hrun; subst r; unfold killed in Hk; cbn in Hk;
             intuition discriminate).
      eapply scan_and_kill_kills_above; eassumption.
Qed.


End Terminator.

(** ** Adaptive mode: order by size, and the 80 MB floor *)


(** * The statements of the design document that the code does not satisfy *)

(** C3 as the document has it, "without taking the scan lock", fails: a
    call stopped by the post-kill gate has taken the mutex. *)
Lemma cooldown_skip_holds_scan_mutex :
  lock_interrupted low_memory_call = false
  /\ justkilled_adj (throttle cooling_down)
     <= @clamped_min_score_adj msm8953 default_params cooling_down
          low_memory_call
  /\ @time_before_eq msm8953 (jiffies low_memory_call)
       (lowmem_justkilled_timeout (throttle cooling_down)) = true
  /\ ~ (exists r,
           @lowmem_scan msm8953 default_params cooling_down low_memory_call
           = Some r
           /\ reclaimed r = 0
           /\ ~ In mutex_lock_scan_mutex (events r)).
Proof.
  split; [reflexivity|]. split; [vm_compute; discriminate|].
  split; [reflexivity|].
  intros (r & Hrun & _ & Hno). vm_compute in Hrun.
  inversion Hrun; subst r. apply Hno. cbn. auto.
Qed.


(** C8 as the document has it, "below the last entry of the minfree table",
    fails when fewer adj entries than minfree entries are in use: with two
    adj and four minfree entries, 3000 free pages are below the last minfree
    entry 16384 and 5000 file-backed pages are below [vmpressure_file_min],
    and an event of level 98 leaves the flag unarmed, the entry compared
    being [lowmem_minfree[1] = 2048]. *)
Lemma pressure_event_compares_entry_in_use :
  enable_adaptive_lmk short_adj_params <> 0
  /\ lowmem_minfree_size short_adj_params = 4
  /\ array_get (lowmem_minfree short_adj_params)
       (lowmem_minfree_size short_adj_params - 1) = 16384
  /\ NR_FREE_PAGES low_counters < 16384
  /\ file_backed_pages low_counters < vmpressure_file_min short_adj_params
  /\ lmk_vmpressure_notifier short_adj_params low_counters 98 0
     = Some (0, 0).
Proof.
  split; [discriminate|]. repeat split; vm_compute; reflexivity.
Qed.

(** C9 as the document has it, "increment an escape counter", fails: after
    an interrupted wait all three escape counters are what they were. *)
Lemma interrupted_lock_counts_no_escape :
  lock_interrupted interrupted_call = true
  /\ ~ (exists r,
           @lowmem_scan msm8953 default_params initial_state interrupted_call
           = Some r
           /\ reclaimed r = 0
           /\ (lowmem_escape1_count (stats (state_after r))
               <> lowmem_escape1_count (stats initial_state)
               \/ lowmem_escape2_count (stats (state_after r))
                  <> lowmem_escape2_count (stats initial_state)
               \/ lowmem_escape3_count (stats (state_after r))
                  <> lowmem_escape3_count (stats initial_state))).
Proof.
  split; [reflexivity|].
  intros (r & Hrun & _ & Hcount). vm_compute in Hrun.
  inversion Hrun; subst r. cbn in Hcount. intuition congruence.
Qed.

(** C10 as stated, "only diagnostic counters are modified", fails: a call
    stopped by the post-kill gate has cleared an armed [shift_adj]. *)
Lemma early_exit_clears_shift_adj :
  @exits_early msm8953 adaptive_params cooling_down_armed low_memory_call
  = true
  /\ ~ (exists r,
           @lowmem_scan msm8953 adaptive_params cooling_down_armed
             low_memory_call = Some r
           /\ throttle (state_after r) = throttle cooling_down_armed
           /\ shift_adj (state_after r) = shift_adj cooling_down_armed).
Proof.
  split; [reflexivity|].
  intros (r & Hrun & _ & Hshift). vm_compute in Hrun.
  inversion Hrun; subst r. cbn in Hshift. discriminate.
Qed.

(** * The theorems at concrete inputs *)

(** C1 on the default table: 3000 free and 5000 file pages resolve to 12,
    30000 and 18000 to the sentinel, and that call reclaims nothing; with
    only two adj entries in use 3000 and 5000 resolve to the sentinel. *)
Lemma threshold_resolution_witness :
  fst (@resolve_threshold msm8953 default_params 3000 5000) = 12
  /\ fst (@resolve_threshold msm8953 default_params 30000 18000) = 1001
  /\ fst (@resolve_threshold msm8953 short_adj_params 3000 5000) = 1001
  /\ exists r,
       @lowmem_scan msm8953 default_params initial_state ample_memory_call
       = Some r
       /\ reclaimed r = 0
       /\ existsb is_kill (events r) = false
       /\ tasks_after r = big_and_small.
Proof.
  split; [|split; [|split]].
  - destruct (@threshold_resolution_first_match msm8953 default_params 3000 5000)
      as [H _].
    apply (H 3); [vm_compute; split; [discriminate|reflexivity]
                 |vm_compute; split; reflexivity|].
    intros j Hj [Hfree Hfile].
    assert (j = 0 \/ j = 1 \/ j = 2) as [-> | [-> | ->]] by lia;
      vm_compute in Hfree, Hfile;
      first [discriminate Hfree|discriminate Hfile].
  - destruct (@threshold_resolution_first_match msm8953 default_params
                30000 18000) as (_ & H & _).
    apply H. intros j Hj [Hfree Hfile].
    assert (Hj4 : 0 <= j < 4) by exact Hj.
    assert (j = 0 \/ j = 1 \/ j = 2 \/ j = 3) as [-> | [-> | [-> | ->]]]
      by lia; vm_compute in Hfree, Hfile;
      first [discriminate Hfree|discriminate Hfile].
  - destruct (@threshold_resolution_first_match msm8953 short_adj_params
                3000 5000) as (_ & H & _).
    apply H. intros j Hj [Hfree Hfile].
    assert (Hj2 : 0 <= j < 2) by exact Hj.
    assert (j = 0 \/ j = 1) as [-> | ->] by lia;
      vm_compute in Hfree, Hfile;
      first [discriminate Hfree|discriminate Hfile].
  - destruct (@threshold_resolution_first_match msm8953 default_params
                30000 18000) as (_ & _ & _ & _ & H).
    apply H; [reflexivity| |reflexivity].
    intros j Hj [Hfree Hfile].
    assert (Hj4 : 0 <= j < 4) by exact Hj.
    assert (j = 0 \/ j = 1 \/ j = 2 \/ j = 3) as [-> | [-> | [-> | ->]]]
      by lia; vm_compute in Hfree, Hfile;
      first [discriminate Hfree|discriminate Hfile].
Defined.

(** C8 with 1000 free and 1940 file-backed pages: level 99 arms the flag,
    level 50 clears it; with two adj entries in use and 3000 free pages the
    entry compared is [lowmem_minfree[1]] and level 99 does not arm. *)
Lemma vmpressure_event_witness :
  lmk_vmpressure_notifier adaptive_params scarce_counters 99 0 = Some (0, 1)
  /\ lmk_vmpressure_notifier adaptive_params scarce_counters 50 1
     = Some (0, 0)
  /\ lmk_vmpressure_notifier short_adj_params low_counters 99 0
     = Some (0, 0).
Proof.
  assert (Hr1 : int_range (NR_FREE_PAGES scarce_counters))
    by (unfold int_range; cbn; lia).
  assert (Hr2 : int_range (file_backed_pages scarce_counters))
    by (unfold int_range; cbn; lia).
  assert (Hr3 : int_range (NR_FREE_PAGES low_counters))
    by (unfold int_range; cbn; lia).
  assert (Hr4 : int_range (file_backed_pages low_counters))
    by (unfold int_range; cbn; lia).
  assert (Hon : enable_adaptive_lmk adaptive_params <> 0) by discriminate.
  assert (Hon' : enable_adaptive_lmk short_adj_params <> 0) by discriminate.
  assert (H99 : 98 <= 99) by lia.
  assert (H50 : 50 < 98) by lia.
  assert (Hlen : List.length (lowmem_minfree adaptive_params) = 6%nat)
    by reflexivity.
  assert (Hlen' : List.length (lowmem_minfree short_adj_params) = 6%nat)
    by reflexivity.
  assert (Hn : 0 < Z.min 6 (Z.min (lowmem_adj_size adaptive_params)
                                  (lowmem_minfree_size adaptive_params)))
    by reflexivity.
  assert (Hn' : 0 < Z.min 6 (Z.min (lowmem_adj_size short_adj_params)
                                   (lowmem_minfree_size short_adj_params)))
    by reflexivity.
  split; [|split].
  - destruct (vmpressure_event_arms_or_clears adaptive_params
                scarce_counters 99 0) as (_ & _ & _ & H & _).
    rewrite (H Hon H99 Hlen Hn Hr1 Hr2). reflexivity.
  - destruct (vmpressure_event_arms_or_clears adaptive_params
                scarce_counters 50 1) as (_ & _ & _ & _ & _ & H).
    rewrite (H Hon H50). reflexivity.
  - destruct (vmpressure_event_arms_or_clears short_adj_params
                low_counters 99 0) as (_ & _ & _ & H & _).
    rewrite (H Hon' H99 Hlen' Hn' Hr3 Hr4). reflexivity.
Defined.

(** C3: the same call is skipped inside the window and kills after it. *)
Lemma post_kill_cooldown_witness :
  option_map reclaimed
    (@lowmem_scan msm8953 default_params cooling_down low_memory_call)
  = Some 0
  /\ option_map reclaimed
       (@lowmem_scan msm8953 default_params cooled_down low_memory_call)
     = Some 140800.
Proof.
  split.
  - destruct (@post_kill_cooldown_gate msm8953 default_params cooling_down
                low_memory_call)
      as [H _]; [reflexivity|vm_compute; discriminate|].
    destruct (H eq_refl) as [Hskip _]. rewrite Hskip. reflexivity.
  - destruct (@post_kill_cooldown_gate msm8953 default_params cooled_down
                low_memory_call)
      as [_ H]; [reflexivity|vm_compute; discriminate|].
    rewrite H by reflexivity. vm_compute. reflexivity.
Defined.

(** C9 at the interrupted call. *)
Lemma interrupted_lock_witness :
  exists r,
    @lowmem_scan msm8953 default_params initial_state interrupted_call = Some r
    /\ reclaimed r = 0
    /\ events r = []
    /\ tasks_after r = big_and_small
    /\ stats (state_after r) = stats initial_state
    /\ throttle (state_after r) = throttle initial_state
    /\ shift_adj (state_after r) = shift_adj initial_state.
Proof.
  apply (@interrupted_lock_aborts msm8953 default_params initial_state
           interrupted_call).
  reflexivity.
Defined.

(** C10 at a call stopped by the post-kill gate with the flag armed. *)
Lemma early_exit_witness :
  exists r,
    @lowmem_scan msm8953 adaptive_params cooling_down_armed low_memory_call
    = Some r
    /\ reclaimed r = 0
    /\ throttle (state_after r) = throttle cooling_down_armed
    /\ diag (state_after r)
       = set_dumppid 0 (set_dumppid_tasksize 0 (diag cooling_down_armed))
    /\ shift_adj (state_after r) = 0
    /\ tasks_after r = big_and_small
    /\ existsb is_kill (events r) = false.
Proof.
  apply (@early_exit_keeps_throttle msm8953 adaptive_params cooling_down_armed
           low_memory_call).
  reflexivity.
Defined.

(** C6 on three processes at score 12, window size 6. *)
Lemma window_bound_witness :
  exists s',
    @scan_loop msm8953 low_memory_call_fg 12 12 false
      (choose_nTaskMax false 12) 0 [1; 2; 3]%nat
      (empty_window (diag initial_state)) = Some s'
    /\ ListHead s' = [2; 1]%nat
    /\ Z.of_nat (List.length (ListHead s')) = nTaskNum s'
    /\ nTaskNum s' <= 6.
Proof.
  destruct (@window_never_exceeds_nTaskMax msm8953 low_memory_call_fg
              12 12 false) as (_ & H & _).
  eexists. split; [reflexivity|]. split; [reflexivity|].
  apply (H [1; 2; 3]%nat (diag initial_state)). reflexivity.
Defined.

(** C2: the foreground process of score 0 is neither ranked nor killed at
    score 12, and the victims of that call have score 900. *)
Lemma never_kills_below_witness :
  (exists s',
      @scan_step msm8953 low_memory_call_fg 12 12 false 6 2 3%nat
        (empty_window (diag initial_state)) = Some s'
      /\ ListHead s' = [] /\ nTaskNum s' = 0)
  /\ trace (@terminate_step msm8953 low_memory_call_fg 12 false 6 3%nat
              (fresh_kill_state 12 initial_state with_foreground))
     = [mutex_lock_scan_mutex]
  /\ @clamped_min_score_adj msm8953 default_params initial_state
       low_memory_call_fg <= 900.
Proof.
  destruct (@never_kills_below_min_score msm8953 default_params initial_state
              low_memory_call_fg)
    as (H1 & H2 & _ & H3).
  split; [|split].
  - apply (H1 12 12 false 6 2%nat 3%nat 3%nat
             (empty_window (diag initial_state)) 0 3000);
      [reflexivity|reflexivity|reflexivity|lia].
  - destruct (H2 12 false 6 3%nat
                (fresh_kill_state 12 initial_state with_foreground) 0)
      as [Ht _]; [reflexivity|lia|exact Ht].
  - assert (Hrun : exists r,
               @lowmem_scan msm8953 default_params initial_state
                 low_memory_call_fg = Some r
               /\ killed 1%nat (events r)).
    { vm_compute. eexists. split; [reflexivity|]. left. cbn. auto. }
    destruct Hrun as (r & Hrun & Hk).
    apply (H3 r 1%nat 900 Hrun Hk). vm_compute. reflexivity.
Defined.



(** * Further properties of the reclaim call *)

Section FullCall.
Context {K : kernel}.

Lemma scan_and_kill_unfold (st : lmk_state) (inv : invocation) (score : Z)
    (b : bool) :
  scan_and_kill st inv score b
  = match window_of_call st inv score b with
    | None => None
    | Some s =>
        let k := after_kills st inv score b s in
        let e :=
          epilogue inv score
            {| selected := selected k;
               selected_oom_score_adj := selected_oom_score_adj k;
               selected_tasksize := selected_tasksize k; rem := rem k;
               globals := globals k; tasks_now := tasks_now k;
               trace := trace k ++ [mutex_unlock_scan_mutex] |} in
        Some {| reclaimed := rem k; state_after := fst e;
                tasks_after := tasks_now k; events := snd e |}
    end.
Proof.
  unfold scan_and_kill, window_of_call, diag_before_walk, empty_window.
  match goal with
  | |- match ?loop with _ => _ end = _ => destruct loop as [s|]; [|reflexivity]
  end.
  cbv zeta. unfold after_kills, fresh_kill_state, state_after_walk.
  match goal with
  | |- context [epilogue inv score ?k1] => destruct (epilogue inv score k1)
  end.
  reflexivity.
Qed.

End FullCall.

Section WalkFacts.
Context {K : kernel}.

Lemma event_eq_dec (a b : event) : {a = b} + {a <> b}.
Proof. decide equality; apply Nat.eq_dec. Defined.

Lemma killed_dec (p : task_ptr) (tr : list event) :
  {killed p tr} + {~ killed p tr}.
Proof.
  unfold killed.
  destruct (in_dec event_eq_dec (set_TIF_MEMDIE p) tr);
    destruct (in_dec event_eq_dec (send_sig_SIGKILL p) tr); tauto.
Defined.

Lemma killed_pair (p q : task_ptr) :
  killed q [set_TIF_MEMDIE p; send_sig_SIGKILL p] <-> q = p.
Proof.
  unfold killed; cbn. split.
  - intros [[H|[H|[]]]|[H|[H|[]]]]; congruence.
  - intros ->. auto.
Qed.

Lemma kills_app (l1 l2 : list event) : kills (l1 ++ l2) = (kills l1 + kills l2)%nat.
Proof. unfold kills. now rewrite filter_app, length_app. Qed.

Lemma kills_of_app (p : task_ptr) (l1 l2 : list event) :
  kills_of p (l1 ++ l2) = (kills_of p l1 + kills_of p l2)%nat.
Proof. unfold kills_of. now rewrite filter_app, length_app. Qed.

Lemma kills_of_zero (p : task_ptr) (tr : list event) :
  ~ In (send_sig_SIGKILL p) tr -> kills_of p tr = 0%nat.
Proof.
  unfold kills_of. induction tr as [|e tr IH]; intros Hn; [reflexivity|].
  cbn [filter]. destruct e; cbn [is_sigkill_of];
    try (apply IH; intros H; apply Hn; right; exact H).
  destruct (Nat.eqb_spec p0 p) as [->|Hne].
  - exfalso. apply Hn. left. reflexivity.
  - apply IH; intros H; apply Hn; right; exact H.
Qed.

Lemma kills_zero_no_kill (tr : list event) :
  kills tr = 0%nat -> forall p, ~ In (send_sig_SIGKILL p) tr.
Proof.
  unfold kills. induction tr as [|e tr IH]; intros Hz p Hin; [exact Hin|].
  cbn [filter] in Hz. destruct Hin as [->|Hin].
  - cbn in Hz. discriminate.
  - destruct (is_sigkill e); [cbn in Hz; discriminate|]. eapply IH; eauto.
Qed.

(** The four tests of the walk, read off [accepted]. *)
Lemma accepted_true (inv : invocation) (score : Z) (b : bool) (p : task_ptr)
    (k : kill_state) :
  accepted inv score b p k = true ->
  tif_memdie (tasks_now k p) = false
  /\ (forall a, signal (tasks_now k p) = Some a -> score <= a)
  /\ pid (tasks_now k p) <> current_pid inv
  /\ (b = true -> forall rss, mm (tasks_now k p) = Some rss ->
                              below_80MB (to_int rss) = false).
Proof.
  unfold accepted. intros H.
  apply andb_prop in H; destruct H as [H H4].
  apply andb_prop in H; destruct H as [H H3].
  apply andb_prop in H; destruct H as [H1 H2].
  apply negb_true_iff in H1, H2, H3, H4.
  split; [exact H1|]. split; [|split].
  - intros a Ha. rewrite Ha in H2. apply Z.ltb_ge in H2. exact H2.
  - apply Z.eqb_neq. exact H3.
  - intros -> rss Hrss. rewrite Hrss in H4. exact H4.
Qed.

Lemma terminate_step_cases (inv : invocation) (score : Z) (b : bool)
    (nTaskMax : Z) (p : task_ptr) (k : kill_state) :
  let k' := terminate_step inv score b nTaskMax p k in
  (accepted inv score b p k = false
   /\ trace k' = trace k /\ rem k' = rem k
   /\ tasks_now k' = tasks_now k /\ globals k' = globals k)
  \/ (accepted inv score b p k = true
      /\ trace k' = trace k ++ [set_TIF_MEMDIE p; send_sig_SIGKILL p]
      /\ tasks_now k' = set_tsk_thread_flag_MEMDIE (tasks_now k) p
      /\ throttle (globals k')
         = throttle_after_kill inv score nTaskMax (throttle (globals k))
      /\ shift_adj (globals k') = shift_adj (globals k)
      /\ stats (globals k') = incr_kill_count (stats (globals k))
      /\ rem k'
         = to_ulong (rem k
                     + match mm (tasks_now k p) with
                       | Some rss => to_int rss
                       | None => selected_tasksize k
                       end)).
Proof.
  unfold terminate_step, accepted.
  destruct (tif_memdie (tasks_now k p)); cbn [negb andb]; [left; cbn; auto|].
  destruct (_ <? score); cbn [negb andb]; [left; cbn; auto|].
  destruct (pid (tasks_now k p) =? current_pid inv); cbn [negb andb];
    [left; cbn; auto|].
  destruct (b && below_80MB _); cbn [negb]; [left; cbn; auto|].
  right. unfold kill, throttle_after_kill. cbn. repeat split.
Qed.

Lemma set_memdie_eq (m : memory) (p : task_ptr) :
  set_tsk_thread_flag_MEMDIE m p p = marked (m p).
Proof. unfold set_tsk_thread_flag_MEMDIE. now rewrite Nat.eqb_refl. Qed.

Lemma set_memdie_neq (m : memory) (p q : task_ptr) :
  q <> p -> set_tsk_thread_flag_MEMDIE m p q = m q.
Proof.
  intros Hne. unfold set_tsk_thread_flag_MEMDIE.
  destruct (Nat.eqb_spec q p); [contradiction|reflexivity].
Qed.

Lemma terminate_step_memory_inv (inv : invocation) (score : Z) (b : bool)
    (nTaskMax : Z) (p : task_ptr) (done : list task_ptr) (k : kill_state) :
  walk_memory_inv inv b done k ->
  walk_memory_inv inv b (done ++ [p]) (terminate_step inv score b nTaskMax p k).
Proof.
  intros (Hpair & Hmark & Hsame & Hfact).
  destruct (terminate_step_cases inv score b nTaskMax p k)
    as [(_ & Htr & _ & Hmem & _)|(Hacc & Htr & Hmem & _)];
    unfold walk_memory_inv; rewrite Htr, Hmem.
  - repeat split; auto; try (apply Hfact; assumption).
    apply in_or_app; left. apply Hfact; assumption.
  - apply accepted_true in Hacc. destruct Hacc as (Hdie & _ & Hpid & Hfloor).
    assert (Hfresh : ~ killed p (trace k)).
    { intros Hk. rewrite (Hmark p Hk) in Hdie. discriminate. }
    rewrite (Hsame p Hfresh) in Hdie, Hpid, Hfloor.
    split; [|split; [|split]].
    + intros q Hq. apply killed_app in Hq. apply in_or_app.
      destruct Hq as [Hq|Hq]; [left; auto|].
      apply killed_pair in Hq. subst q. right. cbn. auto.
    + intros q Hq. apply killed_app in Hq.
      destruct (Nat.eq_dec q p) as [->|Hne].
      * rewrite set_memdie_eq, (Hsame p Hfresh). reflexivity.
      * rewrite set_memdie_neq by assumption.
        destruct Hq as [Hq|Hq]; [auto|]. apply killed_pair in Hq. contradiction.
    + intros q Hq.
      assert (Hne : q <> p).
      { intros ->. apply Hq. apply killed_app. right. apply killed_pair.
        reflexivity. }
      rewrite set_memdie_neq by assumption. apply Hsame.
      intros Hk. apply Hq. apply killed_app. left. exact Hk.
    + intros q Hq. apply killed_app in Hq. destruct Hq as [Hq|Hq].
      * destruct (Hfact q Hq) as (Hin & Hrest). split; [|exact Hrest].
        apply in_or_app; left; exact Hin.
      * apply killed_pair in Hq. subst q.
        split; [apply in_or_app; right; cbn; auto|]. auto.
Qed.

Lemma terminate_step_count_inv (inv : invocation) (score : Z) (b : bool)
    (nTaskMax : Z) (p : task_ptr) (done : list task_ptr) (k : kill_state) :
  walk_memory_inv inv b done k ->
  walk_count_inv done k ->
  walk_count_inv (done ++ [p]) (terminate_step inv score b nTaskMax p k).
Proof.
  intros (Hpair & Hmark & Hsame & Hfact) (Hone & Hall).
  destruct (terminate_step_cases inv score b nTaskMax p k)
    as [(_ & Htr & _)|(Hacc & Htr & _)];
    unfold walk_count_inv; rewrite Htr, length_app; cbn [List.length].
  - split; [exact Hone|lia].
  - apply accepted_true in Hacc. destruct Hacc as (Hdie & _).
    assert (Hfresh : ~ In (send_sig_SIGKILL p) (trace k)).
    { intros Hin.
      assert (Hk : killed p (trace k)) by (right; exact Hin).
      rewrite (Hmark p Hk) in Hdie. discriminate. }
    split.
    + intros q. rewrite kills_of_app. unfold kills_of at 2. cbn.
      destruct (Nat.eqb_spec p q) as [<-|Hne]; cbn.
      * rewrite (kills_of_zero p _ Hfresh). lia.
      * specialize (Hone q). lia.
    + rewrite kills_app. unfold kills at 2. cbn. lia.
Qed.

Lemma to_ulong_idem_add (a b : Z) : to_ulong (to_ulong a + b) = to_ulong (a + b).
Proof. unfold to_ulong. now rewrite Zplus_mod_idemp_l. Qed.

Lemma terminate_step_state_inv (inv : invocation) (score : Z) (b : bool)
    (nTaskMax : Z) (st0 : lmk_state) (p : task_ptr) (k : kill_state) :
  walk_state_inv inv score nTaskMax st0 k ->
  walk_state_inv inv score nTaskMax st0
    (terminate_step inv score b nTaskMax p k).
Proof.
  intros (Hshift & Hsc & He1 & He2 & He3 & Hzero & Hpos).
  destruct (terminate_step_cases inv score b nTaskMax p k)
    as [(_ & Htr & Hrem & Hmem & Hg)
       |(_ & Htr & Hmem & Hthr & Hsh & Hst & Hrem)];
    unfold walk_state_inv.
  - rewrite Htr, Hrem, Hmem, Hg. repeat split; auto; try (apply Hzero; assumption);
      apply Hpos; assumption.
  - rewrite Htr, Hthr, Hsh, Hst, kills_app.
    assert (Hone : kills [set_TIF_MEMDIE p; send_sig_SIGKILL p] = 1%nat)
      by reflexivity.
    rewrite Hone.
    unfold incr_kill_count; cbn [lowmem_scan_count lowmem_escape1_count
      lowmem_escape2_count lowmem_escape3_count lowmem_kill_count].
    split; [exact Hshift|]. split; [exact Hsc|]. split; [exact He1|].
    split; [exact He2|]. split; [exact He3|].
    split; [intros Habs; exfalso; lia|]. intros _.
    destruct (Nat.eq_dec (kills (trace k)) 0) as [Hz|Hnz].
    + destruct (Hzero Hz) as (Hg & _). rewrite Hg, Hz. split; reflexivity.
    + destruct Hpos as [Hthr0 Hcnt]; [lia|].
      rewrite Hthr0, Hcnt, to_ulong_idem_add. split; [reflexivity|].
      f_equal. lia.
Qed.

End WalkFacts.

Section WalkAndEpilogue.
Context {K : kernel}.

Lemma terminate_loop_invs (inv : invocation) (score : Z) (b : bool)
    (nTaskMax : Z) (st0 : lmk_state) (l : list task_ptr) :
  forall done k,
    walk_memory_inv inv b done k ->
    walk_count_inv done k ->
    walk_state_inv inv score nTaskMax st0 k ->
    let k' := terminate_loop inv score b nTaskMax l k in
    walk_memory_inv inv b (done ++ l) k'
    /\ walk_count_inv (done ++ l) k'
    /\ walk_state_inv inv score nTaskMax st0 k'.
Proof.
  induction l as [|p l IH]; intros done k Hm Hc Hs; cbn [terminate_loop].
  - rewrite app_nil_r. auto.
  - replace (done ++ p :: l) with ((done ++ [p]) ++ l)
      by (rewrite <- app_assoc; reflexivity).
    apply IH.
    + apply terminate_step_memory_inv, Hm.
    + apply terminate_step_count_inv; assumption.
    + apply terminate_step_state_inv, Hs.
Qed.

Lemma fresh_kill_state_invs (inv : invocation) (score : Z) (b : bool)
    (nTaskMax : Z) (st0 : lmk_state) :
  let k := fresh_kill_state score st0 (kill_mem inv) in
  walk_memory_inv inv b [] k
  /\ walk_count_inv [] k
  /\ walk_state_inv inv score nTaskMax st0 k.
Proof.
  assert (Hnone : forall q, ~ killed q [mutex_lock_scan_mutex]).
  { intros q [[H|[]]|[H|[]]]; discriminate. }
  cbv zeta. unfold walk_memory_inv, walk_count_inv, walk_state_inv,
    fresh_kill_state; cbn [trace tasks_now globals rem].
  split; [|split].
  - split; [|split; [|split]]; intros q Hq;
      try (exfalso; exact (Hnone q Hq)); reflexivity.
  - split; [intros q; cbn; lia|cbn; lia].
  - do 5 (split; [reflexivity|]).
    split; [intros _; repeat split|intros Hpos; cbn in Hpos; lia].
Qed.

Lemma after_kills_invs (st : lmk_state) (inv : invocation) (score : Z)
    (b : bool) (s : scan_state) :
  let k := after_kills st inv score b s in
  walk_memory_inv inv b (rev (ListHead s)) k
  /\ walk_count_inv (rev (ListHead s)) k
  /\ walk_state_inv inv score (choose_nTaskMax b score)
       (state_after_walk st s) k.
Proof.
  destruct (fresh_kill_state_invs inv score b (choose_nTaskMax b score)
              (state_after_walk st s)) as (Hm & Hc & Hs).
  exact (terminate_loop_invs inv score b (choose_nTaskMax b score)
           (state_after_walk st s) (rev (ListHead s)) [] _ Hm Hc Hs).
Qed.

(** The epilogue only appends events that are neither TIF_MEMDIE nor
    SIGKILL, and of the statics it leaves [shift_adj] and the counters. *)
Lemma epilogue_events (inv : invocation) (score : Z) (k : kill_state) :
  exists extra,
    snd (epilogue inv score k) = trace k ++ extra
    /\ kills extra = 0%nat
    /\ forall p, ~ killed p extra.
Proof.
  unfold epilogue.
  repeat match goal with
         | |- context [if ?c then _ else _] => destruct c
         end; cbn [snd]; rewrite <- ?app_assoc;
    (eexists; split; [try reflexivity; symmetry; apply app_nil_r|]);
    (split; [reflexivity|]);
    intros p; unfold killed; cbn [In app]; intuition discriminate.
Qed.

Lemma epilogue_state (inv : invocation) (score : Z) (k : kill_state) :
  shift_adj (fst (epilogue inv score k)) = shift_adj (globals k)
  /\ stats (fst (epilogue inv score k)) = stats (globals k)
  /\ throttle (fst (epilogue inv score k))
     = if negb (killNothing (throttle (globals k)) =? 0)
       then {| lowmem_killNothing_timeout :=
                 to_ulong (jiffies inv + to_int (2 * HZ));
               lowmem_justkilled_timeout :=
                 lowmem_justkilled_timeout (throttle (globals k));
               killNothing := killNothing (throttle (globals k));
               killNothing_adj := score;
               justkilled_adj := justkilled_adj (throttle (globals k)) |}
       else throttle (globals k).
Proof.
  unfold epilogue.
  repeat match goal with
         | |- context [if ?c then _ else _] => destruct c
         | |- context [match ?c with Some _ => _ | None => _ end] => destruct c
         end; cbn [fst shift_adj stats throttle]; auto.
Qed.

(** A call is either stopped at one of the four early exits or runs the walk
    over the processes and over the window. *)
Lemma lowmem_scan_cases (P : params) (st : lmk_state) (inv : invocation)
    (r : scan_result) :
  lowmem_scan P st inv = Some r ->
  (exits_early P st inv = true
   /\ reclaimed r = 0 /\ tasks_after r = kill_mem inv
   /\ (events r = [] \/ events r = [mutex_lock_scan_mutex; mutex_unlock_scan_mutex]))
  \/ (exits_early P st inv = false
      /\ lock_interrupted inv = false
      /\ scan_and_kill (state_at_gates P st inv) inv
           (clamped_min_score_adj P st inv)
           (negb (resolved_min_score_adj P inv =? clamped_min_score_adj P st inv))
         = Some r).
Proof.
  intros Hrun. unfold exits_early.
  destruct (lock_interrupted inv) eqn:Hlock.
  - rewrite lowmem_scan_interrupted in Hrun by assumption.
    inversion Hrun; subst r. left. cbn. auto.
  - rewrite (lowmem_scan_gates P st inv Hlock) in Hrun. cbv zeta in Hrun.
    cbn [orb].
    destruct (post_kill_gate P st inv);
      [inversion Hrun; subst r; left; cbn; auto|].
    destruct (kill_nothing_gate P st inv);
      [inversion Hrun; subst r; left; cbn; auto|].
    destruct (clamped_min_score_adj P st inv =? OOM_SCORE_ADJ_MAX + 1);
      [inversion Hrun; subst r; left; cbn; auto|].
    right. auto.
Qed.

(** What a call past the early exits returns, in terms of the window and of
    the state the walk over the window ends in. *)
Lemma scan_and_kill_result (st : lmk_state) (inv : invocation) (score : Z)
    (b : bool) (r : scan_result) :
  scan_and_kill st inv score b = Some r ->
  exists s extra,
    window_of_call st inv score b = Some s
    /\ reclaimed r = rem (after_kills st inv score b s)
    /\ tasks_after r = tasks_now (after_kills st inv score b s)
    /\ events r
       = trace (after_kills st inv score b s)
         ++ mutex_unlock_scan_mutex :: extra
    /\ kills extra = 0%nat
    /\ (forall p, ~ killed p extra)
    /\ shift_adj (state_after r)
       = shift_adj (globals (after_kills st inv score b s))
    /\ stats (state_after r) = stats (globals (after_kills st inv score b s))
    /\ throttle (state_after r)
       = (let t := throttle (globals (after_kills st inv score b s)) in
          if negb (killNothing t =? 0)
          then {| lowmem_killNothing_timeout :=
                    to_ulong (jiffies inv + to_int (2 * HZ));
                  lowmem_justkilled_timeout := lowmem_justkilled_timeout t;
                  killNothing := killNothing t;
                  killNothing_adj := score;
                  justkilled_adj := justkilled_adj t |}
          else t).
Proof.
  rewrite scan_and_kill_unfold.
  destruct (window_of_call st inv score b) as [s|]; [|discriminate].
  cbv zeta. intros Hrun. inversion Hrun; subst r; clear Hrun.
  cbn [reclaimed tasks_after events state_after].
  match goal with
  | |- context [epilogue inv score ?k1] =>
      destruct (epilogue_events inv score k1) as (extra & Hev & Hk0 & Hnk);
      destruct (epilogue_state inv score k1) as (Hsh & Hst & Hthr)
  end.
  cbn [trace globals] in Hev, Hsh, Hst, Hthr.
  exists s, extra. rewrite Hev, Hsh, Hst, Hthr, <- app_assoc.
  repeat split; auto.
Qed.

End WalkAndEpilogue.

Section Candidates.
Context {K : kernel}.

Lemma In_firstn_skipn_l (k : nat) (q : task_ptr) (l : list task_ptr) :
  In q (firstn k l) -> In q l.
Proof.
  intros H. rewrite <- (firstn_skipn k l). apply in_or_app. left. exact H.
Qed.

Lemma In_firstn_skipn_r (k : nat) (q : task_ptr) (l : list task_ptr) :
  In q (skipn k l) -> In q l.
Proof.
  intros H. rewrite <- (firstn_skipn k l). apply in_or_app. right. exact H.
Qed.

Lemma In_insert_before (k : nat) (p q : task_ptr) (l : list task_ptr) :
  In q (insert_before k p l) -> q = p \/ In q l.
Proof.
  unfold insert_before. intros H. apply in_app_or in H.
  destruct H as [H|[H|H]]; [right|left; auto|right].
  - eapply (In_firstn_skipn_l k); exact H.
  - eapply (In_firstn_skipn_r k); exact H.
Qed.

Lemma In_tl (q : task_ptr) (l : list task_ptr) : In q (tl l) -> In q l.
Proof. destruct l; cbn; auto. Qed.

Lemma In_rank (m : memory) (b : bool) (nTaskMax : Z) (ok : bool)
    (p q : task_ptr) (adj size : Z) (l : list task_ptr) (num : Z) :
  In q (fst (rank m b nTaskMax ok p adj size l num)) -> q = p \/ In q l.
Proof.
  unfold rank.
  destruct (num =? 0).
  - destruct ok; cbn [fst]; [intros [H|H]|]; auto.
  - destruct (if Nat.eqb _ _ then _ else _) as [k|]; [destruct ok|];
      match goal with
      | |- context [if ?c then _ else _] => destruct c
      end; cbn [fst]; intros H;
      repeat match goal with
             | H : In _ (tl _) |- _ => apply In_tl in H
             | H : In _ (insert_before _ _ _) |- _ => apply In_insert_before in H
             end; auto.
Qed.

(** A node a step adds to the window is the task [find_lock_task_mm] gave
    for a process that passed every filter. *)
Lemma scan_step_adds_candidates (inv : invocation) (score sel : Z) (b : bool)
    (nTaskMax : Z) (n : nat) (tsk : task_ptr) (s s' : scan_state) (q : task_ptr) :
  scan_step inv score sel b nTaskMax n tsk s = Some s' ->
  In q (ListHead s') ->
  In q (ListHead s)
  \/ (pf_kthread (scan_mem inv tsk) = false
      /\ test_task_flag (scan_mem inv) tsk tif_mm_released = false
      /\ test_task_flag (scan_mem inv) tsk tif_memdie = false
      /\ find_lock_task_mm inv tsk = Some q
      /\ exists adj rss,
           signal (scan_mem inv q) = Some adj
           /\ mm (scan_mem inv q) = Some rss
           /\ exempted (comm (scan_mem inv q)) score = false
           /\ score <= adj
           /\ 0 < to_int rss).
Proof.
  unfold scan_step. intros Hstep Hin.
  destruct (pf_kthread (scan_mem inv tsk)) eqn:Hk;
    [inversion Hstep; subst; auto|].
  destruct (test_task_flag (scan_mem inv) tsk tif_mm_released) eqn:Hr;
    [inversion Hstep; subst; auto|].
  destruct (test_task_flag (scan_mem inv) tsk tif_memdie) eqn:Hd;
    [inversion Hstep; subst; auto|].
  destruct (find_lock_task_mm inv tsk) as [p|] eqn:Hp;
    [|inversion Hstep; subst; auto].
  destruct (signal (scan_mem inv p)) as [adj|] eqn:Hsig; [|discriminate].
  destruct (mm (scan_mem inv p)) as [rss|] eqn:Hmm; [|discriminate].
  destruct (exempted (comm (scan_mem inv p)) score) eqn:Hex;
    [inversion Hstep; subst; cbn in Hin; auto|].
  destruct (Z.ltb_spec adj score); [inversion Hstep; subst; cbn in Hin; auto|].
  destruct (Z.leb_spec (to_int rss) 0);
    [inversion Hstep; subst; cbn in Hin; auto|].
  destruct (rank (scan_mem inv) b nTaskMax (kmalloc inv n) p adj (to_int rss)
              (ListHead s) (nTaskNum s)) as [l num] eqn:Hrank.
  inversion Hstep; subst s'; cbn [ListHead] in Hin.
  assert (Hq : q = p \/ In q (ListHead s)).
  { apply (In_rank (scan_mem inv) b nTaskMax (kmalloc inv n) p q adj
             (to_int rss) (ListHead s) (nTaskNum s)).
    rewrite Hrank. exact Hin. }
  destruct Hq as [->|Hq]; [right|left; exact Hq].
  repeat split; auto. exists adj, rss. repeat split; auto; lia.
Qed.

Lemma scan_loop_candidates (inv : invocation) (score sel : Z) (b : bool)
    (nTaskMax : Z) (tasks : list task_ptr) :
  forall n s s' q,
    scan_loop inv score sel b nTaskMax n tasks s = Some s' ->
    In q (ListHead s') ->
    In q (ListHead s)
    \/ exists tsk adj rss,
         In tsk tasks
         /\ pf_kthread (scan_mem inv tsk) = false
         /\ test_task_flag (scan_mem inv) tsk tif_mm_released = false
         /\ test_task_flag (scan_mem inv) tsk tif_memdie = false
         /\ find_lock_task_mm inv tsk = Some q
         /\ signal (scan_mem inv q) = Some adj
         /\ mm (scan_mem inv q) = Some rss
         /\ exempted (comm (scan_mem inv q)) score = false
         /\ score <= adj
         /\ 0 < to_int rss.
Proof.
  induction tasks as [|tsk tasks IH]; intros n s s' q Hloop Hin;
    cbn [scan_loop] in Hloop.
  - inversion Hloop; subst; auto.
  - destruct (scan_step inv score sel b nTaskMax n tsk s) as [s1|] eqn:Hstep;
      [|discriminate].
    destruct (IH _ _ _ _ Hloop Hin)
      as [H1|(t & adj & rss & Ht & Hrest)].
    + destruct (scan_step_adds_candidates _ _ _ _ _ _ _ _ _ _ Hstep H1)
        as [H0|(Hk & Hr & Hd & Hp & adj & rss & Hrest)]; [auto|].
      right. exists tsk, adj, rss. cbn [In]. tauto.
    + right. exists t, adj, rss. cbn [In]. tauto.
Qed.

Lemma window_of_call_candidates (st : lmk_state) (inv : invocation)
    (score : Z) (b : bool) (s : scan_state) (q : task_ptr) :
  window_of_call st inv score b = Some s ->
  In q (ListHead s) -> candidate inv score q.
Proof.
  unfold window_of_call, candidate. intros Hloop Hin.
  destruct (scan_loop_candidates _ _ _ _ _ _ _ _ _ _ Hloop Hin) as [H|H];
    [destruct H|exact H].
Qed.

Lemma window_of_call_bounded (st : lmk_state) (inv : invocation)
    (score : Z) (b : bool) (s : scan_state) :
  window_of_call st inv score b = Some s ->
  Z.of_nat (List.length (ListHead s)) <= choose_nTaskMax b score.
Proof.
  unfold window_of_call. intros Hloop.
  assert (Hok : window_ok (choose_nTaskMax b score)
                  (empty_window (diag_before_walk inv st))).
  { unfold window_ok, empty_window; cbn.
    pose proof (choose_nTaskMax_pos b score). lia. }
  destruct (scan_loop_bounded inv score score b (choose_nTaskMax b score)
              (for_each_process inv) (choose_nTaskMax_pos b score) 0 _ _
              Hok Hloop) as [Hlen Hnum].
  lia.
Qed.

End Candidates.

Section FullCallFacts.
Context {K : kernel}.

Lemma kills_of_pos (p : task_ptr) (tr : list event) :
  In (send_sig_SIGKILL p) tr -> (1 <= kills_of p tr)%nat.
Proof.
  unfold kills_of. induction tr as [|e tr IH]; intros Hin; [destruct Hin|].
  cbn [filter]. destruct Hin as [->|Hin].
  - cbn. rewrite Nat.eqb_refl. cbn. lia.
  - specialize (IH Hin). destruct (is_sigkill_of p e); cbn; lia.
Qed.

Lemma killed_unlock_extra (p : task_ptr) (tr extra : list event) :
  (forall q, ~ killed q extra) ->
  killed p (tr ++ mutex_unlock_scan_mutex :: extra) <-> killed p tr.
Proof.
  intros Hnk. rewrite killed_app. split; [|auto].
  intros [H|H]; [exact H|]. exfalso.
  change (mutex_unlock_scan_mutex :: extra)
    with ([mutex_unlock_scan_mutex] ++ extra) in H.
  apply killed_app in H. destruct H as [H|H]; [|exact (Hnk p H)].
  unfold killed in H; cbn in H. intuition discriminate.
Qed.

(** Everything the walk over the window establishes, stated on the result of
    a call past the early exits. *)
Lemma scan_and_kill_invs (st : lmk_state) (inv : invocation) (score : Z)
    (b : bool) (r : scan_result) :
  scan_and_kill st inv score b = Some r ->
  exists s,
    window_of_call st inv score b = Some s
    /\ (forall q,
           killed q (events r) ->
           In q (ListHead s)
           /\ tif_memdie (kill_mem inv q) = false
           /\ pid (kill_mem inv q) <> current_pid inv
           /\ (b = true ->
               forall rss, mm (kill_mem inv q) = Some rss ->
                           below_80MB (to_int rss) = false)
           /\ tasks_after r q = marked (kill_mem inv q)
           /\ kills_of q (events r) = 1%nat)
    /\ (forall q, ~ killed q (events r) -> tasks_after r q = kill_mem inv q)
    /\ (kills (events r) <= List.length (ListHead s))%nat
    /\ shift_adj (state_after r) = shift_adj st
    /\ lowmem_scan_count (stats (state_after r)) = lowmem_scan_count (stats st)
    /\ lowmem_escape1_count (stats (state_after r))
       = lowmem_escape1_count (stats st)
    /\ lowmem_escape2_count (stats (state_after r))
       = lowmem_escape2_count (stats st)
    /\ lowmem_escape3_count (stats (state_after r))
       = lowmem_escape3_count (stats st)
    /\ (kills (events r) = 0%nat ->
        reclaimed r = 0 /\ tasks_after r = kill_mem inv
        /\ throttle (state_after r)
           = throttle_after_no_kill inv score (throttle st)
        /\ lowmem_kill_count (stats (state_after r))
           = lowmem_kill_count (stats st))
    /\ ((0 < kills (events r))%nat ->
        throttle (state_after r)
        = throttle_after_kill inv score (choose_nTaskMax b score) (throttle st)
        /\ lowmem_kill_count (stats (state_after r))
           = to_ulong (lowmem_kill_count (stats st)
                       + Z.of_nat (kills (events r)))).
Proof.
  intros Hrun.
  destruct (scan_and_kill_result st inv score b r Hrun)
    as (s & extra & Hwin & Hrem & Hmem & Hev & Hk0 & Hnk & Hsh & Hst & Hthr).
  destruct (after_kills_invs st inv score b s)
    as ((Hpair & Hmark & Hsame & Hfact) & (Hone & Hall)
        & (Hshift & Hsc & He1 & He2 & He3 & Hzero & Hpos)).
  set (k := after_kills st inv score b s) in *.
  assert (Hkills : kills (events r) = kills (trace k)).
  { rewrite Hev, kills_app.
    change (mutex_unlock_scan_mutex :: extra)
      with ([mutex_unlock_scan_mutex] ++ extra).
    rewrite kills_app, Hk0. cbn. lia. }
  assert (Hkilled : forall q, killed q (events r) <-> killed q (trace k)).
  { intros q. rewrite Hev. apply killed_unlock_extra, Hnk. }
  assert (Hkof : forall q, kills_of q (events r) = kills_of q (trace k)).
  { intros q. rewrite Hev, kills_of_app.
    change (mutex_unlock_scan_mutex :: extra)
      with ([mutex_unlock_scan_mutex] ++ extra).
    rewrite kills_of_app.
    rewrite (kills_of_zero q extra)
      by (intros Hin; apply (Hnk q); right; exact Hin).
    cbn. lia. }
  exists s. split; [exact Hwin|].
  split; [|split; [|split]].
  - intros q Hq. apply Hkilled in Hq.
    destruct (Hfact q Hq) as (Hin & Hdie & Hpid & Hfloor).
    split; [apply in_rev; exact Hin|]. split; [exact Hdie|].
    split; [exact Hpid|]. split; [exact Hfloor|].
    split; [rewrite Hmem; apply Hmark; exact Hq|].
    rewrite Hkof. pose proof (Hone q). pose proof (kills_of_pos q _ (Hpair q Hq)).
    lia.
  - intros q Hq. rewrite Hmem. apply Hsame. intros Hk. apply Hq, Hkilled, Hk.
  - rewrite Hkills. rewrite length_rev in Hall. exact Hall.
  - rewrite Hsh, Hst, Hthr, Hkills, Hrem, Hmem. cbv zeta.
    split; [exact Hshift|]. split; [exact Hsc|]. split; [exact He1|].
    split; [exact He2|]. split; [exact He3|]. split.
    + intros Hz. destruct (Hzero Hz) as (Hg & Hr0 & Hm0).
      rewrite Hg, Hr0, Hm0. cbn. auto.
    + intros Hp. destruct (Hpos Hp) as (Ht & Hc). rewrite Ht, Hc.
      cbn. auto.
Qed.

Lemma choose_nTaskMax_le (b : bool) (score : Z) : choose_nTaskMax b score <= 6.
Proof.
  unfold choose_nTaskMax.
  repeat match goal with
         | |- context [if ?c then _ else _] => destruct c
         end; lia.
Qed.

Lemma state_at_gates_fields (P : params) (st : lmk_state) (inv : invocation) :
  throttle (state_at_gates P st inv) = throttle st
  /\ shift_adj (state_at_gates P st inv)
     = (if enable_adaptive_lmk P =? 0 then shift_adj st else 0)
  /\ lowmem_scan_count (stats (state_at_gates P st inv))
     = to_ulong (lowmem_scan_count (stats st) + 1)
  /\ lowmem_escape1_count (stats (state_at_gates P st inv))
     = lowmem_escape1_count (stats st)
  /\ lowmem_escape2_count (stats (state_at_gates P st inv))
     = lowmem_escape2_count (stats st)
  /\ lowmem_escape3_count (stats (state_at_gates P st inv))
     = lowmem_escape3_count (stats st)
  /\ lowmem_kill_count (stats (state_at_gates P st inv))
     = lowmem_kill_count (stats st).
Proof.
  unfold state_at_gates. cbn. rewrite adjust_minadj_shift. repeat split.
Qed.

End FullCallFacts.

Section CallProperties.
Context {K : kernel}.

Lemma early_events_no_kill (tr : list event) :
  tr = [] \/ tr = [mutex_lock_scan_mutex; mutex_unlock_scan_mutex] ->
  kills tr = 0%nat /\ forall p, ~ killed p tr.
Proof.
  intros [->| ->]; (split; [reflexivity|]); intros p; unfold killed; cbn;
    intuition discriminate.
Qed.

Lemma kills_pos_victim (tr : list event) :
  (0 < kills tr)%nat -> exists p, In (send_sig_SIGKILL p) tr.
Proof.
  unfold kills. induction tr as [|e tr IH]; cbn [filter]; intros Hpos.
  - cbn in Hpos. lia.
  - destruct e; cbn [is_sigkill] in Hpos;
      try (destruct (IH Hpos) as [v Hv]; exists v; right; exact Hv).
    exists p. left. reflexivity.
Qed.

(** X1: a task a call marks or signals is not the calling process and was
    not marked TIF_MEMDIE before the call, and the call sends it SIGKILL
    exactly once (also when the window holds the task twice). *)
Theorem victim_is_not_the_caller (P : params) (st : lmk_state)
    (inv : invocation) (r : scan_result) (p : task_ptr) :
  lowmem_scan P st inv = Some r ->
  killed p (events r) ->
  pid (kill_mem inv p) <> current_pid inv
  /\ tif_memdie (kill_mem inv p) = false
  /\ kills_of p (events r) = 1%nat.
Proof.
  intros Hrun Hk.
  destruct (lowmem_scan_cases P st inv r Hrun)
    as [(_ & _ & _ & Hev)|(_ & _ & Hfull)].
  - destruct (early_events_no_kill _ Hev) as [_ Hnk]. destruct (Hnk p Hk).
  - destruct (scan_and_kill_invs _ _ _ _ _ Hfull) as (s & _ & Hv & _).
    destruct (Hv p Hk) as (_ & Hdie & Hpid & _ & _ & Hone). auto.
Qed.

(** X2: the only change a call makes to the task memory is TIF_MEMDIE set on
    the tasks it killed. *)
Theorem call_only_marks_victims (P : params) (st : lmk_state)
    (inv : invocation) (r : scan_result) (q : task_ptr) :
  lowmem_scan P st inv = Some r ->
  (killed q (events r) -> tasks_after r q = marked (kill_mem inv q))
  /\ (~ killed q (events r) -> tasks_after r q = kill_mem inv q).
Proof.
  intros Hrun.
  destruct (lowmem_scan_cases P st inv r Hrun)
    as [(_ & _ & Hmem & Hev)|(_ & _ & Hfull)].
  - destruct (early_events_no_kill _ Hev) as [_ Hnk].
    split; [intros Hk; destruct (Hnk q Hk)|intros _; now rewrite Hmem].
  - destruct (scan_and_kill_invs _ _ _ _ _ Hfull) as (s & _ & Hv & Hs & _).
    split; [intros Hk; apply (Hv q Hk)|apply Hs].
Qed.

(** X3: a call sends at most [nTaskMax] SIGKILLs, hence at most 6, and at
    most 2 when it is adaptive. *)
Theorem kills_at_most_nTaskMax (P : params) (st : lmk_state)
    (inv : invocation) (r : scan_result) :
  lowmem_scan P st inv = Some r ->
  Z.of_nat (kills (events r)) <= nTaskMax_of_call P st inv
  /\ nTaskMax_of_call P st inv <= 6
  /\ (is_adaptive P st inv = true -> nTaskMax_of_call P st inv = 2).
Proof.
  intros Hrun. unfold nTaskMax_of_call.
  split; [|split; [apply choose_nTaskMax_le|intros ->; reflexivity]].
  destruct (lowmem_scan_cases P st inv r Hrun)
    as [(_ & _ & _ & Hev)|(_ & _ & Hfull)].
  - destruct (early_events_no_kill _ Hev) as [-> _].
    pose proof (choose_nTaskMax_pos (is_adaptive P st inv)
                  (clamped_min_score_adj P st inv)). cbn. lia.
  - destruct (scan_and_kill_invs _ _ _ _ _ Hfull)
      as (s & Hwin & _ & _ & Hle & _).
    apply window_of_call_bounded in Hwin. unfold is_adaptive. lia.
Qed.

(** X4: a task a call marks or signals is the task [find_lock_task_mm] gave
    for a process of the list that is no kernel thread, has no thread
    flagged TIF_MM_RELEASED or TIF_MEMDIE, whose name is not exempted at the
    resolved score, whose score is at least the resolved score and whose
    resident size is positive, all as read during the walk. *)
Theorem victim_was_a_candidate (P : params) (st : lmk_state)
    (inv : invocation) (r : scan_result) (p : task_ptr) :
  lowmem_scan P st inv = Some r ->
  killed p (events r) ->
  candidate inv (clamped_min_score_adj P st inv) p.
Proof.
  intros Hrun Hk.
  destruct (lowmem_scan_cases P st inv r Hrun)
    as [(_ & _ & _ & Hev)|(_ & _ & Hfull)].
  - destruct (early_events_no_kill _ Hev) as [_ Hnk]. destruct (Hnk p Hk).
  - destruct (scan_and_kill_invs _ _ _ _ _ Hfull) as (s & Hwin & Hv & _).
    destruct (Hv p Hk) as (Hin & _).
    eapply window_of_call_candidates; eassumption.
Qed.

(** X5: a call past the early exits that kills nothing returns 0 and arms
    the kill-nothing cooldown ([killNothing = 1], [killNothing_adj] the
    resolved score, deadline [jiffies + 2 * HZ]) without touching the
    post-kill pair; one that kills leaves [killNothing = 0],
    [killNothing_adj = 2000], [justkilled_adj] the resolved score and the
    deadline [jiffies + HZ / nTaskMax], without touching the kill-nothing
    deadline. *)
Theorem throttle_after_full_call (P : params) (st : lmk_state)
    (inv : invocation) (r : scan_result) :
  exits_early P st inv = false ->
  lowmem_scan P st inv = Some r ->
  (kills (events r) = 0%nat ->
   reclaimed r = 0
   /\ throttle (state_after r)
      = throttle_after_no_kill inv (clamped_min_score_adj P st inv)
          (throttle st))
  /\ ((0 < kills (events r))%nat ->
      throttle (state_after r)
      = throttle_after_kill inv (clamped_min_score_adj P st inv)
          (nTaskMax_of_call P st inv) (throttle st)).
Proof.
  intros Hlate Hrun.
  destruct (lowmem_scan_cases P st inv r Hrun)
    as [(Hearly & _)|(_ & _ & Hfull)]; [congruence|].
  destruct (scan_and_kill_invs _ _ _ _ _ Hfull)
    as (s & _ & _ & _ & _ & _ & _ & _ & _ & _ & Hzero & Hpos).
  destruct (state_at_gates_fields P st inv) as (Hthr & _).
  rewrite Hthr in Hzero, Hpos. split.
  - intros Hz. destruct (Hzero Hz) as (Hr0 & _ & Ht & _). auto.
  - intros Hp. destruct (Hpos Hp) as (Ht & _). exact Ht.
Qed.

(** X6: when no process of the list is a candidate at the resolved score, a
    call past the early exits kills nothing, returns 0, leaves the task
    memory as it was and arms the kill-nothing cooldown. *)
Theorem call_without_candidates (P : params) (st : lmk_state)
    (inv : invocation) (r : scan_result) :
  exits_early P st inv = false ->
  lowmem_scan P st inv = Some r ->
  (forall p, ~ candidate inv (clamped_min_score_adj P st inv) p) ->
  kills (events r) = 0%nat
  /\ (forall p, ~ killed p (events r))
  /\ reclaimed r = 0
  /\ tasks_after r = kill_mem inv
  /\ throttle (state_after r)
     = throttle_after_no_kill inv (clamped_min_score_adj P st inv)
         (throttle st).
Proof.
  intros Hlate Hrun Hnone.
  destruct (lowmem_scan_cases P st inv r Hrun)
    as [(Hearly & _)|(_ & _ & Hfull)]; [congruence|].
  destruct (scan_and_kill_invs _ _ _ _ _ Hfull)
    as (s & Hwin & Hv & _ & _ & _ & _ & _ & _ & _ & Hzero & _).
  destruct (state_at_gates_fields P st inv) as (Hthr & _).
  rewrite Hthr in Hzero.
  assert (Hnk : forall p, ~ killed p (events r)).
  { intros p Hk. destruct (Hv p Hk) as (Hin & _).
    apply (Hnone p). eapply window_of_call_candidates; eassumption. }
  assert (Hz : kills (events r) = 0%nat).
  { destruct (Nat.eq_dec (kills (events r)) 0) as [Hz|Hnz]; [exact Hz|].
    destruct (kills_pos_victim (events r)) as [p Hp]; [lia|].
    exfalso. apply (Hnk p). right. exact Hp. }
  destruct (Hzero Hz) as (Hr0 & Hm0 & Ht & _). auto.
Qed.

(** X7: a call that holds the mutex counts one scan and at most one escape,
    the escape of the first gate, test or none that stops it, and adds to
    the kill count the number of SIGKILLs it sent, all modulo 2^64. *)
Theorem counters_after_call (P : params) (st : lmk_state)
    (inv : invocation) (r : scan_result) :
  lock_interrupted inv = false ->
  lowmem_scan P st inv = Some r ->
  let g1 := post_kill_gate P st inv in
  let g2 := kill_nothing_gate P st inv in
  let g3 := clamped_min_score_adj P st inv =? OOM_SCORE_ADJ_MAX + 1 in
  lowmem_scan_count (stats (state_after r))
  = to_ulong (lowmem_scan_count (stats st) + 1)
  /\ lowmem_escape1_count (stats (state_after r))
     = (if g1 then to_ulong (lowmem_escape1_count (stats st) + 1)
        else lowmem_escape1_count (stats st))
  /\ lowmem_escape2_count (stats (state_after r))
     = (if negb g1 && g2 then to_ulong (lowmem_escape2_count (stats st) + 1)
        else lowmem_escape2_count (stats st))
  /\ lowmem_escape3_count (stats (state_after r))
     = (if negb g1 && negb g2 && g3
        then to_ulong (lowmem_escape3_count (stats st) + 1)
        else lowmem_escape3_count (stats st))
  /\ lowmem_kill_count (stats (state_after r))
     = (if Nat.eqb (kills (events r)) 0 then lowmem_kill_count (stats st)
        else to_ulong (lowmem_kill_count (stats st)
                       + Z.of_nat (kills (events r)))).
Proof.
  intros Hlock Hrun. cbv zeta.
  destruct (state_at_gates_fields P st inv)
    as (_ & _ & Hsc & He1 & He2 & He3 & Hkc).
  rewrite (lowmem_scan_gates P st inv Hlock) in Hrun. cbv zeta in Hrun.
  assert (Hskip : forall c,
             lowmem_scan_count c
             = lowmem_scan_count (stats (state_at_gates P st inv)) ->
             lowmem_kill_count c
             = lowmem_kill_count (stats (state_at_gates P st inv)) ->
             Some (skipped (with_stats c (state_at_gates P st inv)) inv)
             = Some r ->
             lowmem_scan_count (stats (state_after r))
             = to_ulong (lowmem_scan_count (stats st) + 1)
             /\ lowmem_escape1_count (stats (state_after r))
                = lowmem_escape1_count c
             /\ lowmem_escape2_count (stats (state_after r))
                = lowmem_escape2_count c
             /\ lowmem_escape3_count (stats (state_after r))
                = lowmem_escape3_count c
             /\ lowmem_kill_count (stats (state_after r))
                = lowmem_kill_count (stats st)
             /\ kills (events r) = 0%nat).
  { intros c Hc1 Hc2 Heq. inversion Heq; subst r.
    cbn [skipped state_after events with_stats stats].
    rewrite Hc1, Hc2, Hsc, Hkc. repeat split. }
  destruct (post_kill_gate P st inv).
  { destruct (Hskip (incr_escape1_count (stats (state_at_gates P st inv)))
                eq_refl eq_refl Hrun) as (H0 & H1 & H2 & H3 & H4 & H5).
    rewrite H0, H1, H2, H3, H4, H5.
    cbn [incr_escape1_count lowmem_escape1_count lowmem_escape2_count
         lowmem_escape3_count negb andb Nat.eqb].
    rewrite He1, He2, He3. repeat split. }
  destruct (kill_nothing_gate P st inv).
  { destruct (Hskip (incr_escape2_count (stats (state_at_gates P st inv)))
                eq_refl eq_refl Hrun) as (H0 & H1 & H2 & H3 & H4 & H5).
    rewrite H0, H1, H2, H3, H4, H5.
    cbn [incr_escape2_count lowmem_escape1_count lowmem_escape2_count
         lowmem_escape3_count negb andb Nat.eqb].
    rewrite He1, He2, He3. repeat split. }
  destruct (clamped_min_score_adj P st inv =? OOM_SCORE_ADJ_MAX + 1).
  { destruct (Hskip (incr_escape3_count (stats (state_at_gates P st inv)))
                eq_refl eq_refl Hrun) as (H0 & H1 & H2 & H3 & H4 & H5).
    rewrite H0, H1, H2, H3, H4, H5.
    cbn [incr_escape3_count lowmem_escape1_count lowmem_escape2_count
         lowmem_escape3_count negb andb Nat.eqb].
    rewrite He1, He2, He3. repeat split. }
  destruct (scan_and_kill_invs _ _ _ _ _ Hrun)
    as (s & _ & _ & _ & _ & _ & Hsc' & He1' & He2' & He3' & Hzero & Hpos).
  cbn [negb andb]. rewrite Hsc', He1', He2', He3', Hsc, He1, He2, He3.
  repeat (split; [reflexivity|]).
  destruct (Nat.eqb_spec (kills (events r)) 0) as [Hz|Hnz].
  - destruct (Hzero Hz) as (_ & _ & _ & Hk). now rewrite Hk, Hkc.
  - destruct Hpos as (_ & Hk); [lia|]. now rewrite Hk, Hkc.
Qed.

(** X8: a call is adaptive only when the feature is on and the shift flag
    was armed; its resolved score is then 353, it sends at most 2 SIGKILLs,
    and every task it kills that still has an mm has a resident size of at
    least 80 MB. *)
Theorem adaptive_call_kills_few_large (P : params) (st : lmk_state)
    (inv : invocation) (r : scan_result) :
  lowmem_scan P st inv = Some r ->
  is_adaptive P st inv = true ->
  enable_adaptive_lmk P <> 0
  /\ shift_adj st <> 0
  /\ 353 < resolved_min_score_adj P inv
  /\ clamped_min_score_adj P st inv = 353
  /\ (kills (events r) <= 2)%nat
  /\ forall p rss,
       killed p (events r) ->
       mm (kill_mem inv p) = Some rss ->
       80 * 1024 <= to_long (to_int rss * Z.quot (to_long PAGE_SIZE) 1024).
Proof.
  intros Hrun Had.
  assert (Harm : clamp_armed P (shift_adj st) (resolved_min_score_adj P inv)
                 = true).
  { unfold is_adaptive, clamped_min_score_adj in Had.
    rewrite adjust_minadj_score in Had.
    destruct (clamp_armed P (shift_adj st) (resolved_min_score_adj P inv));
      [reflexivity|].
    rewrite Z.eqb_refl in Had. discriminate. }
  assert (Hscore : clamped_min_score_adj P st inv = 353).
  { unfold clamped_min_score_adj. rewrite adjust_minadj_score, Harm.
    reflexivity. }
  unfold clamp_armed in Harm.
  apply andb_prop in Harm; destruct Harm as [Harm H3].
  apply andb_prop in Harm; destruct Harm as [H1 H2].
  apply negb_true_iff, Z.eqb_neq in H1, H2.
  unfold adj_max_shift in H3. apply Z.gtb_lt in H3.
  do 4 (split; [assumption|]).
  destruct (lowmem_scan_cases P st inv r Hrun)
    as [(_ & _ & _ & Hev)|(_ & _ & Hfull)].
  - destruct (early_events_no_kill _ Hev) as [Hz Hnk].
    split; [lia|]. intros p rss Hk. destruct (Hnk p Hk).
  - fold (is_adaptive P st inv) in Hfull. rewrite Had in Hfull.
    destruct (scan_and_kill_invs _ _ _ _ _ Hfull)
      as (s & Hwin & Hv & _ & Hle & _).
    apply window_of_call_bounded in Hwin. cbn [choose_nTaskMax] in Hwin.
    split; [lia|].
    intros p rss Hk Hmm. destruct (Hv p Hk) as (_ & _ & _ & Hfloor & _).
    specialize (Hfloor eq_refl rss Hmm). unfold below_80MB in Hfloor.
    apply Z.ltb_ge in Hfloor. exact Hfloor.
Qed.

(** X9: a call that holds the mutex consumes the shift flag: with the
    feature on [shift_adj] is 0 afterwards, whatever exit the call takes, so
    that the next call resolves its score without the clamp unless a
    pressure event arms the flag in between. *)
Theorem shift_adj_consumed_by_call (P : params) (st : lmk_state)
    (inv : invocation) (r : scan_result) :
  lock_interrupted inv = false ->
  lowmem_scan P st inv = Some r ->
  shift_adj (state_after r)
  = (if enable_adaptive_lmk P =? 0 then shift_adj st else 0)
  /\ forall inv2,
       clamped_min_score_adj P (state_after r) inv2
       = resolved_min_score_adj P inv2.
Proof.
  intros Hlock Hrun.
  destruct (state_at_gates_fields P st inv) as (_ & Hsh & _).
  assert (Hshift : shift_adj (state_after r)
                   = if enable_adaptive_lmk P =? 0 then shift_adj st else 0).
  { rewrite (lowmem_scan_gates P st inv Hlock) in Hrun. cbv zeta in Hrun.
    destruct (post_kill_gate P st inv);
      [inversion Hrun; subst r; cbn; exact Hsh|].
    destruct (kill_nothing_gate P st inv);
      [inversion Hrun; subst r; cbn; exact Hsh|].
    destruct (clamped_min_score_adj P st inv =? OOM_SCORE_ADJ_MAX + 1);
      [inversion Hrun; subst r; cbn; exact Hsh|].
    destruct (scan_and_kill_invs _ _ _ _ _ Hrun) as (s & _ & _ & _ & _ & Hs & _).
    now rewrite Hs. }
  split; [exact Hshift|].
  intros inv2. unfold clamped_min_score_adj.
  rewrite adjust_minadj_score, Hshift. unfold clamp_armed.
  destruct (enable_adaptive_lmk P =? 0); reflexivity.
Qed.

(** X10: a call past the early exits always starts a cooldown: after one
    that killed, a call at an equal or higher resolved score that comes
    while [time_before_eq(jiffies, jiffies_then + HZ / nTaskMax)] holds is
    stopped by the post-kill gate; after one that killed nothing, a call at
    an equal or higher score within [2 * HZ] is stopped by one of the two
    gates; a stopped call returns 0 and walks no process. *)
Theorem full_call_starts_cooldown (P : params) (st : lmk_state)
    (inv : invocation) (r : scan_result) (inv2 : invocation) :
  exits_early P st inv = false ->
  lowmem_scan P st inv = Some r ->
  lock_interrupted inv2 = false ->
  clamped_min_score_adj P st inv <= resolved_min_score_adj P inv2 ->
  ((0 < kills (events r))%nat ->
   time_before_eq (jiffies inv2)
     (to_ulong (jiffies inv
                + to_int (Z.quot HZ (nTaskMax_of_call P st inv)))) = true ->
   exists r2,
     lowmem_scan P (state_after r) inv2 = Some r2
     /\ reclaimed r2 = 0
     /\ events r2 = [mutex_lock_scan_mutex; mutex_unlock_scan_mutex]
     /\ lowmem_escape1_count (stats (state_after r2))
        = to_ulong (lowmem_escape1_count (stats st) + 1))
  /\ (kills (events r) = 0%nat ->
      time_before_eq (jiffies inv2)
        (to_ulong (jiffies inv + to_int (2 * HZ))) = true ->
      exists r2,
        lowmem_scan P (state_after r) inv2 = Some r2
        /\ reclaimed r2 = 0
        /\ events r2 = [mutex_lock_scan_mutex; mutex_unlock_scan_mutex]).
Proof.
  intros Hlate Hrun Hlock2 Hscore.
  assert (Hlock : lock_interrupted inv = false).
  { unfold exits_early in Hlate.
    destruct (lock_interrupted inv); [discriminate|reflexivity]. }
  assert (Hclamp2 : clamped_min_score_adj P (state_after r) inv2
                    = resolved_min_score_adj P inv2).
  { unfold clamped_min_score_adj. rewrite adjust_minadj_score.
    unfold clamp_armed.
    destruct (lowmem_scan_cases P st inv r Hrun)
      as [(Hearly & _)|(_ & _ & Hfull)]; [congruence|].
    destruct (scan_and_kill_invs _ _ _ _ _ Hfull) as (s & _ & _ & _ & _ & Hs & _).
    destruct (state_at_gates_fields P st inv) as (_ & Hsh & _).
    rewrite Hs, Hsh.
    destruct (enable_adaptive_lmk P =? 0); reflexivity. }
  destruct (lowmem_scan_cases P st inv r Hrun)
    as [(Hearly & _)|(_ & _ & Hfull)]; [congruence|].
  destruct (scan_and_kill_invs _ _ _ _ _ Hfull)
    as (s & _ & _ & _ & _ & _ & _ & He1 & _ & _ & Hzero & Hpos).
  destruct (state_at_gates_fields P st inv) as (Hthr & _ & _ & He1g & _).
  rewrite Hthr in Hzero, Hpos.
  rewrite (lowmem_scan_gates P (state_after r) inv2 Hlock2). cbv zeta.
  unfold post_kill_gate, kill_nothing_gate. rewrite Hclamp2.
  split.
  - intros Hp Htime. destruct (Hpos Hp) as (Ht & _).
    fold (is_adaptive P st inv) in Ht. fold (nTaskMax_of_call P st inv) in Ht.
    rewrite Ht. cbn [throttle_after_kill justkilled_adj lowmem_justkilled_timeout].
    rewrite Htime.
    replace (resolved_min_score_adj P inv2 >=? clamped_min_score_adj P st inv)
      with true by (symmetry; apply Z.geb_le; lia).
    cbn [andb]. eexists. split; [reflexivity|].
    cbn [skipped reclaimed events state_after with_stats stats
         incr_escape1_count lowmem_escape1_count].
    destruct (state_at_gates_fields P (state_after r) inv2)
      as (_ & _ & _ & He1g2 & _).
    rewrite He1g2, He1, He1g. auto.
  - intros Hz Htime. destruct (Hzero Hz) as (_ & _ & Ht & _).
    rewrite Ht.
    cbn [throttle_after_no_kill killNothing_adj lowmem_killNothing_timeout
         justkilled_adj lowmem_justkilled_timeout].
    rewrite Htime.
    replace (resolved_min_score_adj P inv2 >=? clamped_min_score_adj P st inv)
      with true by (symmetry; apply Z.geb_le; lia).
    cbn [andb].
    match goal with
    | |- context [if ?c then _ else _] => destruct c
    end; (eexists; split; [reflexivity|]); cbn; auto.
Qed.

End CallProperties.

Section ScoreRanking.
Context {K : kernel}.

Lemma search_breaks_by_score (adj size tadj tsize : Z) :
  (search_breaks false adj size tadj tsize = true ->
   key_le (adj, size) (tadj, tsize))
  /\ (search_breaks false adj size tadj tsize = false ->
      key_le (tadj, tsize) (adj, size)).
Proof.
  unfold search_breaks, key_le; cbn [negb fst snd].
  destruct (Z.gtb_spec adj tadj); [split; [discriminate|intros _; lia]|].
  destruct (Z.ltb_spec adj tadj); [split; [intros _; lia|discriminate]|].
  destruct (Z.gtb_spec size tsize); [split; [discriminate|intros _; lia]|].
  destruct (Z.leb_spec size tsize); split; intros; try discriminate; lia.
Qed.

Lemma key_le_trans (a b c : Z * Z) : key_le a b -> key_le b c -> key_le a c.
Proof. unfold key_le. lia. Qed.

Lemma score_insert_sorted (m : memory) (p : task_ptr) (adj size : Z) :
  rank_key m p = (adj, size) ->
  forall l,
    Sorted key_le (window_keys m l) ->
    Sorted key_le
      (window_keys m (insert_before (search_position m false adj size l) p l)).
Proof.
  intros Hp. induction l as [|q l IH]; intros Hsorted.
  - cbn. repeat constructor.
  - cbn [search_position].
    destruct (search_breaks_by_score adj size (nTargeteAdj_of m q)
                (nTargetSize_of m q)) as [Hbrk Hcont].
    destruct (search_breaks false adj size (nTargeteAdj_of m q)
                (nTargetSize_of m q)).
    + cbn. rewrite Hp. constructor; [exact Hsorted|].
      constructor. apply Hbrk. reflexivity.
    + rewrite insert_before_cons.
      cbn [window_keys map] in Hsorted |- *.
      apply Sorted_inv in Hsorted. destruct Hsorted as [Hl Hhd].
      constructor; [apply IH, Hl|].
      destruct l as [|q' l].
      * cbn. rewrite Hp. constructor. apply Hcont. reflexivity.
      * cbn [search_position].
        destruct (search_breaks false adj size (nTargeteAdj_of m q')
                    (nTargetSize_of m q')).
        -- cbn. rewrite Hp. constructor. apply Hcont. reflexivity.
        -- rewrite insert_before_cons. cbn [map].
           apply HdRel_inv in Hhd. constructor. exact Hhd.
Qed.

Lemma sorted_keys_tl (m : memory) (l : list task_ptr) :
  Sorted key_le (window_keys m l) -> Sorted key_le (window_keys m (tl l)).
Proof.
  destruct l; cbn; [auto|]. intros H; apply Sorted_inv in H; tauto.
Qed.

Lemma rank_by_score_sorted (m : memory) (nTaskMax : Z) (ok : bool)
    (p : task_ptr) (adj size : Z) (l : list task_ptr) (num : Z) :
  rank_key m p = (adj, size) ->
  Z.of_nat (List.length l) = num ->
  Sorted key_le (window_keys m l) ->
  Sorted key_le
    (window_keys m (fst (rank m false nTaskMax ok p adj size l num))).
Proof.
  intros Hp Hlen Hsorted. unfold rank.
  destruct (Z.eqb_spec num 0) as [Hz|Hnz].
  - destruct l; [|cbn [List.length] in Hlen; lia].
    destruct ok; cbn; repeat constructor.
  - set (k := search_position m false adj size l).
    assert (Hins : Sorted key_le (window_keys m (insert_before k p l)))
      by (apply score_insert_sorted; assumption).
    pose proof (sorted_keys_tl m _ Hsorted) as Htl.
    pose proof (sorted_keys_tl m _ Hins) as Hinstl.
    destruct (Nat.eqb k (List.length l)); [|destruct (Nat.eqb k 0);
      [destruct (num <? nTaskMax)|]];
      try destruct ok;
      repeat match goal with
             | |- context [if ?c then _ else _] => destruct c
             end; cbn [fst]; assumption.
Qed.

Lemma scan_loop_by_score_sorted (inv : invocation) (score sel : Z)
    (nTaskMax : Z) (tasks : list task_ptr) :
  1 <= nTaskMax ->
  forall n s s',
    window_ok nTaskMax s ->
    Sorted key_le (window_keys (scan_mem inv) (ListHead s)) ->
    scan_loop inv score sel false nTaskMax n tasks s = Some s' ->
    Sorted key_le (window_keys (scan_mem inv) (ListHead s')).
Proof.
  intros Hmax. induction tasks as [|tsk tasks IH];
    intros n s s' Hok Hsorted Hloop; cbn [scan_loop] in Hloop.
  - inversion Hloop; subst; assumption.
  - destruct (scan_step inv score sel false nTaskMax n tsk s) as [s1|] eqn:Hstep;
      [|discriminate].
    eapply IH; [| |exact Hloop].
    + eapply scan_step_bounded; eassumption.
    + destruct (scan_step_window _ _ _ _ _ _ _ _ _ Hstep)
        as [[Hl _]|(p & adj & rss & _ & Hsig & Hmm & _ & _ & Hrank)].
      * rewrite Hl. exact Hsorted.
      * replace (ListHead s1)
          with (fst (rank (scan_mem inv) false nTaskMax (kmalloc inv n) p adj
                       (to_int rss) (ListHead s) (nTaskNum s)))
          by (rewrite <- Hrank; reflexivity).
        apply rank_by_score_sorted; [|apply Hok|exact Hsorted].
        unfold rank_key, nTargeteAdj_of, nTargetSize_of.
        now rewrite Hsig, Hmm.
Qed.

Lemma strongly_sorted_keys_snoc (l : list (Z * Z)) (a : Z * Z) :
  StronglySorted key_ge l -> Forall (fun x => key_ge x a) l ->
  StronglySorted key_ge (l ++ [a]).
Proof.
  induction 1 as [|x l Hl IH Hx]; intros Hall; cbn.
  - repeat constructor.
  - inversion Hall; subst. constructor; [auto|].
    apply Forall_app; split; [exact Hx|].
    constructor; [assumption|constructor].
Qed.

Lemma sorted_keys_rev (l : list (Z * Z)) :
  Sorted key_le l -> StronglySorted key_ge (rev l).
Proof.
  intros H. apply Sorted_StronglySorted in H;
    [|intros x y z; apply key_le_trans].
  induction H as [|x l Hl IH Hx]; cbn; [constructor|].
  apply strongly_sorted_keys_snoc; [exact IH|].
  apply Forall_rev. eapply Forall_impl; [|exact Hx]. cbn; intros; assumption.
Qed.

(** X11: outside adaptive mode the terminator meets the window in order of
    non-increasing score and, among equal scores, of non-increasing
    resident size, scores and sizes being those read during the walk over
    the processes. *)
Theorem window_by_score_then_size (inv : invocation) (score sel : Z)
    (tasks : list task_ptr) (d : diag_state) (s' : scan_state) :
  scan_loop inv score sel false (choose_nTaskMax false score) 0 tasks
    (empty_window d) = Some s' ->
  StronglySorted key_ge (window_keys (scan_mem inv) (rev (ListHead s'))).
Proof.
  intros Hloop. unfold window_keys. rewrite map_rev. apply sorted_keys_rev.
  eapply scan_loop_by_score_sorted;
    [apply choose_nTaskMax_pos| | |exact Hloop].
  - pose proof (choose_nTaskMax_pos false score) as Hmax.
    unfold window_ok, empty_window; cbn [ListHead nTaskNum List.length].
    lia.
  - cbn. constructor.
Qed.

End ScoreRanking.

(** * Detection of oom_adj values *)

Section AutodetectProperties.
Context {K : kernel} {A : oom_abi}.

Lemma array_set_length (a : list Z) (i : nat) (v : Z) :
  List.length (array_set a i v) = List.length a.
Proof.
  revert i; induction a as [|x a IH]; intros [|i]; cbn; auto.
Qed.

Lemma array_set_nth_same (a : list Z) (i : nat) (v : Z) :
  (i < List.length a)%nat -> nth i (array_set a i v) 0 = v.
Proof.
  revert i; induction a as [|x a IH]; intros [|i] Hi; cbn in *; try lia; auto.
  apply IH. lia.
Qed.

Lemma array_set_nth_other (a : list Z) (i j : nat) (v : Z) :
  i <> j -> nth j (array_set a i v) 0 = nth j a 0.
Proof.
  revert i j; induction a as [|x a IH]; intros [|i] [|j] Hne; cbn; auto; try lia.
Qed.

(** The loop from index [i] rewrites the [n] entries from [i] on and no
    other. *)
Lemma autodetect_loop_nth (n : nat) :
  forall (i : nat) (a : list Z) (j : nat),
    (i + n <= List.length a)%nat ->
    nth j (autodetect_loop n (Z.of_nat i) a) 0
    = if (Nat.leb i j && Nat.ltb j (i + n))%bool
      then lowmem_oom_adj_to_oom_score_adj (nth j a 0)
      else nth j a 0.
Proof.
  induction n as [|n IH]; intros i a j Hlen; cbn [autodetect_loop].
  - destruct (Nat.leb_spec i j); destruct (Nat.ltb_spec j (i + 0));
      cbn; try reflexivity; lia.
  - unfold array_get. rewrite Nat2Z.id.
    replace (Z.of_nat i + 1) with (Z.of_nat (S i)) by lia.
    rewrite IH by (rewrite array_set_length; lia).
    destruct (Nat.eq_dec i j) as [->|Hne].
    + rewrite array_set_nth_same by lia.
      destruct (Nat.leb_spec (S j) j); [lia|].
      destruct (Nat.leb_spec j j); [|lia].
      destruct (Nat.ltb_spec j (j + S n)); [|lia].
      reflexivity.
    + rewrite array_set_nth_other by assumption.
      destruct (Nat.leb_spec (S i) j); destruct (Nat.ltb_spec j (S i + n));
        destruct (Nat.leb_spec i j); destruct (Nat.ltb_spec j (i + S n));
        cbn; try reflexivity; lia.
Qed.

Lemma autodetect_loop_length (n : nat) :
  forall (i : Z) (a : list Z),
    List.length (autodetect_loop n i a) = List.length a.
Proof.
  induction n as [|n IH]; intros i a; cbn [autodetect_loop]; [reflexivity|].
  rewrite IH. apply array_set_length.
Qed.

Lemma adj_in_use_le (P : params) : adj_in_use P <= ARRAY_SIZE_lowmem_adj.
Proof.
  unfold adj_in_use. destruct (Z.ltb_spec (lowmem_adj_size P) ARRAY_SIZE_lowmem_adj); lia.
Qed.

Lemma autodetect_unfold (P : params) :
  lowmem_autodetect_oom_adj_values P
  = if converts P
    then with_lowmem_adj
           (autodetect_loop (Z.to_nat (adj_in_use P)) 0 (lowmem_adj P)) P
    else P.
Proof.
  unfold lowmem_autodetect_oom_adj_values, converts. cbv zeta.
  fold (adj_in_use P).
  destruct (Z.leb_spec (adj_in_use P) 0) as [Hle|Hgt].
  - destruct (Z.ltb_spec 0 (adj_in_use P)); [lia|]. reflexivity.
  - destruct (Z.ltb_spec 0 (adj_in_use P)); [|lia]. cbn [andb].
    destruct (Z.gtb_spec (array_get (lowmem_adj P) (adj_in_use P - 1))
                OOM_ADJUST_MAX) as [Hbig|Hsmall].
    + destruct (Z.leb_spec (array_get (lowmem_adj P) (adj_in_use P - 1))
                  OOM_ADJUST_MAX); [lia|]. reflexivity.
    + destruct (Z.leb_spec (array_get (lowmem_adj P) (adj_in_use P - 1))
                  OOM_ADJUST_MAX); [|lia]. cbn [andb].
      destruct (Z.leb_spec
                  (lowmem_oom_adj_to_oom_score_adj
                     (array_get (lowmem_adj P) (adj_in_use P - 1)))
                  OOM_ADJUST_MAX);
        destruct (Z.gtb_spec
                    (lowmem_oom_adj_to_oom_score_adj
                       (array_get (lowmem_adj P) (adj_in_use P - 1)))
                    OOM_ADJUST_MAX); try lia; reflexivity.
Qed.

Lemma autodetect_loop_get (n j : Z) (a : list Z) :
  0 <= j -> 0 <= n -> (Z.to_nat n <= List.length a)%nat ->
  array_get (autodetect_loop (Z.to_nat n) 0 a) j
  = if j <? n then lowmem_oom_adj_to_oom_score_adj (array_get a j)
    else array_get a j.
Proof.
  intros Hj Hn Hlen. unfold array_get.
  change 0 with (Z.of_nat 0) at 1.
  rewrite autodetect_loop_nth by (cbn; lia).
  cbn [Nat.leb andb Nat.add].
  destruct (Nat.ltb_spec (Z.to_nat j) (Z.to_nat n));
    destruct (Z.ltb_spec j n); try reflexivity; lia.
Qed.

Lemma converts_in_use (P : params) : converts P = true -> 0 < adj_in_use P.
Proof.
  unfold converts. destruct (Z.ltb_spec 0 (adj_in_use P)); [lia|discriminate].
Qed.

(** X12: the detection converts entry [i] of [lowmem_adj] for every [i]
    below [min(6, lowmem_adj_size)] when the three tests pass, and changes
    nothing otherwise; entries past that index, the length of the array and
    every other parameter are never changed. *)
Theorem autodetect_converts_entries_in_use (P : params) (j : Z) :
  List.length (lowmem_adj P) = Z.to_nat ARRAY_SIZE_lowmem_adj ->
  0 <= j ->
  let P' := lowmem_autodetect_oom_adj_values P in
  array_get (lowmem_adj P') j
  = (if converts P && (j <? adj_in_use P)
     then lowmem_oom_adj_to_oom_score_adj (array_get (lowmem_adj P) j)
     else array_get (lowmem_adj P) j)
  /\ List.length (lowmem_adj P') = List.length (lowmem_adj P)
  /\ lowmem_adj_size P' = lowmem_adj_size P
  /\ lowmem_minfree P' = lowmem_minfree P
  /\ lowmem_minfree_size P' = lowmem_minfree_size P
  /\ enable_adaptive_lmk P' = enable_adaptive_lmk P
  /\ vmpressure_file_min P' = vmpressure_file_min P.
Proof.
  intros Hlen Hj. cbv zeta. rewrite autodetect_unfold.
  destruct (converts P) eqn:Hconv; cbn [andb]; [|repeat split].
  cbn [with_lowmem_adj lowmem_adj lowmem_adj_size lowmem_minfree
       lowmem_minfree_size enable_adaptive_lmk vmpressure_file_min].
  rewrite autodetect_loop_length.
  split; [|repeat split].
  pose proof (adj_in_use_le P) as Hle.
  pose proof (converts_in_use P Hconv) as Hpos.
  apply autodetect_loop_get; lia.
Qed.

(** X13: running the detection a second time changes nothing. *)
Theorem autodetect_idempotent (P : params) :
  List.length (lowmem_adj P) = Z.to_nat ARRAY_SIZE_lowmem_adj ->
  lowmem_autodetect_oom_adj_values (lowmem_autodetect_oom_adj_values P)
  = lowmem_autodetect_oom_adj_values P.
Proof.
  intros Hlen. rewrite (autodetect_unfold P).
  destruct (converts P) eqn:Hconv; [|rewrite autodetect_unfold, Hconv; reflexivity].
  rewrite autodetect_unfold.
  set (Q := with_lowmem_adj _ P).
  assert (Hno : converts Q = false); [|rewrite Hno; reflexivity].
  pose proof (adj_in_use_le P) as Hle.
  pose proof (converts_in_use P Hconv) as Hpos.
  assert (Hn : adj_in_use Q = adj_in_use P) by reflexivity.
  assert (Hlast :
    array_get (lowmem_adj Q) (adj_in_use P - 1)
    = lowmem_oom_adj_to_oom_score_adj
        (array_get (lowmem_adj P) (adj_in_use P - 1))).
  { subst Q. cbn [with_lowmem_adj lowmem_adj].
    rewrite autodetect_loop_get by lia.
    destruct (Z.ltb_spec (adj_in_use P - 1) (adj_in_use P)); [reflexivity|lia]. }
  unfold converts in Hconv |- *. rewrite Hn, Hlast.
  apply andb_prop in Hconv; destruct Hconv as [_ H3].
  apply Z.gtb_lt in H3.
  match goal with
  | |- (_ && (?x <=? ?y) && _)%bool = false =>
      destruct (Z.leb_spec x y); [lia|]
  end.
  rewrite andb_false_r. reflexivity.
Qed.

End AutodetectProperties.

Section AutodetectArithmetic.
Context {K : kernel} {A : oom_abi}.

Lemma oom_abi_ranges :
  oom_abi_ok ->
  0 < - OOM_DISABLE < 2 ^ 14 /\ 2 <= OOM_SCORE_ADJ_MAX < 2 ^ 15.
Proof.
  unfold oom_abi_ok. intros (Hadj & Hmax & Hprod & Hq).
  pose proof sentinel_is_short as Hs.
  assert (Hd : 0 < - OOM_DISABLE) by lia.
  assert (H2 : 2 <= Z.quot OOM_SCORE_ADJ_MAX (- OOM_DISABLE)) by lia.
  assert (Hm : 2 * - OOM_DISABLE <= OOM_SCORE_ADJ_MAX).
  { assert (Hnz : - OOM_DISABLE <> 0) by lia.
    pose proof (Z.mul_quot_le OOM_SCORE_ADJ_MAX (- OOM_DISABLE) Hmax Hnz)
      as Hle.
    assert (- OOM_DISABLE * 2
            <= - OOM_DISABLE * Z.quot OOM_SCORE_ADJ_MAX (- OOM_DISABLE))
      by (apply Z.mul_le_mono_nonneg_l; lia).
    lia. }
  change (2 ^ 15) with 32768 in *. change (2 ^ 14) with 16384. lia.
Qed.

(** Without wrap-around the conversion is the quotient
    [oom_adj * OOM_SCORE_ADJ_MAX / -OOM_DISABLE] of the source. *)
Lemma conversion_exact (x : Z) :
  oom_abi_ok ->
  OOM_DISABLE <= x <= OOM_ADJUST_MAX ->
  lowmem_oom_adj_to_oom_score_adj x
  = (if x =? OOM_ADJUST_MAX then OOM_SCORE_ADJ_MAX
     else Z.quot (x * OOM_SCORE_ADJ_MAX) (- OOM_DISABLE))
  /\ - OOM_SCORE_ADJ_MAX
     <= Z.quot (x * OOM_SCORE_ADJ_MAX) (- OOM_DISABLE)
     <= OOM_SCORE_ADJ_MAX.
Proof.
  intros Hok Hx. pose proof (oom_abi_ranges Hok) as (Hd & Hm).
  destruct Hok as (Hadj & Hmax & Hprod & Hq).
  assert (Hbound : - OOM_SCORE_ADJ_MAX
                   <= Z.quot (x * OOM_SCORE_ADJ_MAX) (- OOM_DISABLE)
                   <= OOM_SCORE_ADJ_MAX).
  { split.
    - rewrite <- (Z.quot_mul (- OOM_SCORE_ADJ_MAX) (- OOM_DISABLE)) by lia.
      apply Z.quot_le_mono; [lia|nia].
    - rewrite <- (Z.quot_mul OOM_SCORE_ADJ_MAX (- OOM_DISABLE)) at 2 by lia.
      apply Z.quot_le_mono; [lia|nia]. }
  split; [|exact Hbound].
  unfold lowmem_oom_adj_to_oom_score_adj.
  change (2 ^ 15) with 32768 in *. change (2 ^ 14) with 16384 in *.
  change (2 ^ 31) with 2147483648 in *.
  destruct (x =? OOM_ADJUST_MAX).
  - apply to_short_small. change (2 ^ 15) with 32768. lia.
  - rewrite (to_int_small (x * OOM_SCORE_ADJ_MAX))
      by (unfold int_range; change (2 ^ 31) with 2147483648; nia).
    rewrite (to_int_small (- OOM_DISABLE))
      by (unfold int_range; change (2 ^ 31) with 2147483648; lia).
    rewrite to_int_small
      by (unfold int_range; change (2 ^ 31) with 2147483648; lia).
    apply to_short_small. change (2 ^ 15) with 32768. lia.
Qed.

(** X14: the conversion maps 0 to 0 and [OOM_ADJUST_MAX] to
    [OOM_SCORE_ADJ_MAX], stays within [-OOM_SCORE_ADJ_MAX,
    OOM_SCORE_ADJ_MAX] on the oom_adj range and is monotone there, so that
    an ascending table stays ascending. *)
Theorem conversion_is_monotone (x y : Z) :
  oom_abi_ok ->
  OOM_DISABLE <= x -> x <= y -> y <= OOM_ADJUST_MAX ->
  lowmem_oom_adj_to_oom_score_adj x <= lowmem_oom_adj_to_oom_score_adj y
  /\ - OOM_SCORE_ADJ_MAX <= lowmem_oom_adj_to_oom_score_adj x
  /\ lowmem_oom_adj_to_oom_score_adj y <= OOM_SCORE_ADJ_MAX
  /\ lowmem_oom_adj_to_oom_score_adj 0 = 0
  /\ lowmem_oom_adj_to_oom_score_adj OOM_ADJUST_MAX = OOM_SCORE_ADJ_MAX.
Proof.
  intros Hok Hlo Hxy Hhi.
  pose proof (oom_abi_ranges Hok) as (Hd & Hm).
  destruct (conversion_exact x Hok) as (Hx & Hbx); [lia|].
  destruct (conversion_exact y Hok) as (Hy & Hby); [lia|].
  assert (Hadj : 0 < OOM_ADJUST_MAX <= - OOM_DISABLE) by apply Hok.
  destruct (conversion_exact 0 Hok) as (H0 & _); [lia|].
  destruct (conversion_exact OOM_ADJUST_MAX Hok) as (Hmax & _); [lia|].
  rewrite Hx, Hy, H0, Hmax. rewrite Z.eqb_refl.
  destruct (Z.eqb_spec 0 OOM_ADJUST_MAX); [lia|].
  split; [|split; [|split; [|split]]].
  - destruct (Z.eqb_spec y OOM_ADJUST_MAX);
      destruct (Z.eqb_spec x OOM_ADJUST_MAX); try lia.
    apply Z.quot_le_mono; [lia|nia].
  - destruct (Z.eqb_spec x OOM_ADJUST_MAX); lia.
  - destruct (Z.eqb_spec y OOM_ADJUST_MAX); lia.
  - reflexivity.
  - reflexivity.
Qed.

(** X15: with a largest entry in use that is at least [OOM_DISABLE], the
    detection converts the table exactly when that entry lies between 1 and
    [OOM_ADJUST_MAX]. *)
Theorem detection_converts_iff_last_in_oom_adj_range (P : params) :
  oom_abi_ok ->
  0 < adj_in_use P ->
  OOM_DISABLE <= array_get (lowmem_adj P) (adj_in_use P - 1) ->
  converts P = true
  <-> 1 <= array_get (lowmem_adj P) (adj_in_use P - 1) <= OOM_ADJUST_MAX.
Proof.
  intros Hok Hn Hlo. unfold converts.
  set (x := array_get (lowmem_adj P) (adj_in_use P - 1)) in *.
  pose proof (oom_abi_ranges Hok) as (Hd & Hm).
  assert (Hadj : 0 < OOM_ADJUST_MAX <= - OOM_DISABLE) by apply Hok.
  assert (Hq : OOM_ADJUST_MAX < Z.quot OOM_SCORE_ADJ_MAX (- OOM_DISABLE))
    by apply Hok.
  destruct (Z.ltb_spec 0 (adj_in_use P)); [|lia]. cbn [andb].
  destruct (Z.leb_spec x OOM_ADJUST_MAX) as [Hle|Hgt]; cbn [andb];
    [|split; [discriminate|lia]].
  destruct (conversion_exact x Hok) as (Hx & _); [lia|]. rewrite Hx.
  destruct (Z.eqb_spec x OOM_ADJUST_MAX) as [->|Hne].
  - split; [intros _; lia|intros _]. apply Z.gtb_lt.
    assert (Hnz : - OOM_DISABLE <> 0) by lia.
    assert (Hnn : 0 <= OOM_SCORE_ADJ_MAX) by lia.
    pose proof (Z.mul_quot_le OOM_SCORE_ADJ_MAX (- OOM_DISABLE) Hnn Hnz)
      as Hmq.
    nia.
  - rewrite Z.gtb_ltb, Z.ltb_lt. split.
    + intros Hbig. split; [|lia].
      destruct (Z.le_gt_cases x 0) as [Hneg|Hpos]; [|lia].
      assert (Z.quot (x * OOM_SCORE_ADJ_MAX) (- OOM_DISABLE) <= 0).
      { rewrite <- (Z.quot_0_l (- OOM_DISABLE)) by lia.
        apply Z.quot_le_mono; [lia|nia]. }
      lia.
    + intros [Hpos _].
      assert (Z.quot OOM_SCORE_ADJ_MAX (- OOM_DISABLE)
              <= Z.quot (x * OOM_SCORE_ADJ_MAX) (- OOM_DISABLE))
        by (apply Z.quot_le_mono; [lia|nia]).
      lia.
Qed.

End AutodetectArithmetic.

(** * The estimator *)

Section EstimatorProperties.
Import Zones.
Context {M : mmzone_abi}.

Lemma to_int_to_long (z : Z) : to_int (to_long z) = to_int z.
Proof.
  unfold to_int, to_long, wrap_signed. f_equal.
  replace (((z + 2 ^ (64 - 1)) mod 2 ^ 64 - 2 ^ (64 - 1)) + 2 ^ (32 - 1))
    with ((z + 2 ^ (64 - 1)) mod 2 ^ 64 + (2 ^ (32 - 1) - 2 ^ (64 - 1)))
    by ring.
  rewrite <- (Zplus_mod_idemp_l ((z + 2 ^ (64 - 1)) mod 2 ^ 64)).
  rewrite Z.mod_mod_divide by (exists (2 ^ 32); reflexivity).
  rewrite Zplus_mod_idemp_l.
  replace (z + 2 ^ (64 - 1) + (2 ^ (32 - 1) - 2 ^ (64 - 1)))
    with (z + 2 ^ (32 - 1)) by ring.
  reflexivity.
Qed.

Lemma to_int_sub_idem (a b : Z) : to_int (to_int a - b) = to_int (a - b).
Proof.
  unfold to_int, wrap_signed. f_equal.
  replace ((a + 2 ^ (32 - 1)) mod 2 ^ 32 - 2 ^ (32 - 1) - b + 2 ^ (32 - 1))
    with ((a + 2 ^ (32 - 1)) mod 2 ^ 32 + - b) by ring.
  rewrite Zplus_mod_idemp_l. f_equal. ring.
Qed.

Lemma to_int_range (z : Z) : int_range (to_int z).
Proof.
  unfold int_range, to_int, wrap_signed.
  pose proof (Z.mod_pos_bound (z + 2 ^ (32 - 1)) (2 ^ 32) ltac:(lia)).
  lia.
Qed.

(** One zone takes its shares off the two estimates, as C ints. *)
Lemma tune_zone_shares (cz use : Z) (z : zone) (f g : option Z) :
  (forall x, f = Some x -> int_range x) ->
  (forall x, g = Some x -> int_range x) ->
  tune_zone cz use z (f, g)
  = (option_map (fun x => to_int (x - free_share cz use z)) f,
     option_map (fun x => to_int (x - file_share cz z)) g).
Proof.
  intros Hf Hg.
  assert (Hf0 : forall x, f = Some x -> to_int (x - 0) = x).
  { intros x Hx. rewrite Z.sub_0_r. apply to_int_small, Hf, Hx. }
  assert (Hg0 : forall x, g = Some x -> to_int (x - 0) = x).
  { intros x Hx. rewrite Z.sub_0_r. apply to_int_small, Hg, Hx. }
  unfold tune_zone, free_share, file_share.
  destruct (zone_idx z =? ZONE_MOVABLE).
  - destruct f as [x|], g as [y|]; cbn [option_map];
      destruct (use =? 0);
      rewrite ?to_int_to_ulong, ?(Hf0 _ eq_refl), ?(Hg0 _ eq_refl);
      reflexivity.
  - destruct (zone_idx z >? cz).
    + destruct f as [x|], g as [y|]; cbn [option_map];
        rewrite ?to_int_to_ulong; reflexivity.
    + destruct (zone_idx z <? cz).
      * destruct f as [x|], g as [y|]; cbn [option_map];
          destruct (zone_watermark_ok z 0 cz); try destruct (use =? 0);
          rewrite ?to_int_to_ulong, ?to_int_to_long, ?(Hg0 _ eq_refl);
          reflexivity.
      * destruct f as [x|], g as [y|]; cbn [option_map];
          rewrite ?(Hf0 _ eq_refl), ?(Hg0 _ eq_refl); reflexivity.
Qed.

(** The walk over the zone list takes the sums of the shares off the two
    estimates; a NULL pointer stays NULL. *)
Lemma tune_lmk_zone_param_sums (zl : list zone) (cz use : Z)
    (f g : option Z) :
  (forall x, f = Some x -> int_range x) ->
  (forall x, g = Some x -> int_range x) ->
  tune_lmk_zone_param zl cz (f, g) use
  = (option_map (fun x => to_int (x - sum_shares (free_share cz use) zl)) f,
     option_map (fun x => to_int (x - sum_shares (file_share cz) zl)) g).
Proof.
  revert f g. induction zl as [|z zl IH]; intros f g Hf Hg.
  - cbn. destruct f as [x|], g as [y|]; cbn [option_map];
      rewrite ?Z.sub_0_r, ?(to_int_small _ (Hf _ eq_refl)),
        ?(to_int_small _ (Hg _ eq_refl)); reflexivity.
  - cbn [tune_lmk_zone_param sum_shares fold_right].
    rewrite tune_zone_shares by assumption.
    rewrite IH.
    + destruct f as [x|], g as [y|]; cbn [option_map];
        rewrite ?to_int_sub_idem, ?Z.sub_add_distr; reflexivity.
    + intros x Hx. destruct f; inversion Hx. apply to_int_range.
    + intros x Hx. destruct g; inversion Hx. apply to_int_range.
Qed.

Lemma sum_shares_perm (share : zone -> Z) (zl zl' : list zone) :
  Permutation zl zl' -> sum_shares share zl = sum_shares share zl'.
Proof.
  induction 1; cbn [sum_shares fold_right] in *; try lia.
  unfold sum_shares in *. lia.
Qed.

Lemma free_share_nonneg (cz use : Z) (z : zone) :
  zone_sane z -> 0 <= free_share cz use z.
Proof.
  intros (Hfree & Hcma & _ & _ & _ & Hres). unfold free_share.
  pose proof (Hres cz).
  repeat match goal with |- context [if ?c then _ else _] => destruct c end;
    try lia.
  apply Z.min_glb; [|lia]. unfold to_ulong.
  apply Z.mod_pos_bound. lia.
Qed.

Lemma file_share_bounds (cz : Z) (z : zone) :
  zone_sane z ->
  0 <= file_share cz z
       <= zone_NR_FILE_PAGES z - zone_NR_SHMEM z - zone_NR_SWAPCACHE z.
Proof.
  intros (_ & _ & Hswap & Hshmem & Hfile & _). unfold file_share.
  repeat match goal with |- context [if ?c then _ else _] => destruct c end;
    try lia.
  rewrite (to_ulong_small (zone_NR_FILE_PAGES z - zone_NR_SHMEM z)) by lia.
  rewrite to_ulong_small by lia. lia.
Qed.

Lemma sum_shares_nonneg (share : zone -> Z) (zl : list zone) :
  Forall (fun z => 0 <= share z) zl -> 0 <= sum_shares share zl.
Proof.
  induction 1; cbn [sum_shares fold_right]; [lia|].
  unfold sum_shares in *. lia.
Qed.

Lemma preferred_share_nonneg (sc : shrink_control) :
  zone_sane (preferred_zone sc) -> 0 <= preferred_share sc.
Proof.
  intros (Hfree & Hcma & _ & _ & _ & Hres). unfold preferred_share.
  pose proof (Hres ZONE_NORMAL). cbv zeta.
  repeat match goal with |- context [if ?c then _ else _] => destruct c end;
    try lia.
  apply Z.min_glb; [|lia]. unfold to_ulong.
  apply Z.mod_pos_bound. lia.
Qed.

(** What [tune_lmk_param] returns, without the intermediate wraps. *)
Lemma tune_lmk_param_sums (fast : Z) (sc : shrink_control) (f g : Z) :
  int_range f -> int_range g ->
  tune_lmk_param fast sc (f, g)
  = (to_int (f - sum_shares (free_share (zone_idx (preferred_zone sc))
                                        (use_cma_pages sc)) (zonelist sc)
               - preferred_share sc),
     if file_left_alone fast sc then g
     else to_int (g - sum_shares (file_share (zone_idx (preferred_zone sc)))
                                 (zonelist sc))).
Proof.
  intros Hf Hg.
  assert (HF : forall x, Some f = Some x -> int_range x)
    by (intros x Hx; inversion Hx; subst; exact Hf).
  assert (HG : forall x, Some g = Some x -> int_range x)
    by (intros x Hx; inversion Hx; subst; exact Hg).
  assert (HN : forall x, @None Z = Some x -> int_range x)
    by (intros x Hx; inversion Hx).
  unfold tune_lmk_param, preferred_share, file_left_alone. cbv zeta.
  destruct (current_is_kswapd sc
            && zone_watermark_ok (preferred_zone sc) _ 0).
  - cbn [andb]. destruct (fast =? 0); cbn [negb].
    + rewrite (tune_lmk_zone_param_sums _ _ _ _ _ HF HN). cbn [option_map].
      destruct (zone_watermark_ok (preferred_zone sc) 0 ZONE_NORMAL);
        try destruct (use_cma_pages sc =? 0);
        rewrite ?to_int_to_ulong, ?to_int_to_long, to_int_sub_idem;
        reflexivity.
    + rewrite (tune_lmk_zone_param_sums _ _ _ _ _ HF HG). cbn [option_map].
      destruct (zone_watermark_ok (preferred_zone sc) 0 ZONE_NORMAL);
        try destruct (use_cma_pages sc =? 0);
        rewrite ?to_int_to_ulong, ?to_int_to_long, to_int_sub_idem;
        reflexivity.
  - cbn [andb].
    rewrite (tune_lmk_zone_param_sums _ _ _ _ _ HF HG). cbn [option_map].
    destruct (use_cma_pages sc =? 0).
    + rewrite to_int_to_ulong, to_int_sub_idem. reflexivity.
    + rewrite Z.sub_0_r. reflexivity.
Qed.

End EstimatorProperties.


Section EstimatorTheorems.
Import Zones.
Context {M : mmzone_abi}.

(** X16: the order of the zones in the zone list does not matter to
    [tune_lmk_zone_param]: two lists with the same zones leave the same
    values behind both pointers, NULL or not. *)
Theorem zone_order_is_irrelevant (zl zl' : list zone) (cz use : Z)
    (f g : option Z) :
  (forall x, f = Some x -> int_range x) ->
  (forall x, g = Some x -> int_range x) ->
  Permutation zl zl' ->
  tune_lmk_zone_param zl cz (f, g) use
  = tune_lmk_zone_param zl' cz (f, g) use.
Proof.
  intros Hf Hg Hp.
  rewrite !tune_lmk_zone_param_sums by assumption.
  rewrite (sum_shares_perm _ _ _ Hp), (sum_shares_perm (file_share cz) _ _ Hp).
  reflexivity.
Qed.

(** X17: in [tune_lmk_zone_param] the two estimates do not influence each
    other: passing NULL for [other_file] leaves NULL there and gives the
    [other_free] of a call with both pointers, and what is left in
    [other_file] depends neither on [other_free] nor on [use_cma_pages]. *)
Theorem zone_walk_estimates_are_independent (zl : list zone)
    (cz use use' : Z) (f f' g : Z) :
  int_range f -> int_range f' -> int_range g ->
  tune_lmk_zone_param zl cz (Some f, None) use
  = (fst (tune_lmk_zone_param zl cz (Some f, Some g) use), None)
  /\ tune_lmk_zone_param zl cz (None, Some g) use
     = (None, snd (tune_lmk_zone_param zl cz (Some f, Some g) use))
  /\ snd (tune_lmk_zone_param zl cz (Some f, Some g) use)
     = snd (tune_lmk_zone_param zl cz (Some f', Some g) use').
Proof.
  intros Hf Hf' Hg.
  assert (HF : forall x, Some f = Some x -> int_range x)
    by (intros x Hx; inversion Hx; subst; exact Hf).
  assert (HF' : forall x, Some f' = Some x -> int_range x)
    by (intros x Hx; inversion Hx; subst; exact Hf').
  assert (HG : forall x, Some g = Some x -> int_range x)
    by (intros x Hx; inversion Hx; subst; exact Hg).
  assert (HN : forall x, @None Z = Some x -> int_range x)
    by (intros x Hx; inversion Hx).
  rewrite (tune_lmk_zone_param_sums zl cz use _ _ HF HN),
    (tune_lmk_zone_param_sums zl cz use _ _ HN HG),
    (tune_lmk_zone_param_sums zl cz use _ _ HF HG),
    (tune_lmk_zone_param_sums zl cz use' _ _ HF' HG).
  cbn [option_map fst snd]. auto.
Qed.

(** X18: [tune_lmk_param] only lowers the estimates.  When the page counts
    and reserves of the zones are not negative and fit 31 bits, the file
    pages of a zone include its shmem and swap-cache pages, and the two
    differences do not fall below INT_MIN, [other_free] loses the free
    shares of the zones and the share of the preferred zone, [other_file]
    loses the file shares of the zones, and neither grows; on the kswapd
    path with [lmk_fast_run] zero [other_file] is returned as it came. *)
Theorem tune_lmk_param_only_lowers (lmk_fast_run : Z) (sc : shrink_control)
    (f g : Z) :
  Forall zone_sane (zonelist sc) ->
  zone_sane (preferred_zone sc) ->
  int_range f -> int_range g ->
  let cz := zone_idx (preferred_zone sc) in
  let F := sum_shares (free_share cz (use_cma_pages sc)) (zonelist sc)
           + preferred_share sc in
  let G := sum_shares (file_share cz) (zonelist sc) in
  - 2 ^ 31 <= f - F ->
  - 2 ^ 31 <= g - G ->
  let r := tune_lmk_param lmk_fast_run sc (f, g) in
  fst r = f - F
  /\ snd r = (if file_left_alone lmk_fast_run sc then g else g - G)
  /\ fst r <= f
  /\ snd r <= g.
Proof.
  intros Hzl Hpz Hf Hg cz F G HF HG r.
  assert (HFn : 0 <= sum_shares (free_share cz (use_cma_pages sc))
                       (zonelist sc)).
  { apply sum_shares_nonneg. eapply Forall_impl; [|exact Hzl].
    intros z Hz. now apply free_share_nonneg. }
  assert (HGn : 0 <= G).
  { apply sum_shares_nonneg. eapply Forall_impl; [|exact Hzl].
    intros z Hz. now apply file_share_bounds. }
  pose proof (preferred_share_nonneg sc Hpz) as HPn.
  subst r. rewrite tune_lmk_param_sums by assumption.
  fold cz. fold G. cbn [fst snd].
  unfold int_range in *.
  rewrite (to_int_small (f - _ - _)) by (unfold int_range; subst F; lia).
  destruct (file_left_alone lmk_fast_run sc).
  - subst F. repeat split; lia.
  - rewrite to_int_small by (unfold int_range; lia).
    subst F. repeat split; lia.
Qed.

(** X19: [can_use_cma_pages] on a fallback list.  When the migrate type is
    not MIGRATE_CMA the list is read up to its first MIGRATE_CMA or
    MIGRATE_RESERVE entry: the answer is 1 when MIGRATE_CMA comes first, 0
    when MIGRATE_RESERVE does, and a list with neither is read past its
    end.  A MIGRATE_CMA migrate type gives 1 without reading the list. *)
Theorem can_use_cma_pages_reads_to_terminator (mtype : Z)
    (mtype_fallbacks : list Z) :
  (mtype = MIGRATE_CMA ->
   can_use_cma_pages mtype mtype_fallbacks = Some 1)
  /\ (mtype <> MIGRATE_CMA ->
      (forall pre post,
          mtype_fallbacks = pre ++ MIGRATE_CMA :: post ->
          ~ In MIGRATE_CMA pre -> ~ In MIGRATE_RESERVE pre ->
          can_use_cma_pages mtype mtype_fallbacks = Some 1)
      /\ (forall pre post,
             mtype_fallbacks = pre ++ MIGRATE_RESERVE :: post ->
             MIGRATE_RESERVE <> MIGRATE_CMA ->
             ~ In MIGRATE_CMA pre -> ~ In MIGRATE_RESERVE pre ->
             can_use_cma_pages mtype mtype_fallbacks = Some 0)
      /\ (~ In MIGRATE_CMA mtype_fallbacks ->
          ~ In MIGRATE_RESERVE mtype_fallbacks ->
          can_use_cma_pages mtype mtype_fallbacks = None)).
Proof.
  unfold can_use_cma_pages. split.
  - intros ->. now rewrite Z.eqb_refl.
  - intros Hm. apply Z.eqb_neq in Hm. rewrite Hm.
    assert (Hpre : forall pre rest,
               ~ In MIGRATE_CMA pre -> ~ In MIGRATE_RESERVE pre ->
               cma_in_fallbacks (pre ++ rest) = cma_in_fallbacks rest).
    { induction pre as [|x pre IH]; intros rest Hc Hr; [reflexivity|].
      cbn [app cma_in_fallbacks].
      destruct (Z.eqb_spec x MIGRATE_CMA) as [->|_];
        [exfalso; apply Hc; now left|].
      destruct (Z.eqb_spec x MIGRATE_RESERVE) as [->|_];
        [exfalso; apply Hr; now left|].
      apply IH; intros Hin; [apply Hc|apply Hr]; now right. }
    split; [|split].
    + intros pre post -> Hc Hr. rewrite Hpre by assumption.
      cbn [cma_in_fallbacks]. now rewrite Z.eqb_refl.
    + intros pre post -> Hne Hc Hr. rewrite Hpre by assumption.
      cbn [cma_in_fallbacks]. apply Z.eqb_neq in Hne.
      now rewrite Hne, Z.eqb_refl.
    + intros Hc Hr.
      rewrite <- (app_nil_r mtype_fallbacks). now rewrite Hpre.
Qed.

End EstimatorTheorems.

(** * The load tracker *)

Section LoadTracker.
Context {K : kernel} {T : timer_abi}.

Lemma to_ulong_add_congr (a b n : Z) :
  to_ulong a = to_ulong b -> to_ulong (a + n) = to_ulong (b + n).
Proof.
  unfold to_ulong. intros H.
  rewrite (Z.add_mod a), (Z.add_mod b), H by lia. reflexivity.
Qed.

Lemma to_ulong_idem (a : Z) : to_ulong (to_ulong a) = to_ulong a.
Proof. unfold to_ulong. apply Z.mod_mod. lia. Qed.

(** What one call adds to the scan and kill counters, modulo 2^64. *)
Lemma lowmem_scan_counts (P : params) (st : lmk_state) (inv : invocation)
    (r : scan_result) :
  lowmem_scan P st inv = Some r ->
  to_ulong (lowmem_scan_count (stats (state_after r)))
  = to_ulong (lowmem_scan_count (stats st)
              + (if lock_interrupted inv then 0 else 1))
  /\ to_ulong (lowmem_kill_count (stats (state_after r)))
     = to_ulong (lowmem_kill_count (stats st) + Z.of_nat (kills (events r))).
Proof.
  intros Hrun.
  destruct (lock_interrupted inv) eqn:Hlock.
  - rewrite lowmem_scan_interrupted in Hrun by assumption.
    inversion Hrun; subst r. cbn. rewrite !Z.add_0_r. auto.
  - destruct (state_at_gates_fields P st inv)
      as (_ & _ & Hsc & _ & _ & _ & Hkc).
    rewrite (lowmem_scan_gates P st inv Hlock) in Hrun. cbv zeta in Hrun.
    assert (Hskip : forall c,
               lowmem_scan_count c
               = lowmem_scan_count (stats (state_at_gates P st inv)) ->
               lowmem_kill_count c
               = lowmem_kill_count (stats (state_at_gates P st inv)) ->
               Some (skipped (with_stats c (state_at_gates P st inv)) inv)
               = Some r ->
               to_ulong (lowmem_scan_count (stats (state_after r)))
               = to_ulong (lowmem_scan_count (stats st) + 1)
               /\ to_ulong (lowmem_kill_count (stats (state_after r)))
                  = to_ulong (lowmem_kill_count (stats st)
                              + Z.of_nat (kills (events r)))).
    { intros c Hc1 Hc2 Heq. inversion Heq; subst r.
      cbn [skipped state_after events with_stats stats].
      rewrite Hc1, Hc2, Hsc, Hkc, to_ulong_idem. cbn. rewrite Z.add_0_r.
      auto. }
    destruct (post_kill_gate P st inv);
      [exact (Hskip (incr_escape1_count (stats (state_at_gates P st inv)))
                eq_refl eq_refl Hrun)|].
    destruct (kill_nothing_gate P st inv);
      [exact (Hskip (incr_escape2_count (stats (state_at_gates P st inv)))
                eq_refl eq_refl Hrun)|].
    destruct (clamped_min_score_adj P st inv =? OOM_SCORE_ADJ_MAX + 1);
      [exact (Hskip (incr_escape3_count (stats (state_at_gates P st inv)))
                eq_refl eq_refl Hrun)|].
    destruct (scan_and_kill_invs _ _ _ _ _ Hrun)
      as (s & _ & _ & _ & _ & _ & Hsc' & _ & _ & _ & Hzero & Hpos).
    rewrite Hsc', Hsc, to_ulong_idem. split; [reflexivity|].
    destruct (Nat.eq_dec (kills (events r)) 0) as [Hz|Hnz].
    + destruct (Hzero Hz) as (_ & _ & _ & Hk).
      rewrite Hk, Hkc, Hz, Z.add_0_r. reflexivity.
    + destruct Hpos as (_ & Hk); [lia|].
      rewrite Hk, Hkc, to_ulong_idem. reflexivity.
Qed.

(** X20: no scan and no kill is lost or counted twice by the load tracker.
    Over any sequence of calls of [lowmem_scan] and firings of the timer,
    the [Scan] figures printed so far plus the scan counter equal, modulo
    2^64, the scan counter at the start plus the number of calls that got
    the scan mutex, and the [Kill] figures plus the kill counter equal the
    kill counter at the start plus the number of SIGKILLs sent. *)
Theorem tracker_reports_every_scan_and_kill (acts : list activity)
    (st : lmk_state) (t : tracker_state) (h : history) :
  run acts st t = Some h ->
  to_ulong (total Scan (reports h)
            + lowmem_scan_count (stats (driver_now h)))
  = to_ulong (lowmem_scan_count (stats st) + Z.of_nat (held acts))
  /\ to_ulong (total Kill (reports h)
               + lowmem_kill_count (stats (driver_now h)))
     = to_ulong (lowmem_kill_count (stats st)
                 + Z.of_nat (kills (signalled h))).
Proof.
  revert st t h. induction acts as [|a acts IH]; intros st t h Hrun.
  - inversion Hrun; subst h. cbn. rewrite !Z.add_0_r. auto.
  - destruct a as [P inv|j]; cbn [run] in Hrun.
    + destruct (lowmem_scan P st inv) as [r|] eqn:Hr; [|discriminate].
      destruct (run acts (state_after r) t) as [h'|] eqn:Hh; [|discriminate].
      inversion Hrun; subst h. cbn [reports driver_now signalled held].
      destruct (IH _ _ _ Hh) as (Hs & Hk).
      destruct (lowmem_scan_counts _ _ _ _ Hr) as (Hs1 & Hk1).
      rewrite Hs, Hk, kills_app, Nat2Z.inj_add.
      split.
      * rewrite (to_ulong_add_congr _ _ (Z.of_nat (held acts)) Hs1).
        destruct (lock_interrupted inv); f_equal; lia.
      * rewrite (to_ulong_add_congr _ _ (Z.of_nat (kills (signalled h'))) Hk1).
        f_equal. lia.
    + destruct (run acts _ _) as [h'|] eqn:Hh; [|discriminate].
      inversion Hrun; subst h. cbn [reports driver_now signalled held].
      destruct (IH _ _ _ Hh) as (Hs & Hk).
      unfold LoadTrackerExec in *.
      destruct (last_track_time t =? 0);
        cbn [printed driver_after tracker_after] in *; [auto|].
      cbn [with_stats stats lowmem_scan_count lowmem_kill_count] in Hs, Hk.
      cbn [total fold_right Scan Kill].
      fold (total Scan (reports h')). fold (total Kill (reports h')).
      rewrite <- !Z.add_assoc, !(Z.add_comm (_ (stats st))).
      rewrite (to_ulong_add_congr _ _ _ Hs), (to_ulong_add_congr _ _ _ Hk).
      split; f_equal; lia.
Qed.

(** X21: what the second of two firings prints.  After a firing at a
    jiffies value other than 0 and calls of [lowmem_scan] only, the next
    firing prints one report and zeroes the scan and kill counters; its
    [Scan] is the scan counter the first firing left plus the calls that
    got the mutex since, modulo 2^64, which is the number of those calls
    when the first firing printed as well.  After a firing at jiffies 0 the
    next firing prints nothing and keeps the counters as the calls left
    them. *)
Theorem report_covers_the_period (j1 j2 : Z) (calls : list activity)
    (st : lmk_state) (t : tracker_state) (h : history) :
  forallb is_shrink calls = true ->
  run (tick j1 :: calls ++ [tick j2]) st t = Some h ->
  let x := LoadTrackerExec j1 t st in
  (j1 <> 0 ->
   exists rep,
     reports h = match printed x with
                 | Some rep1 => [rep1; rep]
                 | None => [rep]
                 end
     /\ to_ulong (Scan rep)
        = to_ulong (lowmem_scan_count (stats (driver_after x))
                    + Z.of_nat (held calls))
     /\ (last_track_time t <> 0 ->
         to_ulong (Scan rep) = to_ulong (Z.of_nat (held calls)))
     /\ lowmem_scan_count (stats (driver_now h)) = 0
     /\ lowmem_kill_count (stats (driver_now h)) = 0)
  /\ (j1 = 0 ->
      reports h = match printed x with
                  | Some rep1 => [rep1]
                  | None => []
                  end
      /\ to_ulong (lowmem_scan_count (stats (driver_now h)))
         = to_ulong (lowmem_scan_count (stats (driver_after x))
                     + Z.of_nat (held calls))
      /\ last_track_time (tracker_now h) = j2).
Proof.
  intros Hcalls Hrun x.
  assert (Hmid : forall (l : list activity) s0 tr h0,
             forallb is_shrink l = true ->
             run (l ++ [tick j2]) s0 tr = Some h0 ->
             exists s1,
               to_ulong (lowmem_scan_count (stats s1))
               = to_ulong (lowmem_scan_count (stats s0) + Z.of_nat (held l))
               /\ reports h0
                  = match printed (LoadTrackerExec j2 tr s1) with
                    | Some rep => [rep]
                    | None => []
                    end
               /\ driver_now h0 = driver_after (LoadTrackerExec j2 tr s1)
               /\ tracker_now h0 = tracker_after (LoadTrackerExec j2 tr s1)).
  { induction l as [|a l IHl]; intros s0 tr h0 Hl Hr.
    - cbn in Hr. inversion Hr; subst h0. exists s0. cbn.
      rewrite Z.add_0_r.
      split; [reflexivity|split; [|split; reflexivity]].
      destruct (printed (LoadTrackerExec j2 tr s0)); reflexivity.
    - destruct a as [P inv|j]; [|discriminate].
      cbn [forallb is_shrink andb] in Hl.
      cbn [app run] in Hr.
      destruct (lowmem_scan P s0 inv) as [r|] eqn:Er; [|discriminate].
      destruct (run (l ++ [tick j2]) (state_after r) tr) as [h'|] eqn:Eh;
        [|discriminate].
      inversion Hr; subst h0. cbn [reports driver_now tracker_now].
      destruct (IHl _ _ _ Hl Eh) as (s1 & Hc & Hrep & Hd & Ht).
      exists s1. repeat split; try assumption.
      rewrite Hc. destruct (lowmem_scan_counts _ _ _ _ Er) as (Hs1 & _).
      rewrite (to_ulong_add_congr _ _ _ Hs1). cbn [held].
      destruct (lock_interrupted inv); f_equal; lia. }
  cbn [app run] in Hrun. fold x in Hrun.
  destruct (run (calls ++ [tick j2]) (driver_after x) (tracker_after x))
    as [h'|] eqn:Eh; [|discriminate].
  inversion Hrun; subst h. cbn [reports driver_now tracker_now].
  destruct (Hmid _ _ _ _ Hcalls Eh) as (s1 & Hc & Hrep & Hd & Ht).
  assert (Hlast : last_track_time (tracker_after x) = j1).
  { subst x. unfold LoadTrackerExec.
    destruct (last_track_time t =? 0); reflexivity. }
  unfold LoadTrackerExec in Hrep, Hd, Ht. rewrite Hlast in Hrep, Hd, Ht.
  split.
  - intros Hj. apply Z.eqb_neq in Hj. rewrite Hj in Hrep, Hd, Ht.
    cbn [printed driver_after tracker_after] in Hrep, Hd, Ht.
    eexists. split; [|split; [|split; [|split]]].
    + rewrite Hrep. destruct (printed x); reflexivity.
    + cbn [Scan]. exact Hc.
    + intros Ht0. cbn [Scan]. rewrite Hc. subst x. unfold LoadTrackerExec.
      apply Z.eqb_neq in Ht0. rewrite Ht0. reflexivity.
    + rewrite Hd. reflexivity.
    + rewrite Hd. reflexivity.
  - intros ->. cbn [Z.eqb printed driver_after tracker_after] in Hrep, Hd, Ht.
    split; [|split].
    + rewrite Hrep. destruct (printed x); reflexivity.
    + rewrite Hd. exact Hc.
    + rewrite Ht. reflexivity.
Qed.

End LoadTracker.


Section AutodetectTable.
Context {K : kernel} {A : oom_abi}.

(** X22: the detection keeps an ascending table ascending.  When the
    entries in use are oom_adj values, between [OOM_DISABLE] and
    [OOM_ADJUST_MAX], and ascend with the index, the entries in use after
    [lowmem_autodetect_oom_adj_values] ascend as well, converted or not. *)
Theorem autodetect_keeps_table_ascending (P : params) :
  oom_abi_ok ->
  List.length (lowmem_adj P) = Z.to_nat ARRAY_SIZE_lowmem_adj ->
  (forall i, 0 <= i < adj_in_use P ->
             OOM_DISABLE <= array_get (lowmem_adj P) i <= OOM_ADJUST_MAX) ->
  (forall i j, 0 <= i -> i <= j -> j < adj_in_use P ->
               array_get (lowmem_adj P) i <= array_get (lowmem_adj P) j) ->
  let P' := lowmem_autodetect_oom_adj_values P in
  adj_in_use P' = adj_in_use P
  /\ forall i j, 0 <= i -> i <= j -> j < adj_in_use P ->
                 array_get (lowmem_adj P') i <= array_get (lowmem_adj P') j.
Proof.
  intros Hok Hlen Hrange Hasc P'. subst P'.
  rewrite autodetect_unfold.
  destruct (converts P) eqn:Hconv; [|split; [reflexivity|exact Hasc]].
  split; [reflexivity|].
  intros i j Hi Hij Hj.
  cbn [with_lowmem_adj lowmem_adj].
  pose proof (adj_in_use_le P) as Hle.
  pose proof (converts_in_use P Hconv) as Hpos.
  assert (Hn : (Z.to_nat (adj_in_use P) <= List.length (lowmem_adj P))%nat)
    by (rewrite Hlen; apply Z2Nat.inj_le; lia).
  assert (H0 : 0 <= adj_in_use P) by lia.
  assert (Hj0 : 0 <= j) by lia.
  rewrite (autodetect_loop_get _ i _ Hi H0 Hn),
    (autodetect_loop_get _ j _ Hj0 H0 Hn).
  destruct (Z.ltb_spec i (adj_in_use P)); [|lia].
  destruct (Z.ltb_spec j (adj_in_use P)); [|lia].
  set (x := array_get (lowmem_adj P) i).
  set (y := array_get (lowmem_adj P) j).
  assert (Hx : OOM_DISABLE <= x <= OOM_ADJUST_MAX) by (apply Hrange; lia).
  assert (Hy : OOM_DISABLE <= y <= OOM_ADJUST_MAX) by (apply Hrange; lia).
  assert (Hxy : x <= y) by (apply Hasc; lia).
  pose proof (oom_abi_ranges Hok) as (Hd & Hm).
  destruct (conversion_exact x Hok Hx) as (Ex & Hbx).
  destruct (conversion_exact y Hok Hy) as (Ey & Hby).
  rewrite Ex, Ey.
  destruct (Z.eqb_spec y OOM_ADJUST_MAX);
    destruct (Z.eqb_spec x OOM_ADJUST_MAX); try lia.
  apply Z.quot_le_mono; [lia|nia].
Qed.

End AutodetectTable.

(** * The further properties at concrete inputs *)

(** The low-memory call on the default table kills tasks 1 and 2. *)
Lemma low_memory_run :
  exists r,
    @lowmem_scan msm8953 default_params initial_state low_memory_call = Some r
    /\ killed 1%nat (events r)
    /\ ~ killed 3%nat (events r)
    /\ (0 < kills (events r))%nat.
Proof.
  vm_compute. eexists. split; [reflexivity|].
  split; [left; cbn; auto|]. split; [|cbn; lia].
  intros [H|H]; cbn in H; intuition discriminate.
Qed.

(** The adaptive call kills task 1 only. *)
Lemma adaptive_run :
  exists r,
    @lowmem_scan msm8953 adaptive_params armed ample_memory_call = Some r
    /\ killed 1%nat (events r).
Proof.
  vm_compute. eexists. split; [reflexivity|]. left; cbn; auto.
Qed.

(** The call that sees only the foreground process kills nothing. *)
Lemma foreground_only_run :
  exists r,
    @lowmem_scan msm8953 default_params initial_state foreground_only_call
    = Some r
    /\ kills (events r) = 0%nat.
Proof.
  vm_compute. eexists. split; reflexivity.
Qed.

Lemma victim_is_not_the_caller_witness :
  exists r,
    @lowmem_scan msm8953 default_params initial_state low_memory_call = Some r
    /\ pid (kill_mem low_memory_call 1%nat) <> current_pid low_memory_call
    /\ tif_memdie (kill_mem low_memory_call 1%nat) = false
    /\ kills_of 1%nat (events r) = 1%nat.
Proof.
  destruct low_memory_run as (r & Hrun & Hk & _).
  exists r. split; [exact Hrun|].
  exact (@victim_is_not_the_caller msm8953 default_params initial_state
           low_memory_call r 1%nat Hrun Hk).
Defined.

Lemma call_only_marks_victims_witness :
  exists r,
    @lowmem_scan msm8953 default_params initial_state low_memory_call = Some r
    /\ tasks_after r 1%nat = marked (kill_mem low_memory_call 1%nat)
    /\ tasks_after r 3%nat = kill_mem low_memory_call 3%nat.
Proof.
  destruct low_memory_run as (r & Hrun & Hk & Hn & _).
  exists r. split; [exact Hrun|]. split.
  - exact (proj1 (@call_only_marks_victims msm8953 default_params
                    initial_state low_memory_call r 1%nat Hrun) Hk).
  - exact (proj2 (@call_only_marks_victims msm8953 default_params
                    initial_state low_memory_call r 3%nat Hrun) Hn).
Defined.

Lemma kills_at_most_nTaskMax_witness :
  exists r,
    @lowmem_scan msm8953 adaptive_params armed ample_memory_call = Some r
    /\ Z.of_nat (kills (events r))
       <= @nTaskMax_of_call msm8953 adaptive_params armed ample_memory_call
    /\ @nTaskMax_of_call msm8953 adaptive_params armed ample_memory_call = 2.
Proof.
  destruct adaptive_run as (r & Hrun & _).
  exists r. split; [exact Hrun|].
  destruct (@kills_at_most_nTaskMax msm8953 adaptive_params armed
              ample_memory_call r Hrun) as (H1 & _ & H3).
  split; [exact H1|]. apply H3. vm_compute. reflexivity.
Defined.

Lemma victim_was_a_candidate_witness :
  exists r,
    @lowmem_scan msm8953 default_params initial_state low_memory_call = Some r
    /\ @candidate low_memory_call
         (@clamped_min_score_adj msm8953 default_params initial_state
            low_memory_call) 1%nat.
Proof.
  destruct low_memory_run as (r & Hrun & Hk & _).
  exists r. split; [exact Hrun|].
  exact (@victim_was_a_candidate msm8953 default_params initial_state
           low_memory_call r 1%nat Hrun Hk).
Defined.

Lemma throttle_after_full_call_witness :
  (exists r,
      @lowmem_scan msm8953 default_params initial_state low_memory_call
      = Some r
      /\ throttle (state_after r)
         = @throttle_after_kill msm8953 low_memory_call 12 6
             (throttle initial_state))
  /\ (exists r,
         @lowmem_scan msm8953 default_params initial_state
           foreground_only_call = Some r
         /\ reclaimed r = 0
         /\ throttle (state_after r)
            = @throttle_after_no_kill msm8953 foreground_only_call 12
                (throttle initial_state)).
Proof.
  split.
  - destruct low_memory_run as (r & Hrun & _ & _ & Hp).
    exists r. split; [exact Hrun|].
    destruct (@throttle_after_full_call msm8953 default_params initial_state
                low_memory_call r) as [_ H]; [vm_compute; reflexivity|exact Hrun|].
    exact (H Hp).
  - destruct foreground_only_run as (r & Hrun & Hz).
    exists r. split; [exact Hrun|].
    destruct (@throttle_after_full_call msm8953 default_params initial_state
                foreground_only_call r) as [H _];
      [vm_compute; reflexivity|exact Hrun|].
    exact (H Hz).
Defined.

Lemma call_without_candidates_witness :
  exists r,
    @lowmem_scan msm8953 default_params initial_state foreground_only_call
    = Some r
    /\ kills (events r) = 0%nat
    /\ (forall p, ~ killed p (events r))
    /\ reclaimed r = 0
    /\ tasks_after r = kill_mem foreground_only_call
    /\ throttle (state_after r)
       = @throttle_after_no_kill msm8953 foreground_only_call 12
           (throttle initial_state).
Proof.
  destruct foreground_only_run as (r & Hrun & _).
  exists r. split; [exact Hrun|].
  apply (@call_without_candidates msm8953 default_params initial_state
           foreground_only_call r); [vm_compute; reflexivity|exact Hrun|].
  intros p (tsk & adj & rss & Hin & _ & _ & _ & Hp & Hsig & _ & _ & Hle & _).
  destruct Hin as [<-|[]].
  vm_compute in Hp. inversion Hp; subst p.
  vm_compute in Hsig. inversion Hsig; subst adj.
  vm_compute in Hle. apply Hle. reflexivity.
Defined.

Lemma counters_after_call_witness :
  exists r,
    @lowmem_scan msm8953 default_params initial_state low_memory_call = Some r
    /\ lowmem_scan_count (stats (state_after r)) = to_ulong (0 + 1)
    /\ lowmem_escape1_count (stats (state_after r)) = 0
    /\ lowmem_kill_count (stats (state_after r)) = to_ulong (0 + 2).
Proof.
  destruct low_memory_run as (r & Hrun & _).
  exists r. split; [exact Hrun|].
  destruct (@counters_after_call msm8953 default_params initial_state
              low_memory_call r eq_refl Hrun) as (H1 & H2 & _ & _ & H5).
  split; [exact H1|]. split; [exact H2|].
  assert (Hk : kills (events r) = 2%nat).
  { vm_compute in Hrun. inversion Hrun. reflexivity. }
  rewrite Hk in H5. exact H5.
Defined.

Lemma adaptive_call_witness :
  exists r,
    @lowmem_scan msm8953 adaptive_params armed ample_memory_call = Some r
    /\ @clamped_min_score_adj msm8953 adaptive_params armed ample_memory_call
       = 353
    /\ (kills (events r) <= 2)%nat
    /\ 80 * 1024
       <= to_long (to_int 128000 * Z.quot (to_long (@PAGE_SIZE msm8953)) 1024).
Proof.
  destruct adaptive_run as (r & Hrun & Hk).
  exists r. split; [exact Hrun|].
  destruct (@adaptive_call_kills_few_large msm8953 adaptive_params armed
              ample_memory_call r Hrun) as (_ & _ & _ & H4 & H5 & H6);
    [vm_compute; reflexivity|].
  split; [exact H4|]. split; [exact H5|].
  apply (H6 1%nat 128000 Hk). reflexivity.
Defined.

Lemma shift_adj_consumed_witness :
  exists r,
    @lowmem_scan msm8953 adaptive_params armed ample_memory_call = Some r
    /\ shift_adj (state_after r) = 0
    /\ @clamped_min_score_adj msm8953 adaptive_params (state_after r)
         ample_memory_call
       = @resolved_min_score_adj msm8953 adaptive_params ample_memory_call.
Proof.
  destruct adaptive_run as (r & Hrun & _).
  exists r. split; [exact Hrun|].
  destruct (@shift_adj_consumed_by_call msm8953 adaptive_params armed
              ample_memory_call r eq_refl Hrun) as (H1 & H2).
  split; [exact H1|apply H2].
Defined.

Lemma full_call_starts_cooldown_witness :
  (exists r r2,
      @lowmem_scan msm8953 default_params initial_state low_memory_call
      = Some r
      /\ @lowmem_scan msm8953 default_params (state_after r)
           low_memory_call_later = Some r2
      /\ reclaimed r2 = 0
      /\ events r2 = [mutex_lock_scan_mutex; mutex_unlock_scan_mutex])
  /\ (exists r r2,
         @lowmem_scan msm8953 default_params initial_state
           foreground_only_call = Some r
         /\ @lowmem_scan msm8953 default_params (state_after r)
              low_memory_call_later = Some r2
         /\ reclaimed r2 = 0
         /\ events r2 = [mutex_lock_scan_mutex; mutex_unlock_scan_mutex]).
Proof.
  split.
  - destruct low_memory_run as (r & Hrun & _ & _ & Hp).
    destruct (@full_call_starts_cooldown msm8953 default_params initial_state
                low_memory_call r low_memory_call_later) as [H _];
      [vm_compute; reflexivity|exact Hrun|reflexivity
      |vm_compute; discriminate|].
    destruct (H Hp) as (r2 & H2 & H3 & H4 & _); [vm_compute; reflexivity|].
    exists r, r2. auto.
  - destruct foreground_only_run as (r & Hrun & Hz).
    destruct (@full_call_starts_cooldown msm8953 default_params initial_state
                foreground_only_call r low_memory_call_later) as [_ H];
      [vm_compute; reflexivity|exact Hrun|reflexivity
      |vm_compute; discriminate|].
    destruct (H Hz) as (r2 & H2 & H3 & H4); [vm_compute; reflexivity|].
    exists r, r2. auto.
Defined.


(** The walk over the three processes at score 0 keeps all of them. *)
Lemma foreground_walk_run :
  exists s',
    @scan_loop msm8953 low_memory_call_fg 0 0 false
      (choose_nTaskMax false 0) 0 [1; 2; 3]%nat
      (empty_window (diag initial_state)) = Some s'
    /\ List.length (ListHead s') = 3%nat.
Proof.
  vm_compute. eexists. split; reflexivity.
Qed.

Lemma window_by_score_then_size_witness :
  exists s',
    @scan_loop msm8953 low_memory_call_fg 0 0 false
      (choose_nTaskMax false 0) 0 [1; 2; 3]%nat
      (empty_window (diag initial_state)) = Some s'
    /\ StronglySorted key_ge
         (window_keys (scan_mem low_memory_call_fg) (rev (ListHead s'))).
Proof.
  destruct foreground_walk_run as (s' & Hrun & _).
  exists s'. split; [exact Hrun|].
  exact (@window_by_score_then_size msm8953 low_memory_call_fg 0 0
           [1; 2; 3]%nat (diag initial_state) s' Hrun).
Defined.

Lemma autodetect_converts_witness :
  array_get
    (lowmem_adj
       (@lowmem_autodetect_oom_adj_values msm8953 linux_oom oom_adj_params))
    2
  = (if @converts msm8953 linux_oom oom_adj_params
        && (2 <? adj_in_use oom_adj_params)
     then @lowmem_oom_adj_to_oom_score_adj msm8953 linux_oom
            (array_get (lowmem_adj oom_adj_params) 2)
     else array_get (lowmem_adj oom_adj_params) 2).
Proof.
  assert (Hlen : List.length (lowmem_adj oom_adj_params)
                 = Z.to_nat ARRAY_SIZE_lowmem_adj) by reflexivity.
  assert (Hpos : 0 <= 2) by lia.
  exact (proj1 (@autodetect_converts_entries_in_use msm8953 linux_oom
                  oom_adj_params 2 Hlen Hpos)).
Defined.

Lemma autodetect_idempotent_witness :
  @lowmem_autodetect_oom_adj_values msm8953 linux_oom
    (@lowmem_autodetect_oom_adj_values msm8953 linux_oom oom_adj_params)
  = @lowmem_autodetect_oom_adj_values msm8953 linux_oom oom_adj_params.
Proof.
  apply (@autodetect_idempotent msm8953 linux_oom oom_adj_params).
  reflexivity.
Defined.

(** The constants of linux/oom.h satisfy the relations. *)
Lemma linux_oom_ok : @oom_abi_ok msm8953 linux_oom.
Proof. unfold oom_abi_ok. cbn. repeat split; try lia; reflexivity. Qed.

Lemma conversion_is_monotone_witness :
  @lowmem_oom_adj_to_oom_score_adj msm8953 linux_oom 6
  <= @lowmem_oom_adj_to_oom_score_adj msm8953 linux_oom 12.
Proof.
  assert (H1 : @OOM_DISABLE linux_oom <= 6) by (cbn; lia).
  assert (H2 : 6 <= 12) by lia.
  assert (H3 : 12 <= @OOM_ADJUST_MAX linux_oom) by (cbn; lia).
  exact (proj1 (@conversion_is_monotone msm8953 linux_oom 6 12
                  linux_oom_ok H1 H2 H3)).
Defined.

Lemma detection_converts_witness :
  @converts msm8953 linux_oom oom_adj_params = true.
Proof.
  assert (H1 : 0 < adj_in_use oom_adj_params) by (vm_compute; reflexivity).
  assert (H2 : @OOM_DISABLE linux_oom
               <= array_get (lowmem_adj oom_adj_params)
                    (adj_in_use oom_adj_params - 1))
    by (vm_compute; discriminate).
  apply (proj2 (@detection_converts_iff_last_in_oom_adj_range msm8953
                  linux_oom oom_adj_params linux_oom_ok H1 H2)).
  vm_compute. split; discriminate.
Defined.

Lemma zone_order_is_irrelevant_witness :
  @Zones.tune_lmk_zone_param linux_mmzone
    [movable_zone; normal_zone; dma_zone] 1 (Some 3000, Some 5000) 0
  = @Zones.tune_lmk_zone_param linux_mmzone
      [dma_zone; movable_zone; normal_zone] 1 (Some 3000, Some 5000) 0.
Proof.
  apply (@zone_order_is_irrelevant linux_mmzone).
  - intros x Hx. inversion Hx. unfold int_range. lia.
  - intros x Hx. inversion Hx. unfold int_range. lia.
  - apply Permutation_sym.
    apply (Permutation_cons_app [movable_zone; normal_zone] []).
    apply Permutation_refl.
Defined.

Lemma zone_walk_estimates_are_independent_witness :
  @Zones.tune_lmk_zone_param linux_mmzone
    [movable_zone; normal_zone; dma_zone] 0 (Some 3000, None) 0
  = (fst (@Zones.tune_lmk_zone_param linux_mmzone
            [movable_zone; normal_zone; dma_zone] 0
            (Some 3000, Some 5000) 0), None).
Proof.
  assert (H1 : int_range 3000) by (unfold int_range; lia).
  assert (H2 : int_range 5000) by (unfold int_range; lia).
  exact (proj1 (@zone_walk_estimates_are_independent linux_mmzone
                  [movable_zone; normal_zone; dma_zone] 0 0 0
                  3000 3000 5000 H1 H1 H2)).
Defined.

(** The sample zones have sane counters. *)
Lemma sample_zones_sane :
  Forall Zones.zone_sane [movable_zone; normal_zone; dma_zone].
Proof.
  repeat constructor; cbn; try lia; intros _; lia.
Qed.

Lemma tune_lmk_param_only_lowers_witness :
  fst (@Zones.tune_lmk_param linux_mmzone 0 kswapd_alloc (3000, 5000))
  <= 3000
  /\ snd (@Zones.tune_lmk_param linux_mmzone 0 kswapd_alloc (3000, 5000))
     <= 5000.
Proof.
  assert (H1 : int_range 3000) by (unfold int_range; lia).
  assert (H2 : int_range 5000) by (unfold int_range; lia).
  assert (Hpz : Zones.zone_sane (Zones.preferred_zone kswapd_alloc)).
  { pose proof sample_zones_sane as H. inversion H as [|? ? _ H'].
    inversion H' as [|? ? Hn _]. exact Hn. }
  assert (H3 : - 2 ^ 31
               <= 3000
                  - (Zones.sum_shares
                       (@Zones.free_share linux_mmzone
                          (Zones.zone_idx (Zones.preferred_zone kswapd_alloc))
                          (Zones.use_cma_pages kswapd_alloc))
                       (Zones.zonelist kswapd_alloc)
                     + @Zones.preferred_share linux_mmzone kswapd_alloc))
    by (vm_compute; discriminate).
  assert (H4 : - 2 ^ 31
               <= 5000
                  - Zones.sum_shares
                      (@Zones.file_share linux_mmzone
                         (Zones.zone_idx (Zones.preferred_zone kswapd_alloc)))
                      (Zones.zonelist kswapd_alloc))
    by (vm_compute; discriminate).
  destruct (@tune_lmk_param_only_lowers linux_mmzone 0 kswapd_alloc
              3000 5000 sample_zones_sane Hpz H1 H2 H3 H4)
    as (_ & _ & Hf & Hg).
  split; [exact Hf|exact Hg].
Defined.

Lemma can_use_cma_pages_witness :
  @Zones.can_use_cma_pages linux_mmzone 2 movable_fallbacks = Some 1
  /\ @Zones.can_use_cma_pages linux_mmzone 1 [0; 2; 3] = Some 0
  /\ @Zones.can_use_cma_pages linux_mmzone 1 [0; 2] = None.
Proof.
  split; [|split].
  - destruct (@can_use_cma_pages_reads_to_terminator linux_mmzone 2
                movable_fallbacks) as (_ & H).
    destruct H as (H & _ & _); [cbn; lia|].
    apply (H [] [1; 0; 3]); [reflexivity| |]; intros [].
  - destruct (@can_use_cma_pages_reads_to_terminator linux_mmzone 1
                [0; 2; 3]) as (_ & H).
    destruct H as (_ & H & _); [cbn; lia|].
    apply (H [0; 2] []); [reflexivity|cbn; lia| |];
      cbn; intros [H0|[H0|[]]]; discriminate.
  - destruct (@can_use_cma_pages_reads_to_terminator linux_mmzone 1
                [0; 2]) as (_ & H).
    destruct H as (_ & _ & H); [cbn; lia|].
    apply H; cbn; intros [H0|[H0|[]]]; discriminate.
Defined.

(** The tracked period runs: one report for the first firing, one for the
    second. *)
Lemma tracked_period_run :
  exists h,
    @run msm8953 hz100_timer tracked_period initial_state tracker_started
    = Some h
    /\ List.length (reports h) = 2%nat.
Proof.
  vm_compute. eexists. split; reflexivity.
Qed.

Lemma tracker_reports_witness :
  exists h,
    @run msm8953 hz100_timer tracked_period initial_state tracker_started
    = Some h
    /\ to_ulong (total Scan (reports h)
                 + lowmem_scan_count (stats (driver_now h)))
       = to_ulong (lowmem_scan_count (stats initial_state)
                   + Z.of_nat (held tracked_period)).
Proof.
  destruct tracked_period_run as (h & Hrun & _).
  exists h. split; [exact Hrun|].
  exact (proj1 (@tracker_reports_every_scan_and_kill msm8953 hz100_timer
                  tracked_period initial_state tracker_started h Hrun)).
Defined.

Lemma report_covers_the_period_witness :
  exists h rep,
    @run msm8953 hz100_timer tracked_period initial_state tracker_started
    = Some h
    /\ to_ulong (Scan rep) = to_ulong (Z.of_nat (held tracked_calls))
    /\ lowmem_scan_count (stats (driver_now h)) = 0.
Proof.
  destruct tracked_period_run as (h & Hrun & _).
  assert (Hc : forallb is_shrink tracked_calls = true) by reflexivity.
  assert (Hj : 4999999500 <> 0) by discriminate.
  assert (Ht : last_track_time tracker_started <> 0) by discriminate.
  destruct (@report_covers_the_period msm8953 hz100_timer 4999999500
              5000000000 tracked_calls initial_state tracker_started h
              Hc Hrun) as (H & _).
  destruct (H Hj) as (rep & _ & _ & Hs & Hz & _).
  exists h, rep. split; [exact Hrun|]. split; [exact (Hs Ht)|exact Hz].
Defined.

Lemma autodetect_keeps_table_ascending_witness :
  array_get
    (lowmem_adj
       (@lowmem_autodetect_oom_adj_values msm8953 linux_oom oom_adj_params))
    1
  <= array_get
       (lowmem_adj
          (@lowmem_autodetect_oom_adj_values msm8953 linux_oom
             oom_adj_params))
       3.
Proof.
  assert (Hlen : List.length (lowmem_adj oom_adj_params)
                 = Z.to_nat ARRAY_SIZE_lowmem_adj) by reflexivity.
  assert (Hrange : forall i,
             0 <= i < adj_in_use oom_adj_params ->
             @OOM_DISABLE linux_oom
             <= array_get (lowmem_adj oom_adj_params) i
             <= @OOM_ADJUST_MAX linux_oom).
  { intros i Hi. change (adj_in_use oom_adj_params) with 4 in Hi.
    assert (Hc : i = 0 \/ i = 1 \/ i = 2 \/ i = 3) by lia.
    destruct Hc as [-> | [-> | [-> | ->]]]; vm_compute; split; discriminate. }
  assert (Hasc : forall i j,
             0 <= i -> i <= j -> j < adj_in_use oom_adj_params ->
             array_get (lowmem_adj oom_adj_params) i
             <= array_get (lowmem_adj oom_adj_params) j).
  { intros i j Hi Hij Hj. change (adj_in_use oom_adj_params) with 4 in Hj.
    assert (Hc : i = 0 \/ i = 1 \/ i = 2 \/ i = 3) by lia.
    assert (Hd : j = 0 \/ j = 1 \/ j = 2 \/ j = 3) by lia.
    destruct Hc as [-> | [-> | [-> | ->]]];
      destruct Hd as [-> | [-> | [-> | ->]]];
      try lia; vm_compute; discriminate. }
  destruct (@autodetect_keeps_table_ascending msm8953 linux_oom
              oom_adj_params linux_oom_ok Hlen Hrange Hasc) as (_ & H).
  apply H; [lia|lia|vm_compute; reflexivity].
Defined.
